(** * AETHER Secure Communication Protocol (SCP)

    A shallow embedding of [protocol/src/crypto.js] (the message codec and the
    key derivation) and of [protocol/src/protocol.js] (the connection class
    [SecureCommunicationProtocol]), with the properties of the protocol
    specification stated and proved against it.

    Conventions.
    - A [Buffer] is a [list byte]; a JavaScript string is the Rocq [string] of
      its UTF-8 bytes, so [Buffer.from(str)] and [buf.toString()] are the two
      conversions between [string] and [list byte].
    - A JavaScript [Number] holding an integer and a [BigInt] are both a [Z];
      the one lossy conversion of the source, [Number(bigint)], is
      [Number_of_BigInt] (round to nearest double, ties to even).
    - Node's [crypto] module and [JSON] are an interface, [NodeRuntime]; what
      is assumed of them is the class [NodeRuntimeLaws].
    - A thrown exception is [Throw e]; state changes made before the throw
      stay, as in JavaScript.  *)

From Stdlib Require Import ZArith List Lia Bool String Ascii DecimalString Sorted.
From Stdlib.Strings Require Import Byte.
From stdpp Require Import base option list gmap strings.
Import ListNotations.

Local Open Scope string_scope.
Local Open Scope list_scope.
Local Open Scope Z_scope.

(** ** Exceptions and completions *)

Inductive JSError :=
| Error (message : string)      (* new Error(message), raised by the source *)
| TypeError (message : string)  (* property read of null, Buffer.from(undefined), bad key *)
| RangeError (message : string) (* out-of-range buffer write, length mismatch, stack *)
| CryptoError (message : string)(* decipher.final(): authentication failure *)
| SyntaxError (message : string)(* JSON.parse *).

Inductive Result (A : Type) :=
| Normal (a : A)
| Throw (e : JSError).
Arguments Normal {A} a.
Arguments Throw {A} e.

(** State that survives an exception: [S -> Result A * S]. *)
Definition SE (S A : Type) : Type := S -> Result A * S.

Definition ret {S A} (a : A) : SE S A := fun s => (Normal a, s).
Definition throw {S A} (e : JSError) : SE S A := fun s => (Throw e, s).
Definition bind {S A B} (m : SE S A) (k : A -> SE S B) : SE S B :=
  fun s => match m s with
           | (Normal a, s') => k a s'
           | (Throw e, s') => (Throw e, s')
           end.
Definition try_catch {S A} (m : SE S A) (handler : JSError -> SE S A) : SE S A :=
  fun s => match m s with
           | (Normal a, s') => (Normal a, s')
           | (Throw e, s') => handler e s'
           end.
Definition get {S} : SE S S := fun s => (Normal s, s).
Definition gets {S A} (f : S -> A) : SE S A := fun s => (Normal (f s), s).
Definition modify {S} (f : S -> S) : SE S unit := fun s => (Normal tt, f s).
Definition lift_result {S A} (r : Result A) : SE S A := fun s => (r, s).

Declare Scope se_scope.
Delimit Scope se_scope with se.
Notation "x <- m ;; k" := (bind m (fun x => k))
  (at level 100, m at next level, right associativity) : se_scope.
Notation "m ;;; k" := (bind m (fun _ => k))
  (at level 100, right associativity) : se_scope.
Local Open Scope se_scope.

(** ** Buffers *)

Abbreviation bytes := (list byte).

#[global] Instance byte_eq_decision : EqDecision byte := Byte.byte_eq_dec.

(** [buf.slice(start, end)]: a negative index counts from the end, indices are
    clamped to the buffer, an empty range gives an empty buffer. *)
Definition norm_index (len i : Z) : Z :=
  if i <? 0 then Z.max (len + i) 0 else Z.min i len.

Definition slice (b : bytes) (start : Z) (fin : option Z) : bytes :=
  let len := Z.of_nat (length b) in
  let s := norm_index len start in
  let e := match fin with Some e => norm_index len e | None => len end in
  take (Z.to_nat (e - s)) (drop (Z.to_nat s) b).

(** [Buffer.alloc(n)] *)
Definition Buffer_alloc (n : nat) : bytes := repeat x00 n.

(** Big-endian digits of [v], [n] of them. *)
Fixpoint be_bytes (n : nat) (v : Z) : bytes :=
  match n with
  | O => []
  | S n' => be_bytes n' (v / 256) ++
            [match Byte.of_N (Z.to_N (v mod 256)) with Some b => b | None => x00 end]
  end.

Definition be_value (b : bytes) : Z :=
  fold_left (fun acc x => acc * 256 + Z.of_N (Byte.to_N x)) b 0.

(** Overwrite [length data] bytes of [buf] at [offset]. *)
Definition splice (buf : bytes) (offset : nat) (data : bytes) : bytes :=
  take offset buf ++ data ++ drop (offset + length data) buf.

(** [buf.writeUIntBE]-family: a value outside the field's range raises
    ERR_OUT_OF_RANGE, and so does a field that does not fit in the buffer. *)
Definition write_uint_be (width : nat) (buf : bytes) (value : Z) (offset : nat)
  : Result bytes :=
  if (0 <=? value) && (value <? 256 ^ Z.of_nat width) then
    if (offset + width <=? length buf)%nat
    then Normal (splice buf offset (be_bytes width value))
    else Throw (RangeError "ERR_OUT_OF_RANGE offset")
  else Throw (RangeError "ERR_OUT_OF_RANGE value").

Definition writeUInt8 := write_uint_be 1.
Definition writeUInt32BE := write_uint_be 4.
Definition writeBigUInt64BE := write_uint_be 8.

Definition read_uint_be (width : nat) (buf : bytes) (offset : nat) : Z :=
  be_value (take width (drop offset buf)).

Definition readUInt8 := read_uint_be 1.
Definition readUInt32BE := read_uint_be 4.
Definition readBigUInt64BE := read_uint_be 8.

(** [Number(b)] for a non-negative BigInt [b]: the nearest double, ties to the
    even significand.  Integers of at most 53 bits are exact. *)
Definition Number_of_BigInt (z : Z) : Z :=
  let bits := Z.log2 z + 1 in
  if bits <=? 53 then z
  else
    let sh := bits - 53 in
    let q := Z.shiftr z sh in
    let r := Z.land z (Z.ones sh) in
    let half := Z.shiftl 1 (sh - 1) in
    let q' := if r <? half then q
              else if half <? r then q + 1
              else if Z.even q then q else q + 1 in
    Z.shiftl q' sh.

(** [buf.toString('hex')] and [Buffer.from(s, 'hex')]. *)
Definition hex_digit (n : N) : ascii :=
  match n with
  | 0 => "0" | 1 => "1" | 2 => "2" | 3 => "3" | 4 => "4" | 5 => "5"
  | 6 => "6" | 7 => "7" | 8 => "8" | 9 => "9" | 10 => "a" | 11 => "b"
  | 12 => "c" | 13 => "d" | 14 => "e" | _ => "f"
  end%N%char.

Definition hex_value (c : ascii) : option N :=
  (let n := N_of_ascii c in
   if (48 <=? n) && (n <=? 57) then Some (n - 48)
   else if (97 <=? n) && (n <=? 102) then Some (n - 87)
   else if (65 <=? n) && (n <=? 70) then Some (n - 55)
   else None)%N.

Fixpoint hex_encode (b : bytes) : string :=
  match b with
  | [] => EmptyString
  | x :: b' =>
      let n := Byte.to_N x in
      String (hex_digit (n / 16)) (String (hex_digit (n mod 16)) (hex_encode b'))
  end%N.

(** Decoding stops at the first pair that is not two hex digits. *)
Fixpoint hex_decode (s : string) : bytes :=
  match s with
  | String c1 (String c2 s') =>
      match hex_value c1, hex_value c2 with
      | Some h, Some l =>
          match Byte.of_N (h * 16 + l) with
          | Some x => x :: hex_decode s'
          | None => []
          end
      | _, _ => []
      end
  | _ => []
  end%N.

(** [crypto.timingSafeEqual(a, b)] *)
Definition timingSafeEqual (a b : bytes) : Result bool :=
  if (length a =? length b)%nat
  then Normal (bool_decide (a = b))
  else Throw (RangeError "Input buffers must have the same byte length").

Set Warnings "-register-all".

(** ** JavaScript values carried as payloads

    Numbers are the integral ones (every number this protocol produces is an
    integer); [JKeyObject] is a [crypto.KeyObject] wrapping raw key bytes. *)
Inductive JSValue :=
| JUndefined
| JNull
| JBool (b : bool)
| JNumber (n : Z)
| JString (s : string)
| JKeyObject (key : bytes)
| JArray (items : list JSValue)
| JObject (fields : list (string * JSValue)).

Fixpoint assoc_lookup (k : string) (fields : list (string * JSValue)) : option JSValue :=
  match fields with
  | [] => None
  | (k', v) :: rest => if String.eqb k k' then Some v else assoc_lookup k rest
  end.

(** [v.k]: reading a property of [null] or [undefined] raises a TypeError, a
    missing property reads as [undefined]. *)
Definition get_prop (v : JSValue) (k : string) : Result JSValue :=
  match v with
  | JUndefined | JNull => Throw (TypeError "Cannot read properties of null or undefined")
  | JObject fields => Normal (default JUndefined (assoc_lookup k fields))
  | _ => Normal JUndefined
  end.

(** ** The runtime interface: Node's [crypto] module and [JSON] *)

Class NodeRuntime := {
  (* JSON.stringify: [None] is the result [undefined] *)
  JSON_stringify : JSValue -> option string;
  (* JSON.parse: [None] is a SyntaxError *)
  JSON_parse : string -> option JSValue;
  (* crypto.createHmac('sha256', key).update(data).digest() *)
  hmac_sha256 : forall (key data : bytes), bytes;
  (* crypto.createCipheriv('aes-256-gcm', key, iv): ciphertext and tag;
     [None] when the key or the IV is refused *)
  aes_256_gcm_encrypt : forall (key iv plaintext : bytes), option (bytes * bytes);
  (* crypto.createDecipheriv(...), setAuthTag, update, final: [None] when
     final() refuses the tag *)
  aes_256_gcm_decrypt : forall (key iv tag ciphertext : bytes), option bytes;
  (* crypto.hkdfSync('sha256', ikm, salt, info, length) *)
  hkdf_sha256 : forall (ikm salt info : bytes) (len : nat), bytes;
  (* the X25519 public key of a private key, and crypto.diffieHellman *)
  x25519_public : bytes -> bytes;
  x25519 : forall (privateKey publicKey : bytes), bytes
}.

(** What the library's documentation promises and the codec relies on. *)
Class NodeRuntimeLaws (R : NodeRuntime) : Prop := {
  hmac_sha256_length :
    forall key data, length (hmac_sha256 key data) = 32%nat;
  aes_256_gcm_inverse :
    forall key iv plaintext,
      length key = 32%nat -> length iv = 12%nat ->
      exists ciphertext tag,
        aes_256_gcm_encrypt key iv plaintext = Some (ciphertext, tag) /\
        length tag = 16%nat /\
        aes_256_gcm_decrypt key iv tag ciphertext = Some plaintext;
  hkdf_sha256_length :
    forall ikm salt info len, length (hkdf_sha256 ikm salt info len) = len
}.

(** Calls into the crypto library, in the order they are made. *)
Inductive CryptoCall :=
| CallRandomBytes (n : nat)
| CallHkdf (ikm salt info : bytes) (len : nat)
| CallDiffieHellman (privateKey publicKey : bytes)
| CallCipher (key iv plaintext : bytes)
| CallDecipher (key iv tag ciphertext : bytes)
| CallHmac (key data : bytes).

(** The environment of the codec: the system's entropy source, read
    sequentially, and the log of library calls. *)
Record Env := mkEnv {
  entropy : nat -> byte;
  cursor : nat;
  crypto_calls : list CryptoCall
}.

Definition log_call (c : CryptoCall) : SE Env unit :=
  modify (fun e => mkEnv (entropy e) (cursor e) (crypto_calls e ++ [c])).

(** ** crypto.js *)

Module PROTOCOL_CONSTANTS.
Definition VERSION : Z := 1.
Definition KEY_LENGTH : nat := 32.
Definition IV_LENGTH : nat := 12.
Definition TAG_LENGTH : nat := 16.
Definition HMAC_LENGTH : nat := 32.
Definition SALT : bytes := list_byte_of_string "SCP-Protocol-Salt-2024".
Definition INFO : bytes := list_byte_of_string "SCP-Key-Derivation".
End PROTOCOL_CONSTANTS.

Module MESSAGE_TYPES.
Definition HANDSHAKE_INIT : Z := 1.
Definition HANDSHAKE_RESPONSE : Z := 2.
Definition DATA : Z := 3.
Definition ACK : Z := 4.
Definition CLOSE : Z := 5.
Definition all : list Z := [HANDSHAKE_INIT; HANDSHAKE_RESPONSE; DATA; ACK; CLOSE].
End MESSAGE_TYPES.

Record KeyPair := mkKeyPair { publicKey : bytes; privateKey : bytes }.
Record SessionKeys := mkSessionKeys { encryptionKey : bytes; hmacKey : bytes }.
Record EncryptedData := mkEncryptedData { encrypted : string; iv : bytes; tag : bytes }.

Module Header.
Record t := mk {
  version : Z;
  messageType : Z;
  sequenceNumber : Z;
  payloadLength : Z
  }.
End Header.

Definition and_then {A B} (r : Result A) (k : A -> Result B) : Result B :=
  match r with
  | Normal a => k a
  | Throw e => Throw e
  end.

(** [crypto.randomBytes(length)] *)
Definition randomBytes (n : nat) : SE Env bytes :=
  fun e =>
    (Normal (map (entropy e) (seq (cursor e) n)),
     mkEnv (entropy e) (cursor e + n)%nat (crypto_calls e ++ [CallRandomBytes n])).

Section Crypto.
Context {R : NodeRuntime}.

Definition generateKeyPair : SE Env KeyPair :=
  sk <- randomBytes 32 ;;
  ret (mkKeyPair (x25519_public sk) sk).

(** [crypto.diffieHellman] refuses a public key that is not a key object. *)
Definition deriveSharedSecret (privateKey : bytes) (publicKey : JSValue)
  : SE Env bytes :=
  match publicKey with
  | JKeyObject pk =>
      log_call (CallDiffieHellman privateKey pk) ;;;
      ret (x25519 privateKey pk)
  | _ => throw (TypeError "ERR_INVALID_ARG_TYPE publicKey")
  end.

Definition deriveKeys (sharedSecret : bytes) (salt info : option bytes)
  : SE Env SessionKeys :=
  let salt := default PROTOCOL_CONSTANTS.SALT salt in
  let info := default PROTOCOL_CONSTANTS.INFO info in
  log_call (CallHkdf sharedSecret salt info 64) ;;;
  let keyMaterial := hkdf_sha256 sharedSecret salt info 64 in
  ret (mkSessionKeys
         (slice keyMaterial 0 (Some (Z.of_nat PROTOCOL_CONSTANTS.KEY_LENGTH)))
         (slice keyMaterial (Z.of_nat PROTOCOL_CONSTANTS.KEY_LENGTH) None)).

Definition encrypt (plaintext : string) (key : bytes) (iv : option bytes)
  : SE Env EncryptedData :=
  ivBuffer <- match iv with
              | Some i => ret i
              | None => randomBytes PROTOCOL_CONSTANTS.IV_LENGTH
              end ;;
  log_call (CallCipher key ivBuffer (list_byte_of_string plaintext)) ;;;
  match aes_256_gcm_encrypt key ivBuffer (list_byte_of_string plaintext) with
  | Some (ciphertext, tag) =>
      ret (mkEncryptedData (hex_encode ciphertext) ivBuffer tag)
  | None => throw (RangeError "Invalid key length")
  end.

Definition decrypt (encrypted : string) (key iv tag : bytes) : SE Env string :=
  log_call (CallDecipher key iv tag (hex_decode encrypted)) ;;;
  match aes_256_gcm_decrypt key iv tag (hex_decode encrypted) with
  | Some plaintext => ret (string_of_list_byte plaintext)
  | None => throw (CryptoError "Unsupported state or unable to authenticate data")
  end.

Definition generateHMAC (data key : bytes) : SE Env bytes :=
  log_call (CallHmac key data) ;;;
  ret (hmac_sha256 key data).

Definition verifyHMAC (data key expectedHMAC : bytes) : SE Env bool :=
  actualHMAC <- generateHMAC data key ;;
  lift_result (timingSafeEqual actualHMAC expectedHMAC).

(** [BigInt(sequenceNumber)] is exact, so the header carries the integer
    the caller passed, as a Number or as a BigInt. *)
Definition createMessageHeader (messageType sequenceNumber payloadLength : Z)
  : Result bytes :=
  let header := Buffer_alloc 14 in
  and_then (writeUInt8 header PROTOCOL_CONSTANTS.VERSION 0) (fun header =>
  and_then (writeUInt8 header messageType 1) (fun header =>
  and_then (writeBigUInt64BE header sequenceNumber 2) (fun header =>
  and_then (writeUInt32BE header payloadLength 10) (fun header =>
  Normal header)))).

Definition parseMessageHeader (headerBuffer : bytes) : Result Header.t :=
  if (length headerBuffer <? 14)%nat
  then Throw (Error "Invalid header length")
  else Normal (Header.mk
                 (readUInt8 headerBuffer 0)
                 (readUInt8 headerBuffer 1)
                 (Number_of_BigInt (readBigUInt64BE headerBuffer 2))
                 (readUInt32BE headerBuffer 10)).

Definition createMessage (messageType sequenceNumber : Z) (payload : JSValue)
    (encryptionKey hmacKey : bytes) : SE Env bytes :=
  match JSON_stringify payload with
  | None => throw (TypeError "ERR_INVALID_ARG_TYPE Buffer.from(undefined)")
  | Some json =>
      let payloadBuffer := list_byte_of_string json in
      header <- lift_result (createMessageHeader messageType sequenceNumber
                               (Z.of_nat (length payloadBuffer))) ;;
      encryptedData <- encrypt (string_of_list_byte payloadBuffer) encryptionKey None ;;
      let encryptedPayload := hex_decode (encrypted encryptedData) in
      let messageBody := iv encryptedData ++ encryptedPayload ++ tag encryptedData in
      let hmacData := header ++ messageBody in
      hmac <- generateHMAC hmacData hmacKey ;;
      ret (header ++ messageBody ++ hmac)
  end.

(** The five slices of [parseMessage], and the bytes the HMAC covers. *)
Record MessageParts := mkParts {
  part_header : bytes;
  part_iv : bytes;
  part_encryptedPayload : bytes;
  part_tag : bytes;
  part_hmac : bytes;
  part_hmacData : bytes
  }.

Definition split_message (messageBuffer : bytes) : MessageParts :=
  mkParts (slice messageBuffer 0 (Some 14))
          (slice messageBuffer 14 (Some 26))
          (slice messageBuffer 26 (Some (-48)))
          (slice messageBuffer (-48) (Some (-32)))
          (slice messageBuffer (-32) None)
          (slice messageBuffer 0 (Some (-32))).

Definition parseMessage (messageBuffer encryptionKey hmacKey : bytes)
  : SE Env (Header.t * JSValue) :=
  if (length messageBuffer <? 14 + 12 + 16 + 32)%nat
  then throw (Error "Message too short")
  else
    let p := split_message messageBuffer in
    ok <- verifyHMAC (part_hmacData p) hmacKey (part_hmac p) ;;
    if negb ok then throw (Error "HMAC verification failed")
    else
      headerInfo <- lift_result (parseMessageHeader (part_header p)) ;;
      decryptedPayload <- decrypt (hex_encode (part_encryptedPayload p))
                                  encryptionKey (part_iv p) (part_tag p) ;;
      match JSON_parse decryptedPayload with
      | None => throw (SyntaxError "Unexpected token in JSON")
      | Some payload => ret (headerInfo, payload)
      end.
End Crypto.

(** ** protocol.js: the connection object and its surroundings *)

Module PROTOCOL_STATES.
Inductive t := DISCONNECTED | HANDSHAKE_INIT | HANDSHAKE_RESPONSE | CONNECTED | CLOSED.
Definition eqb (a b : t) : bool :=
  match a, b with
  | DISCONNECTED, DISCONNECTED | HANDSHAKE_INIT, HANDSHAKE_INIT
  | HANDSHAKE_RESPONSE, HANDSHAKE_RESPONSE | CONNECTED, CONNECTED
  | CLOSED, CLOSED => true
  | _, _ => false
  end.
End PROTOCOL_STATES.

Module PROTOCOL_ERRORS.
Definition INVALID_STATE := "Invalid protocol state".
Definition INVALID_MESSAGE := "Invalid message format".
Definition AUTHENTICATION_FAILED := "Authentication failed".
Definition TIMEOUT := "Protocol timeout".
Definition CONNECTION_CLOSED := "Connection closed".
End PROTOCOL_ERRORS.

Module Options.
Record t := mk { timeout : Z; maxRetries : Z; autoReconnect : bool }.
End Options.

(** The object [connect()] builds: [send] is [_sendData] and [close] is
    [_closeConnection] of the protocol object that owns it. *)
Record Connection := mkConnection { address : string; port : Z }.

(** [{ resolve, reject, timeout }]: the promise the two functions settle and
    the timer. *)
Record Waiter := mkWaiter { promise : nat; timeout : nat }.

Record Protocol := mkProtocol {
  options : Options.t;
  state : PROTOCOL_STATES.t;
  sequenceNumber : Z;
  remoteSequenceNumber : Z;
  sessionKeys : option SessionKeys;
  keyPair : option KeyPair;
  remotePublicKey : JSValue;
  connection : option Connection;
  messageQueue : list Waiter;
  pendingRequests : gmap Z Waiter;
  timeoutId : option nat;
  (* the four handler slots: is a function installed? *)
  onMessage : bool;
  onConnect : bool;
  onDisconnect : bool;
  onError : bool
}.

(** What a timer does when it fires. *)
Inductive TimerCallback :=
| AckTimeoutCallback (p : nat)         (* armed by send() *)
| ReceiveTimeoutCallback (p : nat)     (* armed by receive() *)
| ProtocolTimeoutCallback              (* armed by _startTimeout() *)
| SimulateResponseCallback (requestData : bytes). (* armed by _sendData() *)

Record Timer := mkTimer { callback : TimerCallback; delay : Z }.

Inductive PromiseState :=
| Pending
| Fulfilled (value : JSValue)
| Rejected (reason : JSError).

(** What the outside observes, oldest first. *)
Inductive Event :=
| MessageEvent (payload : JSValue)     (* this.onMessage(payload) *)
| ConnectEvent                         (* this.onConnect(connection) *)
| DisconnectEvent                      (* this.onDisconnect() *)
| ErrorEvent (error : JSError)         (* this.onError(error) *)
| SendingData (data : bytes)           (* console.log('Sending data:', ...) *)
| ConsoleError (error : JSError)       (* console.error('Protocol error:', ...) *)
| UnhandledRejection (error : JSError).

Record World := mkWorld {
  this : Protocol;
  env : Env;
  clock : Z;                       (* the value of Date.now() *)
  timers : gmap nat Timer;         (* the armed timers *)
  next_timer : nat;
  promises : gmap nat PromiseState;
  next_promise : nat;
  events : list Event
}.

Abbreviation M := (SE World).

(** *** Field updates *)

Definition with_this (f : Protocol -> Protocol) (w : World) : World :=
  mkWorld (f (this w)) (env w) (clock w) (timers w) (next_timer w)
          (promises w) (next_promise w) (events w).
Definition with_env (f : Env -> Env) (w : World) : World :=
  mkWorld (this w) (f (env w)) (clock w) (timers w) (next_timer w)
          (promises w) (next_promise w) (events w).
Definition with_timers (f : gmap nat Timer -> gmap nat Timer) (w : World) : World :=
  mkWorld (this w) (env w) (clock w) (f (timers w)) (next_timer w)
          (promises w) (next_promise w) (events w).
Definition with_promises (f : gmap nat PromiseState -> gmap nat PromiseState)
    (w : World) : World :=
  mkWorld (this w) (env w) (clock w) (timers w) (next_timer w)
          (f (promises w)) (next_promise w) (events w).
Definition with_events (f : list Event -> list Event) (w : World) : World :=
  mkWorld (this w) (env w) (clock w) (timers w) (next_timer w)
          (promises w) (next_promise w) (f (events w)).

Definition put_state (v : PROTOCOL_STATES.t) (p : Protocol) : Protocol :=
  mkProtocol (options p) v (sequenceNumber p) (remoteSequenceNumber p)
    (sessionKeys p) (keyPair p) (remotePublicKey p) (connection p)
    (messageQueue p) (pendingRequests p) (timeoutId p)
    (onMessage p) (onConnect p) (onDisconnect p) (onError p).
Definition put_sequenceNumber (v : Z) (p : Protocol) : Protocol :=
  mkProtocol (options p) (state p) v (remoteSequenceNumber p)
    (sessionKeys p) (keyPair p) (remotePublicKey p) (connection p)
    (messageQueue p) (pendingRequests p) (timeoutId p)
    (onMessage p) (onConnect p) (onDisconnect p) (onError p).
Definition put_remoteSequenceNumber (v : Z) (p : Protocol) : Protocol :=
  mkProtocol (options p) (state p) (sequenceNumber p) v
    (sessionKeys p) (keyPair p) (remotePublicKey p) (connection p)
    (messageQueue p) (pendingRequests p) (timeoutId p)
    (onMessage p) (onConnect p) (onDisconnect p) (onError p).
Definition put_sessionKeys (v : option SessionKeys) (p : Protocol) : Protocol :=
  mkProtocol (options p) (state p) (sequenceNumber p) (remoteSequenceNumber p)
    v (keyPair p) (remotePublicKey p) (connection p)
    (messageQueue p) (pendingRequests p) (timeoutId p)
    (onMessage p) (onConnect p) (onDisconnect p) (onError p).
Definition put_keyPair (v : option KeyPair) (p : Protocol) : Protocol :=
  mkProtocol (options p) (state p) (sequenceNumber p) (remoteSequenceNumber p)
    (sessionKeys p) v (remotePublicKey p) (connection p)
    (messageQueue p) (pendingRequests p) (timeoutId p)
    (onMessage p) (onConnect p) (onDisconnect p) (onError p).
Definition put_remotePublicKey (v : JSValue) (p : Protocol) : Protocol :=
  mkProtocol (options p) (state p) (sequenceNumber p) (remoteSequenceNumber p)
    (sessionKeys p) (keyPair p) v (connection p)
    (messageQueue p) (pendingRequests p) (timeoutId p)
    (onMessage p) (onConnect p) (onDisconnect p) (onError p).
Definition put_connection (v : option Connection) (p : Protocol) : Protocol :=
  mkProtocol (options p) (state p) (sequenceNumber p) (remoteSequenceNumber p)
    (sessionKeys p) (keyPair p) (remotePublicKey p) v
    (messageQueue p) (pendingRequests p) (timeoutId p)
    (onMessage p) (onConnect p) (onDisconnect p) (onError p).
Definition put_messageQueue (v : list Waiter) (p : Protocol) : Protocol :=
  mkProtocol (options p) (state p) (sequenceNumber p) (remoteSequenceNumber p)
    (sessionKeys p) (keyPair p) (remotePublicKey p) (connection p)
    v (pendingRequests p) (timeoutId p)
    (onMessage p) (onConnect p) (onDisconnect p) (onError p).
Definition put_pendingRequests (v : gmap Z Waiter) (p : Protocol) : Protocol :=
  mkProtocol (options p) (state p) (sequenceNumber p) (remoteSequenceNumber p)
    (sessionKeys p) (keyPair p) (remotePublicKey p) (connection p)
    (messageQueue p) v (timeoutId p)
    (onMessage p) (onConnect p) (onDisconnect p) (onError p).
Definition put_timeoutId (v : option nat) (p : Protocol) : Protocol :=
  mkProtocol (options p) (state p) (sequenceNumber p) (remoteSequenceNumber p)
    (sessionKeys p) (keyPair p) (remotePublicKey p) (connection p)
    (messageQueue p) (pendingRequests p) v
    (onMessage p) (onConnect p) (onDisconnect p) (onError p).

(** [this.field = v] and [this.field] *)
Definition assign (f : Protocol -> Protocol) : M unit := modify (with_this f).
Definition read {A} (f : Protocol -> A) : M A := gets (fun w => f (this w)).

(** Run a codec computation on the world's environment. *)
Definition liftE {A} (c : SE Env A) : M A :=
  fun w => let (r, e) := c (env w) in (r, with_env (fun _ => e) w).

(** *** Timers, promises, notifications *)

Definition setTimeout (cb : TimerCallback) (delay : Z) : M nat :=
  fun w =>
    let id := next_timer w in
    (Normal id,
     mkWorld (this w) (env w) (clock w) (<[id := mkTimer cb delay]> (timers w))
             (S id) (promises w) (next_promise w) (events w)).

Definition clearTimeout (id : nat) : M unit := modify (with_timers (delete id)).

Definition new_Promise : M nat :=
  fun w =>
    let p := next_promise w in
    (Normal p,
     mkWorld (this w) (env w) (clock w) (timers w) (next_timer w)
             (<[p := Pending]> (promises w)) (S p) (events w)).

(** A promise settles once: [resolve] and [reject] on a settled promise do
    nothing. *)
Definition settle (p : nat) (s : PromiseState) : M unit :=
  modify (with_promises (fun ps =>
    match ps !! p with
    | Some Pending => <[p := s]> ps
    | _ => ps
    end)).
Definition resolve (p : nat) (v : JSValue) : M unit := settle p (Fulfilled v).
Definition reject (p : nat) (e : JSError) : M unit := settle p (Rejected e).

Definition emit (ev : Event) : M unit := modify (with_events (fun l => l ++ [ev])).
Definition Date_now : M Z := gets clock.

(** [this.sequenceNumber++] and [this.sequenceNumber - 1], on Numbers. *)
Definition Number_succ (x : Z) : Z := Number_of_BigInt (x + 1).
Definition Number_pred (x : Z) : Z := Number_of_BigInt (x - 1).

Definition post_increment_sequenceNumber : M Z :=
  n <- read sequenceNumber ;;
  assign (put_sequenceNumber (Number_succ n)) ;;;
  ret n.

(** [this.sessionKeys.encryptionKey]: a TypeError while [sessionKeys] is null *)
Definition read_sessionKeys : M SessionKeys :=
  k <- read sessionKeys ;;
  match k with
  | Some keys => ret keys
  | None => throw (TypeError "Cannot read properties of null (reading 'encryptionKey')")
  end.

Definition read_keyPair : M KeyPair :=
  k <- read keyPair ;;
  match k with
  | Some kp => ret kp
  | None => throw (TypeError "Cannot read properties of null (reading 'publicKey')")
  end.

(** [constructor(options = {})]: a missing option takes its default. *)
Definition constructor (timeout maxRetries : option Z) (autoReconnect : option bool)
  : Protocol :=
  mkProtocol
    (Options.mk (default 30000 timeout) (default 3 maxRetries)
                (default false autoReconnect))
    PROTOCOL_STATES.DISCONNECTED 0 0 None None JNull None [] ∅ None
    false false false false.

(** *** The methods of [SecureCommunicationProtocol]

    Each [async] method runs to completion: every [await] in the source
    awaits a promise that is already settled, and callers await the promise
    they get, as the README's usage does.  [send] is given in its two parts
    as well, before and after its [await]: the second part reads
    [sequenceNumber] again, so what it does depends on the calls made before
    it is resumed.  A method that can reach
    [_closeConnection] takes [stack], the number of nested calls the engine's
    call stack still admits below it. *)

Section Methods.
Context {R : NodeRuntime}.

Definition _clearTimeout : M unit :=
  t <- read timeoutId ;;
  match t with
  | Some id => clearTimeout id ;;; assign (put_timeoutId None)
  | None => ret tt
  end.

Definition _startTimeout : M unit :=
  _clearTimeout ;;;
  o <- read options ;;
  id <- setTimeout ProtocolTimeoutCallback (Options.timeout o) ;;
  assign (put_timeoutId (Some id)).

(** Mock transport: logs, and schedules [_simulateResponse] 100 ms later. *)
Definition _sendData (data : bytes) : M unit :=
  emit (SendingData data) ;;;
  _ <- setTimeout (SimulateResponseCallback data) 100 ;;
  ret tt.

Definition _sendProtocolMessage (message : bytes) : M unit :=
  c <- read connection ;;
  match c with
  | Some _ => _sendData message
  | None => throw (Error "No connection available")
  end.

(** [this.connection.close()] is [() => this._closeConnection()], called
    while [this.connection] is still set: the method re-enters itself until
    the call stack is exhausted.  The innermost call then fails with a
    RangeError, which rejects a promise nobody awaits; every frame above it
    carries on. *)
Fixpoint _closeConnection (stack : nat) : M unit :=
  assign (put_state PROTOCOL_STATES.CLOSED) ;;;
  _clearTimeout ;;;
  c <- read connection ;;
  match c with
  | Some _ =>
      match stack with
      | O => emit (UnhandledRejection (RangeError "Maximum call stack size exceeded"))
      | S stack' => _closeConnection stack'
      end ;;;
      assign (put_connection None)
  | None => ret tt
  end ;;;
  h <- read onDisconnect ;;
  if h then emit DisconnectEvent else ret tt.

Definition _handleError (stack : nat) (error : JSError) : M unit :=
  emit (ConsoleError error) ;;;
  h <- read onError ;;
  (if h then emit (ErrorEvent error) else ret tt) ;;;
  s <- read state ;;
  if PROTOCOL_STATES.eqb s PROTOCOL_STATES.CLOSED then ret tt
  else _closeConnection stack.

Definition initialize : M KeyPair :=
  kp <- liftE generateKeyPair ;;
  assign (put_keyPair (Some kp)) ;;;
  assign (put_sequenceNumber 0) ;;;
  assign (put_remoteSequenceNumber 0) ;;;
  assign (put_state PROTOCOL_STATES.HANDSHAKE_INIT) ;;;
  ret kp.

Definition _startHandshake : M unit :=
  kp <- read_keyPair ;;
  now <- Date_now ;;
  let handshakeData :=
    JObject [("type", JString "handshake_init");
             ("publicKey", JKeyObject (publicKey kp));
             ("supportedVersions", JArray [JNumber 1]);
             ("timestamp", JNumber now)] in
  tempKey <- liftE (randomBytes 32) ;;
  seq <- post_increment_sequenceNumber ;;
  handshakeMessage <- liftE (createMessage MESSAGE_TYPES.HANDSHAKE_INIT seq
                               handshakeData tempKey tempKey) ;;
  _sendProtocolMessage handshakeMessage.

Definition connect (stack : nat) (remoteAddress : string) (remotePort : Z)
    (keyPair_arg : option KeyPair) : M bool :=
  match keyPair_arg with
  | Some kp => assign (put_keyPair (Some kp))
  | None =>
      k <- read keyPair ;;
      match k with
      | None => _ <- initialize ;; ret tt
      | Some _ => ret tt
      end
  end ;;;
  assign (put_state PROTOCOL_STATES.HANDSHAKE_INIT) ;;;
  try_catch
    (assign (put_connection (Some (mkConnection remoteAddress remotePort))) ;;;
     _startHandshake ;;;
     assign (put_state PROTOCOL_STATES.CONNECTED) ;;;
     _startTimeout ;;;
     h <- read onConnect ;;
     (if h then emit ConnectEvent else ret tt) ;;;
     ret true)
    (fun error => _handleError stack error ;;; ret false).

(** [send] suspends once, at [await this._sendProtocolMessage(...)]. Up to
    there it runs within the call: the state check, the frame under
    [this.sequenceNumber++], the hand-over to the transport. A [Throw] in this
    part is the rejection of the promise [send] itself returns. *)
Definition send_request (message : JSValue) : M unit :=
  s <- read state ;;
  if negb (PROTOCOL_STATES.eqb s PROTOCOL_STATES.CONNECTED)
  then throw (Error PROTOCOL_ERRORS.INVALID_STATE)
  else
    now <- Date_now ;;
    let messageData :=
      JObject [("type", JString "data"); ("payload", message);
               ("timestamp", JNumber now)] in
    seq <- post_increment_sequenceNumber ;;
    keys <- read_sessionKeys ;;
    protocolMessage <- liftE (createMessage MESSAGE_TYPES.DATA seq messageData
                                (encryptionKey keys) (hmacKey keys)) ;;
    _sendProtocolMessage protocolMessage.

(** What runs when [send] is resumed after the [await]: the promise the caller
    waits on, its timer, and the entry of [pendingRequests], whose key is
    [this.sequenceNumber - 1] with the field read at that moment. Whatever has
    run on the object since the first part has had its effect by then. *)
Definition send_register : M nat :=
  p <- new_Promise ;;
  o <- read options ;;
  t <- setTimeout (AckTimeoutCallback p) (Options.timeout o) ;;
  n <- read sequenceNumber ;;
  reqs <- read pendingRequests ;;
  assign (put_pendingRequests (<[Number_pred n := mkWaiter p t]> reqs)) ;;;
  ret p.

(** A send() that is resumed before anything else runs on the object, as when
    the caller awaits it: the two parts, one right after the other. The result
    is the promise the caller waits on. *)
Definition send (message : JSValue) : M nat :=
  send_request message ;;; send_register.

Definition receive : M nat :=
  p <- new_Promise ;;
  o <- read options ;;
  t <- setTimeout (ReceiveTimeoutCallback p) (Options.timeout o) ;;
  q <- read messageQueue ;;
  assign (put_messageQueue (q ++ [mkWaiter p t])) ;;;
  ret p.

Definition close (stack : nat) : M unit :=
  s <- read state ;;
  if PROTOCOL_STATES.eqb s PROTOCOL_STATES.CLOSED then ret tt
  else
    try_catch
      (seq <- post_increment_sequenceNumber ;;
       keys <- read_sessionKeys ;;
       closeMessage <- liftE (createMessage MESSAGE_TYPES.CLOSE seq
                                (JObject [("reason", JString "Client disconnect")])
                                (encryptionKey keys) (hmacKey keys)) ;;
       _sendProtocolMessage closeMessage ;;;
       _closeConnection stack)
      (fun _ => _closeConnection stack).

Definition _handleHandshakeResponse (messageData : JSValue) : M unit :=
  pk <- lift_result (get_prop messageData "publicKey") ;;
  assign (put_remotePublicKey pk) ;;;
  kp <- read_keyPair ;;
  sharedSecret <- liftE (deriveSharedSecret (privateKey kp) pk) ;;
  keys <- liftE (deriveKeys sharedSecret None None) ;;
  assign (put_sessionKeys (Some keys)) ;;;
  now <- Date_now ;;
  let ackData :=
    JObject [("type", JString "handshake_ack"); ("status", JString "success");
             ("timestamp", JNumber now)] in
  seq <- post_increment_sequenceNumber ;;
  keys <- read_sessionKeys ;;
  ackMessage <- liftE (createMessage MESSAGE_TYPES.ACK seq ackData
                         (encryptionKey keys) (hmacKey keys)) ;;
  _sendProtocolMessage ackMessage ;;;
  assign (put_state PROTOCOL_STATES.CONNECTED) ;;;
  _startTimeout.

Definition _handleDataMessage (messageData : JSValue) : M unit :=
  h <- read onMessage ;;
  (if h then
     payload <- lift_result (get_prop messageData "payload") ;;
     emit (MessageEvent payload)
   else ret tt) ;;;
  acked <- lift_result (get_prop messageData "sequenceNumber") ;;
  now <- Date_now ;;
  let ackData :=
    JObject [("type", JString "ack"); ("sequenceNumber", acked);
             ("timestamp", JNumber now)] in
  seq <- post_increment_sequenceNumber ;;
  keys <- read_sessionKeys ;;
  ackMessage <- liftE (createMessage MESSAGE_TYPES.ACK seq ackData
                         (encryptionKey keys) (hmacKey keys)) ;;
  _sendProtocolMessage ackMessage ;;;
  q <- read messageQueue ;;
  match q with
  | pending :: rest =>
      assign (put_messageQueue rest) ;;;
      clearTimeout (timeout pending) ;;;
      payload <- lift_result (get_prop messageData "payload") ;;
      resolve (promise pending) payload
  | [] => ret tt
  end.

(** The keys of [pendingRequests] are Numbers: any other value finds
    nothing. *)
Definition _handleAcknowledgment (messageData : JSValue) : M unit :=
  key <- lift_result (get_prop messageData "sequenceNumber") ;;
  reqs <- read pendingRequests ;;
  match key with
  | JNumber n =>
      match reqs !! n with
      | Some request =>
          clearTimeout (timeout request) ;;;
          assign (put_pendingRequests (delete n reqs)) ;;;
          resolve (promise request) messageData
      | None => ret tt
      end
  | _ => ret tt
  end.

Definition _handleClose (stack : nat) (messageData : JSValue) : M unit :=
  _closeConnection stack.

Definition _processMessage (stack : nat) (messageBuffer : bytes) : M unit :=
  try_catch
    (keys <- read_sessionKeys ;;
     parsed <- liftE (parseMessage messageBuffer (encryptionKey keys) (hmacKey keys)) ;;
     let header := fst parsed in
     let payload := snd parsed in
     remote <- read remoteSequenceNumber ;;
     if Header.sequenceNumber header <=? remote
     then throw (Error "Invalid sequence number")
     else
       assign (put_remoteSequenceNumber (Header.sequenceNumber header)) ;;;
       let ty := Header.messageType header in
       if ty =? MESSAGE_TYPES.HANDSHAKE_RESPONSE then _handleHandshakeResponse payload
       else if ty =? MESSAGE_TYPES.DATA then _handleDataMessage payload
       else if ty =? MESSAGE_TYPES.ACK then _handleAcknowledgment payload
       else if ty =? MESSAGE_TYPES.CLOSE then _handleClose stack payload
       else throw (Error "Unknown message type"))
    (fun error => _handleError stack error).

Definition _simulateResponse (stack : nat) (requestData : bytes) : M unit :=
  let mockResponse := list_byte_of_string "Mock response data" in
  _processMessage stack mockResponse.

(** The callbacks handed to [setTimeout], run when timer [id] fires. *)
Definition timer_fires (stack : nat) (id : nat) : M unit :=
  ts <- gets timers ;;
  match ts !! id with
  | None => ret tt
  | Some t =>
      clearTimeout id ;;;
      match callback t with
      | AckTimeoutCallback p =>
          n <- read sequenceNumber ;;
          reqs <- read pendingRequests ;;
          assign (put_pendingRequests (delete (Number_pred n) reqs)) ;;;
          reject p (Error "Message acknowledgment timeout")
      | ReceiveTimeoutCallback p =>
          reject p (Error "Receive timeout")
      | ProtocolTimeoutCallback =>
          _handleError stack (Error PROTOCOL_ERRORS.TIMEOUT)
      | SimulateResponseCallback requestData =>
          _simulateResponse stack requestData
      end
  end.

(** What can happen to a connection object, one event at a time.  [CallSend]
    is a send() that is resumed before the next event. *)
Inductive Op :=
  | CallInitialize
  | CallConnect (remoteAddress : string) (remotePort : Z) (keyPair_arg : option KeyPair)
  | CallSend (message : JSValue)
  | CallReceive
  | CallClose
  | Inbound (messageBuffer : bytes)
  | TimerFires (id : nat).

Definition step (stack : nat) (op : Op) (w : World) : World :=
  match op with
  | CallInitialize => snd (initialize w)
  | CallConnect a p k => snd (connect stack a p k w)
  | CallSend m => snd (send m w)
  | CallReceive => snd (receive w)
  | CallClose => snd (close stack w)
  | Inbound b => snd (_processMessage stack b w)
  | TimerFires id => snd (timer_fires stack id w)
  end.

Definition run (stack : nat) (ops : list Op) (w : World) : World :=
  fold_left (fun w op => step stack op w) ops w.
End Methods.

(** How often [onDisconnect] has been called. *)
Fixpoint disconnects (l : list Event) : nat :=
  match l with
  | [] => O
  | DisconnectEvent :: rest => S (disconnects rest)
  | _ :: rest => disconnects rest
  end.

(** ** A reference runtime

    A small executable instance of [NodeRuntime]: it shows that
    [NodeRuntimeLaws] can be met, and it lets the protocol be run on concrete
    inputs.  Its cipher and MAC are stand-ins with the right shapes (a
    ciphertext as long as the plaintext, a 16-byte tag that is checked, a
    32-byte MAC); nothing proved for every runtime depends on them. *)

Module ReferenceRuntime.

Definition checksum (data : bytes) : byte :=
  default x00
    (Byte.of_N (fold_left (fun a x => (a + Byte.to_N x) mod 256)%N data 0%N)).

Definition mac (key data : bytes) : bytes := repeat (checksum (key ++ data)) 32.

Definition seal_tag (key iv ciphertext : bytes) : bytes :=
  repeat (checksum (key ++ iv ++ ciphertext)) 16.

Definition seal (key iv plaintext : bytes) : option (bytes * bytes) :=
  if (length key =? 32)%nat && (length iv =? 12)%nat
  then Some (rev plaintext, seal_tag key iv (rev plaintext))
  else None.

Definition open (key iv tag ciphertext : bytes) : option bytes :=
  if (length key =? 32)%nat && (length iv =? 12)%nat
     && bool_decide (tag = seal_tag key iv ciphertext)
  then Some (rev ciphertext)
  else None.

Definition kdf (ikm salt info : bytes) (len : nat) : bytes :=
  repeat (checksum (ikm ++ salt ++ info)) len.

(** JSON text for the values of [JSValue]: [undefined] has none, a property
    whose value is [undefined] is left out, a key object prints as [{}]. *)
Definition digits (n : Z) : string :=
  DecimalString.NilZero.string_of_int (Z.to_int n).

Definition dquote : ascii := ascii_of_nat 34.

Definition quote (s : string) : string :=
  String dquote (s ++ String dquote EmptyString)%string.

Fixpoint join (sep : string) (l : list string) : string :=
  match l with
  | [] => EmptyString
  | [x] => x
  | x :: rest => (x ++ sep ++ join sep rest)%string
  end.

Fixpoint text (v : JSValue) : option string :=
  match v with
  | JUndefined => None
  | JNull => Some "null"
  | JBool true => Some "true"
  | JBool false => Some "false"
  | JNumber n => Some (digits n)
  | JString s => Some (quote s)
  | JKeyObject _ => Some "{}"
  | JArray items =>
      Some ("[" ++ join "," (map (fun i => default "null" (text i)) items) ++ "]")%string
  | JObject fields =>
      Some ("{" ++ join ","
              (omap (fun kv => match text (snd kv) with
                               | Some t => Some (quote (fst kv) ++ ":" ++ t)%string
                               | None => None
                               end) fields) ++ "}")%string
  end.

(** A reader for that text (no escapes, no white space). *)
Fixpoint read_quoted (s : string) : option (string * string) :=
  match s with
  | EmptyString => None
  | String c rest =>
      if Ascii.eqb c dquote then Some (EmptyString, rest)
      else match read_quoted rest with
           | Some (str, r) => Some (String c str, r)
           | None => None
           end
  end.

Definition is_digit (c : ascii) : bool :=
  let n := N_of_ascii c in ((48 <=? n) && (n <=? 57))%N || Ascii.eqb c "-"%char.

Fixpoint read_digits (s : string) : string * string :=
  match s with
  | String c rest =>
      if is_digit c then let (d, r) := read_digits rest in (String c d, r)
      else (EmptyString, s)
  | EmptyString => (EmptyString, EmptyString)
  end.

Section Sequences.
Variable read_value : string -> option (JSValue * string).

Fixpoint read_items (fuel : nat) (s : string) : option (list JSValue * string) :=
    match fuel with
    | O => None
    | S fuel' =>
        match read_value s with
        | Some (v, String "," rest) =>
            match read_items fuel' rest with
            | Some (vs, r) => Some (v :: vs, r)
            | None => None
            end
        | Some (v, String "]" rest) => Some ([v], rest)
        | _ => None
        end
    end.

Fixpoint read_fields (fuel : nat) (s : string)
    : option (list (string * JSValue) * string) :=
    match fuel with
    | O => None
    | S fuel' =>
        match s with
        | String c rest =>
            if Ascii.eqb c dquote then
              match read_quoted rest with
              | Some (k, String ":" rest') =>
                  match read_value rest' with
                  | Some (v, String "," r) =>
                      match read_fields fuel' r with
                      | Some (kvs, r') => Some ((k, v) :: kvs, r')
                      | None => None
                      end
                  | Some (v, String "}" r) => Some ([(k, v)], r)
                  | _ => None
                  end
              | _ => None
              end
            else None
        | EmptyString => None
        end
    end.
End Sequences.

Fixpoint read_value (fuel : nat) (s : string) : option (JSValue * string) :=
  match fuel with
  | O => None
  | S fuel' =>
      match s with
      | String "n" (String "u" (String "l" (String "l" rest))) => Some (JNull, rest)
      | String "t" (String "r" (String "u" (String "e" rest))) => Some (JBool true, rest)
      | String "f" (String "a" (String "l" (String "s" (String "e" rest)))) =>
          Some (JBool false, rest)
      | String "[" (String "]" rest) => Some (JArray [], rest)
      | String "[" rest =>
          match read_items (read_value fuel') (String.length s) rest with
          | Some (vs, r) => Some (JArray vs, r)
          | None => None
          end
      | String "{" (String "}" rest) => Some (JObject [], rest)
      | String "{" rest =>
          match read_fields (read_value fuel') (String.length s) rest with
          | Some (kvs, r) => Some (JObject kvs, r)
          | None => None
          end
      | String c rest =>
          if Ascii.eqb c dquote then
            match read_quoted rest with
            | Some (str, r) => Some (JString str, r)
            | None => None
            end
          else
            let (d, r) := read_digits s in
            match DecimalString.NilZero.int_of_string d with
            | Some i => Some (JNumber (Z.of_int i), r)
            | None => None
            end
      | EmptyString => None
      end
  end.

Definition parse (s : string) : option JSValue :=
  match read_value (String.length s) s with
  | Some (v, EmptyString) => Some v
  | _ => None
  end.

#[global] Instance runtime : NodeRuntime := {
  JSON_stringify := text;
  JSON_parse := parse;
  hmac_sha256 := mac;
  aes_256_gcm_encrypt := seal;
  aes_256_gcm_decrypt := open;
  hkdf_sha256 := kdf;
  x25519_public := fun sk => repeat (checksum sk) 32;
  x25519 := fun sk pk => repeat (checksum [checksum sk; checksum pk]) 32
  }.

(** Concrete inputs. *)
Definition key_a : bytes := repeat x2a 32.
Definition key_b : bytes := repeat x17 32.
Definition env0 : Env := mkEnv (fun n => default x00 (Byte.of_nat (n mod 256))) 0 [].
Definition test_payload : JSValue :=
  JObject [("type", JString "test"); ("data", JString "Hello, protocol!")].

(** A fresh object: [new SecureCommunicationProtocol()] with its handler
    slots filled or not. *)
Definition fresh (handlers : bool) : World :=
  let p := constructor None None None in
  mkWorld
    (mkProtocol (options p) (state p) (sequenceNumber p) (remoteSequenceNumber p)
       (sessionKeys p) (keyPair p) (remotePublicKey p) (connection p)
       (messageQueue p) (pendingRequests p) (timeoutId p)
       handlers handlers handlers handlers)
    env0 1700000000000 ∅ 0 ∅ 0 [].

(** The frame [createMessage] builds under the session keys. *)
Definition frame (messageType sequenceNumber : Z) (payload : JSValue) : bytes :=
  match fst (createMessage messageType sequenceNumber payload key_a key_b env0) with
  | Normal f => f
  | Throw _ => []
  end.

(** An object after [connect('host', 4433)], and the same with session keys
    installed from outside, the only way they get there before a first frame
    has been accepted. *)
Definition connected (stack : nat) : World :=
  snd (connect stack "host" 4433 None (fresh true)).

Definition with_session (w : World) : World :=
  with_this (put_sessionKeys (Some (mkSessionKeys key_a key_b))) w.
End ReferenceRuntime.

(** ** The vocabulary of the properties *)

(** The environment after further library calls. *)
Definition logged (e : Env) (calls : list CryptoCall) : Env :=
  mkEnv (entropy e) (cursor e) (crypto_calls e ++ calls).

(** A payload is JSON-serializable when [JSON.stringify] gives a text that
    [JSON.parse] reads back as the same value. *)
Definition JSON_serializable {R : NodeRuntime} (payload : JSValue) (json : string) : Prop :=
  JSON_stringify payload = Some json /\ JSON_parse json = Some payload.

(** [inv I m]: running [m] from a world in [I] ends in a world in [I],
    whether [m] returns or throws. *)
Definition inv {A} (I : World -> Prop) (m : M A) : Prop :=
  forall w, I w -> I (snd (m w)).

(** [throws I m]: from a world in [I], [m] throws and stays in [I]. *)
Definition throws {A} (I : World -> Prop) (m : M A) : Prop :=
  forall w, I w -> I (snd (m w)) /\ exists e, fst (m w) = Throw e.

(** The events one run of [_closeConnection] adds: those of the nested calls
    made through [this.connection.close()], then its own notification. *)
Fixpoint nested_close_events (stack : nat) (notify : bool) : list Event :=
  match stack with
  | O => [UnhandledRejection (RangeError "Maximum call stack size exceeded")]
  | S stack' =>
      nested_close_events stack' notify ++ (if notify then [DisconnectEvent] else [])
  end.

Definition close_events (stack : nat) (connected notify : bool) : list Event :=
  (if connected then nested_close_events stack notify else []) ++
  (if notify then [DisconnectEvent] else []).

(** The world [_closeConnection] leaves behind. *)
Definition closed_world (stack : nat) (w : World) : World :=
  mkWorld
    (put_connection None
       (put_timeoutId None (put_state PROTOCOL_STATES.CLOSED (this w))))
    (env w) (clock w)
    (match timeoutId (this w) with
     | Some id => delete id (timers w)
     | None => timers w
     end)
    (next_timer w) (promises w) (next_promise w)
    (events w ++
     close_events stack
       (match connection (this w) with Some _ => true | None => false end)
       (onDisconnect (this w))).

(** The facts about a world that the methods are shown to preserve. *)
Definition remote_is (r : Z) (w : World) : Prop := remoteSequenceNumber (this w) = r.
Definition has_keyPair (w : World) : Prop := keyPair (this w) <> None.
Definition state_is (s : PROTOCOL_STATES.t) (w : World) : Prop := state (this w) = s.
(** Closed and torn down: what [_closeConnection] establishes. *)
Definition torn_down (w : World) : Prop :=
  state (this w) = PROTOCOL_STATES.CLOSED /\ connection (this w) = None.

(** The sequence number [_processMessage] accepts from a buffer, if any: the
    buffer parses under the session keys and its sequence number is above
    [remoteSequenceNumber]. *)
Definition accepted {R : NodeRuntime} (w : World) (b : bytes) : option Z :=
  match sessionKeys (this w) with
  | None => None
  | Some keys =>
      match fst (parseMessage b (encryptionKey keys) (hmacKey keys) (env w)) with
      | Normal (header, _) =>
          if Header.sequenceNumber header <=? remoteSequenceNumber (this w)
          then None
          else Some (Header.sequenceNumber header)
      | Throw _ => None
      end
  end.

(** The buffer an event hands to [_processMessage]: a delivered frame, or the
    mock response of the mock transport's timer. *)
Definition inbound_frame (op : Op) (w : World) : option bytes :=
  match op with
  | Inbound b => Some b
  | TimerFires id =>
      match timers w !! id with
      | Some (mkTimer (SimulateResponseCallback _) _) =>
          Some (list_byte_of_string "Mock response data")
      | _ => None
      end
  | _ => None
  end.

(** The sequence numbers accepted in the course of a run, in order. *)
Fixpoint accepted_numbers {R : NodeRuntime} (stack : nat) (ops : list Op) (w : World)
  : list Z :=
  match ops with
  | [] => []
  | op :: rest =>
      match inbound_frame op w with
      | Some b => match accepted w b with Some s => [s] | None => [] end
      | None => []
      end ++ accepted_numbers stack rest (step stack op w)
  end.


(** *** Further vocabulary *)

(** No session keys yet. *)
Definition no_sessionKeys (w : World) : Prop := sessionKeys (this w) = None.

(** What [_handleError] reports before it closes anything: the console line,
    then the error handler if one is installed. *)
Definition reported (error : JSError) (w : World) : World :=
  with_events
    (fun l => l ++ ConsoleError error ::
                   (if onError (this w) then [ErrorEvent error] else []))
    w.

(** The payloads the methods build. *)
Definition data_payload (message : JSValue) (now : Z) : JSValue :=
  JObject [("type", JString "data"); ("payload", message); ("timestamp", JNumber now)].

Definition close_payload : JSValue := JObject [("reason", JString "Client disconnect")].

Definition ack_payload (acked : JSValue) (now : Z) : JSValue :=
  JObject [("type", JString "ack"); ("sequenceNumber", acked); ("timestamp", JNumber now)].

Definition handshake_ack_payload (now : Z) : JSValue :=
  JObject [("type", JString "handshake_ack"); ("status", JString "success");
           ("timestamp", JNumber now)].

(** A promise after [resolve] or [reject]: settled if it was pending. *)
Definition settled (p : nat) (s : PromiseState) (ps : gmap nat PromiseState)
  : gmap nat PromiseState :=
  match ps !! p with
  | Some Pending => <[p := s]> ps
  | _ => ps
  end.

(** The outbound sequence number is at least [lo], and a safe integer. *)
Definition sequence_from (lo : Z) (w : World) : Prop :=
  lo <= sequenceNumber (this w) <= 2 ^ 53.

(** Every armed idle timer is the one [timeoutId] names. *)
Definition idle_timer_named (w : World) : Prop :=
  forall id d,
    timers w !! id = Some (mkTimer ProtocolTimeoutCallback d) ->
    timeoutId (this w) = Some id.

(** The idle timer [id], armed with delay [d], is the one [timeoutId] names. *)
Definition idle_deadline (id : nat) (d : Z) (w : World) : Prop :=
  timeoutId (this w) = Some id /\
  timers w !! id = Some (mkTimer ProtocolTimeoutCallback d) /\
  (id < next_timer w)%nat.

(** The calls that only send and wait. *)
Definition sends_or_receives (op : Op) : bool :=
  match op with
  | CallSend _ | CallReceive => true
  | _ => false
  end.

(** ** Facts about buffers *)

Lemma norm_index_front (len i : Z) : 0 <= i <= len -> norm_index len i = i.
Proof.
  intros H. unfold norm_index.
  destruct (i <? 0) eqn:E; [apply Z.ltb_lt in E; lia | lia].
Qed.

Lemma norm_index_back (len k : Z) : 0 < k <= len -> norm_index len (- k) = len - k.
Proof.
  intros H. unfold norm_index.
  destruct (- k <? 0) eqn:E; [lia | apply Z.ltb_ge in E; lia].
Qed.

Lemma slice_prefix (b : bytes) (n : nat) :
  (n <= length b)%nat -> slice b 0 (Some (Z.of_nat n)) = take n b.
Proof.
  intros Hn. unfold slice.
  rewrite !norm_index_front by lia.
  replace (Z.to_nat (Z.of_nat n - 0)) with n by lia. reflexivity.
Qed.

Lemma slice_range (b : bytes) (i j : nat) :
  (i <= j)%nat -> (j <= length b)%nat ->
  slice b (Z.of_nat i) (Some (Z.of_nat j)) = take (j - i) (drop i b).
Proof.
  intros Hij Hj. unfold slice.
  rewrite !norm_index_front by lia.
  replace (Z.to_nat (Z.of_nat j - Z.of_nat i)) with (j - i)%nat by lia.
  rewrite Nat2Z.id. reflexivity.
Qed.

Lemma slice_to_back (b : bytes) (i k : nat) :
  (0 < k)%nat -> (i + k <= length b)%nat ->
  slice b (Z.of_nat i) (Some (- Z.of_nat k)) = take (length b - k - i) (drop i b).
Proof.
  intros Hk Hik. unfold slice.
  rewrite (norm_index_front _ (Z.of_nat i)) by lia.
  rewrite (norm_index_back _ (Z.of_nat k)) by lia.
  replace (Z.to_nat (Z.of_nat (length b) - Z.of_nat k - Z.of_nat i))
    with (length b - k - i)%nat by lia.
  rewrite Nat2Z.id. reflexivity.
Qed.

Lemma slice_back_back (b : bytes) (k1 k2 : nat) :
  (0 < k2)%nat -> (k2 <= k1)%nat -> (k1 <= length b)%nat ->
  slice b (- Z.of_nat k1) (Some (- Z.of_nat k2)) =
  take (k1 - k2) (drop (length b - k1) b).
Proof.
  intros H2 H12 H1. unfold slice.
  rewrite !norm_index_back by lia.
  replace (Z.to_nat (Z.of_nat (length b) - Z.of_nat k2 -
                     (Z.of_nat (length b) - Z.of_nat k1)))
    with (k1 - k2)%nat by lia.
  replace (Z.to_nat (Z.of_nat (length b) - Z.of_nat k1))
    with (length b - k1)%nat by lia.
  reflexivity.
Qed.

Lemma slice_suffix (b : bytes) (k : nat) :
  (0 < k)%nat -> (k <= length b)%nat ->
  slice b (- Z.of_nat k) None = drop (length b - k) b.
Proof.
  intros Hk Hkb. unfold slice.
  rewrite norm_index_back by lia.
  replace (Z.to_nat (Z.of_nat (length b) - Z.of_nat k))
    with (length b - k)%nat by lia.
  apply take_ge. rewrite length_drop. lia.
Qed.

Lemma slice_from (b : bytes) (i : nat) :
  (i <= length b)%nat -> slice b (Z.of_nat i) None = drop i b.
Proof.
  intros Hi. unfold slice.
  rewrite norm_index_front by lia. rewrite Nat2Z.id.
  apply take_ge. rewrite length_drop. lia.
Qed.

Lemma be_bytes_length (n : nat) (v : Z) : length (be_bytes n v) = n.
Proof.
  revert v. induction n as [| n IH]; intros v; simpl; [reflexivity |].
  rewrite length_app, IH. simpl. lia.
Qed.

Lemma be_value_app (a b : bytes) :
  be_value (a ++ b) = be_value a * 256 ^ Z.of_nat (length b) + be_value b.
Proof.
  unfold be_value.
  rewrite fold_left_app.
  generalize (fold_left (fun acc x => acc * 256 + Z.of_N (Byte.to_N x)) a 0).
  induction b as [| x b IH] using rev_ind; intros acc.
  - simpl. lia.
  - rewrite !fold_left_app. simpl. rewrite IH.
    rewrite length_app. simpl.
    replace (Z.of_nat (length b + 1)) with (Z.of_nat (length b) + 1) by lia.
    rewrite Z.pow_add_r by lia. change (256 ^ 1) with 256.
    set (f := fold_left _ b 0). lia.
Qed.

Lemma byte_of_digit (d : Z) :
  0 <= d < 256 ->
  exists x, Byte.of_N (Z.to_N d) = Some x /\ Z.of_N (Byte.to_N x) = d.
Proof.
  intros Hd.
  destruct (Byte.of_N (Z.to_N d)) as [x |] eqn:E.
  - exists x. split; [reflexivity |].
    apply Byte.to_of_N in E. rewrite E. lia.
  - apply Byte.of_N_None_iff in E. lia.
Qed.

(** Reading back what was written: a [width]-byte field holds every value
    below [256 ^ width]. *)
Lemma be_value_be_bytes (n : nat) (v : Z) :
  0 <= v < 256 ^ Z.of_nat n -> be_value (be_bytes n v) = v.
Proof.
  revert v. induction n as [| n IH]; intros v Hv.
  - simpl in *. unfold be_value. simpl. lia.
  - simpl be_bytes. rewrite be_value_app. simpl length.
    change (256 ^ Z.of_nat 1) with 256.
    rewrite IH.
    + destruct (byte_of_digit (v mod 256)) as (x & Hx & Hxv);
        [apply Z.mod_pos_bound; lia |].
      rewrite Hx. unfold be_value. simpl. rewrite Hxv.
      pose proof (Z.div_mod v 256). lia.
    + replace (Z.of_nat (S n)) with (Z.of_nat n + 1) in Hv by lia.
      rewrite Z.pow_add_r in Hv by lia. change (256 ^ 1) with 256 in Hv.
      split; [apply Z.div_pos; lia |].
      apply Z.div_lt_upper_bound; lia.
Qed.

Lemma hex_byte_roundtrip (x : byte) :
  (match hex_value (hex_digit (Byte.to_N x / 16)),
         hex_value (hex_digit (Byte.to_N x mod 16)) with
   | Some h, Some l => Byte.of_N (h * 16 + l)
   | _, _ => None
   end)%N = Some x.
Proof. destruct x; reflexivity. Qed.

(** [Buffer.from(buf.toString('hex'), 'hex')] is [buf]. *)
Lemma hex_decode_encode (b : bytes) : hex_decode (hex_encode b) = b.
Proof.
  induction b as [| x b IH]; [reflexivity |].
  simpl. pose proof (hex_byte_roundtrip x) as H.
  destruct (hex_value (hex_digit (Byte.to_N x / 16))) as [h |]; [| discriminate].
  destruct (hex_value (hex_digit (Byte.to_N x mod 16))) as [l |]; [| discriminate].
  rewrite H, IH. reflexivity.
Qed.

(** Integers up to [2 ^ 53] survive [Number(...)]. *)
Lemma Number_of_BigInt_exact (z : Z) :
  0 <= z <= 2 ^ 53 -> Number_of_BigInt z = z.
Proof.
  intros Hz. destruct (Z.eq_dec z (2 ^ 53)) as [-> | Hne]; [reflexivity |].
  unfold Number_of_BigInt.
  destruct (Z.eq_dec z 0) as [-> | Hz0]; [reflexivity |].
  assert (Z.log2 z < 53) by (apply Z.log2_lt_pow2; lia).
  destruct (Z.log2 z + 1 <=? 53) eqn:E; [reflexivity |].
  apply Z.leb_gt in E. lia.
Qed.

(** ** The header *)

Lemma createMessageHeader_layout (messageType sequenceNumber payloadLength : Z) :
  0 <= messageType < 256 ->
  0 <= sequenceNumber < 2 ^ 64 ->
  0 <= payloadLength < 2 ^ 32 ->
  createMessageHeader messageType sequenceNumber payloadLength =
  Normal (be_bytes 1 PROTOCOL_CONSTANTS.VERSION ++ be_bytes 1 messageType ++
          be_bytes 8 sequenceNumber ++ be_bytes 4 payloadLength).
Proof.
  intros HT HS HL. unfold createMessageHeader.
  unfold writeUInt8, writeBigUInt64BE, writeUInt32BE, write_uint_be.
  change (256 ^ Z.of_nat 1) with 256.
  change (256 ^ Z.of_nat 8) with (2 ^ 64).
  change (256 ^ Z.of_nat 4) with (2 ^ 32).
  replace ((0 <=? messageType) && (messageType <? 256)) with true
    by (symmetry; apply andb_true_iff; split; [apply Z.leb_le | apply Z.ltb_lt]; lia).
  replace ((0 <=? sequenceNumber) && (sequenceNumber <? 2 ^ 64)) with true
    by (symmetry; apply andb_true_iff; split; [apply Z.leb_le | apply Z.ltb_lt]; lia).
  replace ((0 <=? payloadLength) && (payloadLength <? 2 ^ 32)) with true
    by (symmetry; apply andb_true_iff; split; [apply Z.leb_le | apply Z.ltb_lt]; lia).
  cbn -[Z.div Z.modulo Z.to_N Byte.of_N]. reflexivity.
Qed.

Ltac lengths := rewrite ?length_app, ?be_bytes_length; reflexivity.

Lemma parseMessageHeader_layout (v T S L : Z) (rest : bytes) :
  0 <= v < 256 -> 0 <= T < 256 -> 0 <= S < 2 ^ 64 -> 0 <= L < 2 ^ 32 ->
  parseMessageHeader (be_bytes 1 v ++ be_bytes 1 T ++ be_bytes 8 S ++
                      be_bytes 4 L ++ rest) =
  Normal (Header.mk v T (Number_of_BigInt S) L).
Proof.
  intros Hv HT HS HL. unfold parseMessageHeader.
  replace (length _ <? 14)%nat with false.
  2:{ symmetry. apply Nat.ltb_ge. rewrite !length_app, !be_bytes_length. lia. }
  unfold readUInt8, readBigUInt64BE, readUInt32BE, read_uint_be.
  f_equal. f_equal.
  - rewrite drop_0. rewrite take_app_length' by lengths.
    apply be_value_be_bytes. exact Hv.
  - rewrite drop_app_length' by lengths.
    rewrite take_app_length' by lengths.
    apply be_value_be_bytes. exact HT.
  - f_equal.
    rewrite (app_assoc (be_bytes 1 v)).
    rewrite drop_app_length' by lengths.
    rewrite take_app_length' by lengths.
    apply be_value_be_bytes. exact HS.
  - rewrite (app_assoc (be_bytes 1 T)), (app_assoc (be_bytes 1 v)).
    rewrite drop_app_length' by lengths.
    rewrite take_app_length' by lengths.
    apply be_value_be_bytes. exact HL.
Qed.

(** ** The frame layout *)

(** The slices of [parseMessage] on a buffer of at least 74 bytes, as plain
    offsets. *)
Lemma split_message_offsets (b : bytes) :
  (74 <= length b)%nat ->
  split_message b =
  mkParts (take 14 b)
          (take 12 (drop 14 b))
          (take (length b - 74) (drop 26 b))
          (take 16 (drop (length b - 48) b))
          (drop (length b - 32) b)
          (take (length b - 32) b).
Proof.
  intros Hlen. unfold split_message.
  change (slice b 0 (Some 14)) with (slice b 0 (Some (Z.of_nat 14))).
  change (slice b 14 (Some 26)) with (slice b (Z.of_nat 14) (Some (Z.of_nat 26))).
  change (slice b 26 (Some (-48)))
    with (slice b (Z.of_nat 26) (Some (- Z.of_nat 48))).
  change (slice b (-48) (Some (-32)))
    with (slice b (- Z.of_nat 48) (Some (- Z.of_nat 32))).
  change (slice b (-32) None) with (slice b (- Z.of_nat 32) None).
  change (slice b 0 (Some (-32)))
    with (slice b (Z.of_nat 0) (Some (- Z.of_nat 32))).
  rewrite (slice_prefix b 14) by lia.
  rewrite (slice_range b 14 26) by lia.
  rewrite (slice_to_back b 26 48) by lia.
  rewrite (slice_back_back b 48 32) by lia.
  rewrite (slice_suffix b 32) by lia.
  rewrite (slice_to_back b 0 32) by lia.
  rewrite drop_0.
  replace (length b - 48 - 26)%nat with (length b - 74)%nat by lia.
  replace (length b - 32 - 0)%nat with (length b - 32)%nat by lia.
  reflexivity.
Qed.

(** A buffer put together as [createMessage] does comes apart into the same
    pieces. *)
Lemma split_message_concat (h i c t m : bytes) :
  length h = 14%nat -> length i = 12%nat -> length t = 16%nat -> length m = 32%nat ->
  split_message (h ++ (i ++ c ++ t) ++ m) = mkParts h i c t m (h ++ i ++ c ++ t).
Proof.
  intros Hh Hi Ht Hm.
  rewrite split_message_offsets by (rewrite !length_app; lia).
  replace (h ++ (i ++ c ++ t) ++ m) with (h ++ i ++ c ++ t ++ m)
    by (rewrite <- !app_assoc; reflexivity).
  assert (Hlen : length (h ++ i ++ c ++ t ++ m) = (74 + length c)%nat)
    by (rewrite !length_app; lia).
  rewrite Hlen. f_equal.
  - apply take_app_length'. lia.
  - rewrite drop_app_length' by lia. apply take_app_length'. lia.
  - replace (h ++ i ++ c ++ t ++ m) with ((h ++ i) ++ c ++ t ++ m)
      by (rewrite <- !app_assoc; reflexivity).
    rewrite drop_app_length' by (rewrite length_app; lia).
    apply take_app_length'. lia.
  - replace (h ++ i ++ c ++ t ++ m) with ((h ++ i ++ c) ++ t ++ m)
      by (rewrite <- !app_assoc; reflexivity).
    rewrite drop_app_length' by (rewrite !length_app; lia).
    apply take_app_length'. lia.
  - replace (h ++ i ++ c ++ t ++ m) with ((h ++ i ++ c ++ t) ++ m)
      by (rewrite <- !app_assoc; reflexivity).
    apply drop_app_length'. rewrite !length_app. lia.
  - replace (h ++ i ++ c ++ t ++ m) with ((h ++ i ++ c ++ t) ++ m)
      by (rewrite <- !app_assoc; reflexivity).
    apply take_app_length'. rewrite !length_app. lia.
Qed.

(** ** What [parseMessage] does, step by step *)

Section Codec.
Context {R : NodeRuntime}.

Lemma parseMessage_short (b ek mk : bytes) (e : Env) :
  (length b < 74)%nat ->
  parseMessage b ek mk e = (Throw (Error "Message too short"), e).
Proof.
  intros Hlen. unfold parseMessage.
  replace (length b <? 14 + 12 + 16 + 32)%nat with true
    by (symmetry; apply Nat.ltb_lt; lia).
  reflexivity.
Qed.

(** On a buffer of at least 74 bytes: one HMAC call, then the comparison, and
    only after it the header, the decipher call and [JSON.parse]. *)
Lemma parseMessage_long (b ek mk : bytes) (e : Env) :
  (74 <= length b)%nat ->
  let p := split_message b in
  let e1 := logged e [CallHmac mk (part_hmacData p)] in
  let e2 := logged e [CallHmac mk (part_hmacData p);
                      CallDecipher ek (part_iv p) (part_tag p) (part_encryptedPayload p)] in
  parseMessage b ek mk e =
  match timingSafeEqual (hmac_sha256 mk (part_hmacData p)) (part_hmac p) with
  | Throw err => (Throw err, e1)
  | Normal false => (Throw (Error "HMAC verification failed"), e1)
  | Normal true =>
      match parseMessageHeader (part_header p) with
      | Throw err => (Throw err, e1)
      | Normal headerInfo =>
          match aes_256_gcm_decrypt ek (part_iv p) (part_tag p)
                  (part_encryptedPayload p) with
          | None =>
              (Throw (CryptoError "Unsupported state or unable to authenticate data"), e2)
          | Some plaintext =>
              match JSON_parse (string_of_list_byte plaintext) with
              | None => (Throw (SyntaxError "Unexpected token in JSON"), e2)
              | Some payload => (Normal (headerInfo, payload), e2)
              end
          end
      end
  end.
Proof.
  intros Hlen p e1 e2. unfold parseMessage.
  replace (length b <? 14 + 12 + 16 + 32)%nat with false
    by (symmetry; apply Nat.ltb_ge; lia).
  fold p.
  unfold verifyHMAC, generateHMAC, decrypt, bind, log_call, modify, ret, throw,
    lift_result.
  cbn [fst snd].
  fold (logged e [CallHmac mk (part_hmacData p)]). fold e1.
  destruct (timingSafeEqual _ _) as [[|] | err]; cbn [negb]; try reflexivity.
  destruct (parseMessageHeader _) as [h | err]; [| reflexivity].
  rewrite hex_decode_encode.
  assert (He2 : mkEnv (entropy e1) (cursor e1)
                  (crypto_calls e1 ++
                   [CallDecipher ek (part_iv p) (part_tag p) (part_encryptedPayload p)])
                = e2).
  { unfold e1, e2, logged. cbn. rewrite <- app_assoc. reflexivity. }
  rewrite He2.
  destruct (aes_256_gcm_decrypt _ _ _ _) as [pt |]; [| reflexivity].
  destruct (JSON_parse _); reflexivity.
Qed.

End Codec.

(** ** The codec's properties *)

Section CodecTheorems.
Context {R : NodeRuntime} {L : NodeRuntimeLaws R}.

Lemma timingSafeEqual_same (a : bytes) : timingSafeEqual a a = Normal true.
Proof.
  unfold timingSafeEqual. rewrite Nat.eqb_refl.
  rewrite bool_decide_eq_true_2; reflexivity.
Qed.

Lemma randomBytes_length (n : nat) (e : Env) :
  exists bs e', randomBytes n e = (Normal bs, e') /\ length bs = n.
Proof.
  eexists _, _. split; [reflexivity |].
  rewrite length_map, length_seq. reflexivity.
Qed.

(** C1 (as amended): frame round trip. For every message type, every sequence
    number below 2^64 that a JavaScript Number holds exactly (every integer
    up to 2^53 does), every JSON-serializable payload whose text is shorter
    than 2^32 bytes, every 32-byte encryption key and every MAC key:
    [createMessage] returns a frame, and [parseMessage] on that frame with the
    same keys returns version 1, the type, the sequence number, the byte
    length of the serialized payload, and the payload. *)
Theorem createMessage_parseMessage_round_trip
    (T S : Z) (P : JSValue) (json : string) (encKey macKey : bytes) (e : Env) :
  In T MESSAGE_TYPES.all ->
  0 <= S < 2 ^ 64 ->
  Number_of_BigInt S = S ->
  JSON_serializable P json ->
  Z.of_nat (length (list_byte_of_string json)) < 2 ^ 32 ->
  length encKey = 32%nat ->
  exists frame e1,
    createMessage T S P encKey macKey e = (Normal frame, e1) /\
    forall e2, exists e3,
      parseMessage frame encKey macKey e2 =
      (Normal (Header.mk 1 T S (Z.of_nat (length (list_byte_of_string json))), P), e3).
Proof.
  intros HT HS HNum [Hstr Hparse] Hlen Hkey.
  assert (HT' : 0 <= T < 256).
  { unfold MESSAGE_TYPES.all in HT. cbn in HT.
    repeat (destruct HT as [<- | HT]; [cbv; split; congruence |]). destruct HT. }
  set (pb := list_byte_of_string json) in *.
  unfold createMessage. rewrite Hstr. fold pb.
  unfold bind at 1, lift_result.
  assert (Hpl : 0 <= Z.of_nat (length pb) < 2 ^ 32) by (split; [apply Nat2Z.is_nonneg | exact Hlen]).
  rewrite createMessageHeader_layout by assumption.
  set (hdr := be_bytes 1 PROTOCOL_CONSTANTS.VERSION ++ be_bytes 1 T ++
              be_bytes 8 S ++ be_bytes 4 (Z.of_nat (length pb))).
  assert (Hhdr : length hdr = 14%nat) by (unfold hdr; lengths).
  unfold encrypt, bind.
  destruct (randomBytes_length PROTOCOL_CONSTANTS.IV_LENGTH e) as (iv0 & e0 & Hrand & Hiv).
  rewrite Hrand. change PROTOCOL_CONSTANTS.IV_LENGTH with 12%nat in Hiv. unfold log_call, modify. cbn [fst snd].
  rewrite list_byte_of_string_of_list_byte.
  destruct (aes_256_gcm_inverse encKey iv0 pb Hkey Hiv) as (ct & tg & Henc & Htag & Hdec).
  rewrite Henc. unfold ret. cbn [encrypted iv tag].
  rewrite hex_decode_encode.
  unfold generateHMAC, bind, log_call, modify, ret. cbn [fst snd].
  eexists _, _. split; [reflexivity |].
  intros e2. eexists.
  rewrite parseMessage_long.
  2:{ rewrite !length_app, hmac_sha256_length. lia. }
  rewrite split_message_concat
    by (try assumption; apply hmac_sha256_length).
  cbn [part_header part_iv part_encryptedPayload part_tag part_hmac part_hmacData].
  rewrite timingSafeEqual_same.
  unfold hdr at 1. rewrite <- (app_nil_r (be_bytes 4 _)).
  rewrite parseMessageHeader_layout by (try assumption; cbv; split; congruence).
  rewrite Hdec. unfold pb. rewrite string_of_list_byte_of_string, Hparse.
  rewrite HNum. reflexivity.
Qed.
End CodecTheorems.

(** The reference runtime meets the laws. *)
#[global] Instance reference_laws : NodeRuntimeLaws ReferenceRuntime.runtime.
Proof.
  split.
  - intros key data. apply repeat_length.
  - intros key iv0 pt Hk Hi. cbn.
    exists (rev pt), (ReferenceRuntime.seal_tag key iv0 (rev pt)).
    unfold ReferenceRuntime.seal, ReferenceRuntime.open.
    rewrite Hk, Hi. cbn [Nat.eqb andb].
    rewrite bool_decide_eq_true_2 by reflexivity.
    rewrite rev_involutive.
    repeat split.
  - intros ikm salt info len. apply repeat_length.
Defined.

(** The header has four bytes for the payload length: a longer payload makes
    [createMessageHeader] throw. *)
Lemma createMessageHeader_payload_too_long (T S : Z) :
  0 <= T < 256 -> 0 <= S < 2 ^ 64 ->
  createMessageHeader T S (2 ^ 32) = Throw (RangeError "ERR_OUT_OF_RANGE value").
Proof.
  intros HT HS. unfold createMessageHeader.
  unfold writeUInt8, writeBigUInt64BE, writeUInt32BE, write_uint_be.
  change (256 ^ Z.of_nat 1) with 256.
  change (256 ^ Z.of_nat 8) with (2 ^ 64).
  replace ((0 <=? T) && (T <? 256)) with true
    by (symmetry; apply andb_true_iff; split; [apply Z.leb_le | apply Z.ltb_lt]; lia).
  replace ((0 <=? S) && (S <? 2 ^ 64)) with true
    by (symmetry; apply andb_true_iff; split; [apply Z.leb_le | apply Z.ltb_lt]; lia).
  cbn -[Z.div Z.modulo Z.to_N Byte.of_N]. reflexivity.
Qed.

Lemma createMessage_parseMessage_round_trip_witness :
  exists frame e1,
    createMessage MESSAGE_TYPES.DATA 1 ReferenceRuntime.test_payload
      ReferenceRuntime.key_a ReferenceRuntime.key_b ReferenceRuntime.env0
    = (Normal frame, e1) /\
    forall e2, exists e3,
      parseMessage frame ReferenceRuntime.key_a ReferenceRuntime.key_b e2 =
      (Normal (Header.mk 1 MESSAGE_TYPES.DATA 1 41, ReferenceRuntime.test_payload), e3).
Proof.
  apply (createMessage_parseMessage_round_trip (L := reference_laws)
           MESSAGE_TYPES.DATA 1 ReferenceRuntime.test_payload
           (default EmptyString (ReferenceRuntime.text ReferenceRuntime.test_payload))
           ReferenceRuntime.key_a ReferenceRuntime.key_b ReferenceRuntime.env0).
  - cbn. auto.
  - lia.
  - reflexivity.
  - split; reflexivity.
  - reflexivity.
  - reflexivity.
Defined.

(** C1, the claim as stated, fails: 2^53 + 1 is a u64, and the frame built for
    it (the caller passes the BigInt) parses to sequence number 2^53. *)
Lemma round_trip_loses_sequence_number_above_2_53 :
  exists frame e1 h e2,
    createMessage MESSAGE_TYPES.DATA (2 ^ 53 + 1) ReferenceRuntime.test_payload
      ReferenceRuntime.key_a ReferenceRuntime.key_b ReferenceRuntime.env0
    = (Normal frame, e1) /\
    parseMessage frame ReferenceRuntime.key_a ReferenceRuntime.key_b e1 =
      (Normal (h, ReferenceRuntime.test_payload), e2) /\
    0 <= 2 ^ 53 + 1 < 2 ^ 64 /\
    Header.sequenceNumber h = 2 ^ 53 /\
    Header.sequenceNumber h <> 2 ^ 53 + 1.
Proof.
  eexists _, _, _, _.
  split; [vm_compute; reflexivity |].
  split; [vm_compute; reflexivity |].
  split; [lia |].
  split; [reflexivity | discriminate].
Qed.

Section CodecOrder.
Context {R : NodeRuntime} {L : NodeRuntimeLaws R}.

(** C3: verify-then-decrypt. On every buffer of at least 74 bytes and every
    key pair, the first library call of [parseMessage] is the HMAC over all
    bytes before the trailing 32-byte HMAC field; a decipher call is made only
    if that HMAC equals the field; and if it does not, [parseMessage] fails
    with 'HMAC verification failed' having made no decipher call at all. *)
Theorem parseMessage_verifies_before_decrypting (b encKey macKey : bytes) (e : Env) :
  (74 <= length b)%nat ->
  let data := take (length b - 32) b in
  let expected := drop (length b - 32) b in
  exists r later,
    parseMessage b encKey macKey e = (r, logged e (CallHmac macKey data :: later)) /\
    (forall k i t c, In (CallDecipher k i t c) later ->
                     hmac_sha256 macKey data = expected) /\
    (hmac_sha256 macKey data <> expected ->
     r = Throw (Error "HMAC verification failed") /\ later = []).
Proof.
  intros Hlen data expected.
  rewrite parseMessage_long by exact Hlen.
  rewrite split_message_offsets by exact Hlen.
  cbn [part_header part_iv part_encryptedPayload part_tag part_hmac part_hmacData].
  fold data expected.
  unfold timingSafeEqual.
  replace (length (hmac_sha256 macKey data) =? length expected)%nat with true.
  2:{ symmetry. apply Nat.eqb_eq. rewrite hmac_sha256_length.
      unfold expected. rewrite length_drop. lia. }
  destruct (bool_decide (hmac_sha256 macKey data = expected)) eqn:Hv.
  - apply bool_decide_eq_true_1 in Hv.
    destruct (parseMessageHeader _) as [h | err].
    + destruct (aes_256_gcm_decrypt _ _ _ _) as [pt |];
        [destruct (JSON_parse _) |];
        eexists _, [_]; (split; [reflexivity |]); split; intros; tauto.
    + eexists _, []. split; [reflexivity |]. split; intros; tauto.
  - apply bool_decide_eq_false_1 in Hv.
    eexists _, []. split; [reflexivity |].
    split; [intros k i t c [] | intros _; split; reflexivity].
Qed.

(** C7: key derivation. [deriveKeys] returns the 64 bytes of
    HKDF-SHA256(secret, salt, info) split in two, the first 32 bytes as
    [encryptionKey] and the last 32 as [hmacKey], and its result is the same
    in every environment: it depends on its arguments alone. *)
Theorem deriveKeys_is_hkdf_split_and_deterministic
    (sharedSecret : bytes) (salt info : option bytes) (e e' : Env) :
  let okm := hkdf_sha256 sharedSecret (default PROTOCOL_CONSTANTS.SALT salt)
               (default PROTOCOL_CONSTANTS.INFO info) 64 in
  fst (deriveKeys sharedSecret salt info e) =
    Normal (mkSessionKeys (take 32 okm) (drop 32 okm)) /\
  fst (deriveKeys sharedSecret salt info e') = fst (deriveKeys sharedSecret salt info e) /\
  length okm = 64%nat /\
  length (take 32 okm) = 32%nat /\ length (drop 32 okm) = 32%nat /\
  take 32 okm ++ drop 32 okm = okm.
Proof.
  intros okm.
  assert (Hokm : length okm = 64%nat) by apply hkdf_sha256_length.
  assert (Hrun : forall e0, fst (deriveKeys sharedSecret salt info e0) =
                            Normal (mkSessionKeys (take 32 okm) (drop 32 okm))).
  { intros e0. unfold deriveKeys, bind, log_call, modify, ret. cbn [fst snd].
    fold okm. f_equal. f_equal.
    - apply (slice_prefix okm 32). lia.
    - apply (slice_from okm 32). lia. }
  split; [apply Hrun |].
  split; [rewrite !Hrun; reflexivity |].
  split; [exact Hokm |].
  split; [rewrite length_take; lia |].
  split; [rewrite length_drop; lia |].
  apply take_drop.
Qed.
End CodecOrder.

Section CodecLayout.
Context {R : NodeRuntime}.

End CodecLayout.

(** ** Reasoning about methods *)

(** Run a method symbolically: unfold the monad and the field updates, reduce
    the record projections, and nothing else. *)
Ltac run_m :=
  cbv [_clearTimeout _startTimeout _sendData _sendProtocolMessage
       post_increment_sequenceNumber read_sessionKeys read_keyPair
       resolve reject emit assign read clearTimeout Date_now liftE
       settle modify gets bind ret throw try_catch
       setTimeout new_Promise lift_result get
       with_this with_env with_timers with_promises with_events
       put_state put_sequenceNumber put_remoteSequenceNumber put_sessionKeys
       put_keyPair put_remotePublicKey put_connection put_messageQueue
       put_pendingRequests put_timeoutId] in *;
  cbn [this env clock timers next_timer promises next_promise events
       options state sequenceNumber remoteSequenceNumber sessionKeys keyPair
       remotePublicKey connection messageQueue pendingRequests timeoutId
       onMessage onConnect onDisconnect onError
       fst snd] in *.

Section MethodFacts.
Context {R : NodeRuntime}.

Lemma inv_ret {A} I (a : A) : inv I (ret a).
Proof. intros w H. exact H. Qed.

Lemma inv_throw {A} I (e : JSError) : inv I (throw (A := A) e).
Proof. intros w H. exact H. Qed.

Lemma inv_lift_result {A} I (r : Result A) : inv I (lift_result r).
Proof. intros w H. exact H. Qed.

Lemma inv_gets {A} I (f : World -> A) : inv I (gets f).
Proof. intros w H. exact H. Qed.

Lemma inv_read {A} I (f : Protocol -> A) : inv I (read f).
Proof. intros w H. exact H. Qed.

Lemma inv_bind {A B} I (m : M A) (k : A -> M B) :
  inv I m -> (forall a, inv I (k a)) -> inv I (bind m k).
Proof.
  intros Hm Hk w Hw. unfold bind. specialize (Hm w Hw).
  destruct (m w) as [[a | e] w']; cbn in *; [apply Hk; exact Hm | exact Hm].
Qed.

Lemma inv_bind_throws {A B} I (m : M A) (k : A -> M B) :
  throws I m -> inv I (bind m k).
Proof.
  intros Hm w Hw. unfold bind. destruct (Hm w Hw) as [HI [e He]].
  destruct (m w) as [[a | e'] w']; cbn in *; [discriminate | exact HI].
Qed.

Lemma inv_try_catch {A} I (m : M A) (h : JSError -> M A) :
  inv I m -> (forall e, inv I (h e)) -> inv I (try_catch m h).
Proof.
  intros Hm Hh w Hw. unfold try_catch. specialize (Hm w Hw).
  destruct (m w) as [[a | e] w']; cbn in *; [exact Hm | apply Hh; exact Hm].
Qed.

Lemma _closeConnection_unfold (stack : nat) :
  _closeConnection stack =
  (assign (put_state PROTOCOL_STATES.CLOSED) ;;;
   _clearTimeout ;;;
   c <- read connection ;;
   match c with
   | Some _ =>
       match stack with
       | O => emit (UnhandledRejection (RangeError "Maximum call stack size exceeded"))
       | S stack' => _closeConnection stack'
       end ;;;
       assign (put_connection None)
   | None => ret tt
   end ;;;
   h <- read onDisconnect ;;
   if h then emit DisconnectEvent else ret tt)%se.
Proof. destruct stack; reflexivity. Qed.

(** [_closeConnection] always returns, and leaves [closed_world]. *)
Lemma _closeConnection_spec (stack : nat) (w : World) :
  _closeConnection stack w = (Normal tt, closed_world stack w).
Proof.
  revert w. induction stack as [| stack IH]; intros w;
    rewrite _closeConnection_unfold;
    destruct w as [[o s sn rsn sk kp rpk [c |] q pr [t |] h1 h2 [|] h4] e ck ts nt ps np ev];
    unfold closed_world, close_events; run_m;
    rewrite ?IH; unfold closed_world, close_events; run_m;
    cbn [nested_close_events]; rewrite <- ?app_assoc, ?app_nil_r; reflexivity.
Qed.
End MethodFacts.

(** *** Invariants *)

Create HintDb invariants.
#[global] Hint Unfold remote_is has_keyPair state_is torn_down : invariants.
Create HintDb inv_db.

Lemma inv_liftE {A} (I : World -> Prop) (c : SE Env A) :
  (forall w e, I w -> I (with_env (fun _ => e) w)) -> inv I (liftE c).
Proof.
  intros H w Hw. unfold liftE. destruct (c (env w)) as [r e]. apply H. exact Hw.
Qed.

(** A primitive step that touches none of the fields the invariant reads. *)
Ltac solve_inv := autounfold with invariants in *; run_m; try assumption; try tauto.
Ltac prim_inv :=
  first
    [ apply inv_liftE; intros ? ? ?; solve_inv
    | let w := fresh "w" in
      let H := fresh "H" in
      intros w H; run_m;
      repeat match goal with
             | |- context [match ?x with _ => _ end] => destruct x; run_m
             end;
      solve_inv ].

(** Walk through a method: sequencing, [try]/[catch], branches; a method
    with a lemma in [inv_db] is taken as a whole, a [bind] whose first part
    is known to throw cuts the rest off. *)
Ltac inv_step :=
  first
    [ apply inv_ret | apply inv_throw | apply inv_lift_result
    | apply inv_gets | apply inv_read
    | solve [auto with inv_db]
    | apply inv_bind_throws; solve [auto with inv_db]
    | apply inv_bind; [| intros ?]
    | apply inv_try_catch; [| intros ?]
    | match goal with
      | |- inv _ (match ?x with _ => _ end) => destruct x
      | |- inv _ (if ?x then _ else _) => destruct x
      | |- inv _ (let _ := _ in _) => cbv zeta
      | |- inv _ (_handleClose _ _) => unfold _handleClose
      end ].
Ltac inv_auto := repeat inv_step; try solve [prim_inv].

Section Invariants.
Context {R : NodeRuntime}.

(** **** Nothing but an accepted frame and [initialize] writes
    [remoteSequenceNumber] *)

Lemma inv_closeConnection_remote r stack : inv (remote_is r) (_closeConnection stack).
Proof. intros w H. rewrite _closeConnection_spec. exact H. Qed.
#[local] Hint Resolve inv_closeConnection_remote : inv_db.

Lemma inv_handleError_remote r stack e : inv (remote_is r) (_handleError stack e).
Proof. unfold _handleError. inv_auto. Qed.

Lemma inv_send_remote r m : inv (remote_is r) (send m).
Proof. unfold send, send_request, send_register. inv_auto. Qed.

Lemma inv_receive_remote r : inv (remote_is r) receive.
Proof. unfold receive. inv_auto. Qed.

Lemma inv_close_remote r stack : inv (remote_is r) (close stack).
Proof. unfold close. inv_auto. Qed.

Lemma inv_dispatch_remote r stack (header : Header.t) (payload : JSValue) :
  inv (remote_is r)
    (let ty := Header.messageType header in
     if ty =? MESSAGE_TYPES.HANDSHAKE_RESPONSE then _handleHandshakeResponse payload
     else if ty =? MESSAGE_TYPES.DATA then _handleDataMessage payload
     else if ty =? MESSAGE_TYPES.ACK then _handleAcknowledgment payload
     else if ty =? MESSAGE_TYPES.CLOSE then _handleClose stack payload
     else throw (Error "Unknown message type")).
Proof. inv_auto. Qed.

(** **** Once set, [keyPair] stays set *)

Lemma inv_closeConnection_keyPair stack : inv has_keyPair (_closeConnection stack).
Proof. intros w H. rewrite _closeConnection_spec. exact H. Qed.
#[local] Hint Resolve inv_closeConnection_keyPair : inv_db.

Lemma inv_processMessage_keyPair stack b : inv has_keyPair (_processMessage stack b).
Proof. unfold _processMessage. inv_auto. Qed.

Lemma inv_send_keyPair m : inv has_keyPair (send m).
Proof. unfold send, send_request, send_register. inv_auto. Qed.

Lemma inv_receive_keyPair : inv has_keyPair receive.
Proof. unfold receive. inv_auto. Qed.

Lemma inv_close_keyPair stack : inv has_keyPair (close stack).
Proof. unfold close. inv_auto. Qed.

Lemma inv_timer_fires_keyPair stack id : inv has_keyPair (timer_fires stack id).
Proof. unfold timer_fires, _simulateResponse. inv_auto. Qed.

Lemma inv_connect_keyPair stack a p k : inv has_keyPair (connect stack a p k).
Proof.
  unfold connect, initialize, _startHandshake. inv_auto.
  all: intros w H; run_m; autounfold with invariants; run_m; congruence.
Qed.

(** **** A closed, torn-down connection stays so, short of [connect] and
    [initialize] *)

Lemma closeConnection_torn_down stack w : torn_down (snd (_closeConnection stack w)).
Proof. rewrite _closeConnection_spec. split; reflexivity. Qed.

Lemma inv_closeConnection_torn_down stack : inv torn_down (_closeConnection stack).
Proof. intros w _. apply closeConnection_torn_down. Qed.
#[local] Hint Resolve inv_closeConnection_torn_down : inv_db.

Lemma throws_sendProtocolMessage_torn_down message :
  throws torn_down (_sendProtocolMessage message).
Proof.
  intros w [Hs Hc]. unfold _sendProtocolMessage. run_m. rewrite Hc.
  split; [split; assumption | eexists; reflexivity].
Qed.
#[local] Hint Resolve throws_sendProtocolMessage_torn_down : inv_db.





End Invariants.

#[global] Hint Resolve inv_closeConnection_remote inv_closeConnection_keyPair
  inv_closeConnection_torn_down throws_sendProtocolMessage_torn_down
  inv_handleError_remote : inv_db.

(** ** Inbound sequence numbers *)

Section SequenceNumbers.
Context {R : NodeRuntime}.

Lemma accepted_gt w b s : accepted w b = Some s -> remoteSequenceNumber (this w) < s.
Proof.
  unfold accepted. destruct (sessionKeys (this w)) as [keys |]; [| discriminate].
  destruct (fst _) as [[h p] | err]; [| discriminate].
  destruct (Header.sequenceNumber h <=? remoteSequenceNumber (this w)) eqn:Hle;
    [discriminate |].
  intros [= <-]. apply Z.leb_gt in Hle. exact Hle.
Qed.

(** After [_processMessage], [remoteSequenceNumber] is the accepted number,
    or what it was. *)
Lemma processMessage_remote stack b w :
  remoteSequenceNumber (this (snd (_processMessage stack b w))) =
  match accepted w b with
  | Some s => s
  | None => remoteSequenceNumber (this w)
  end.
Proof.
  unfold _processMessage, accepted. run_m.
  destruct (sessionKeys (this w)) as [keys |].
  2:{ apply (inv_handleError_remote _ stack _ w). reflexivity. }
  destruct (parseMessage b (encryptionKey keys) (hmacKey keys) (env w))
    as [[[h p] | err] e'].
  2:{ run_m.
      apply (inv_handleError_remote (remoteSequenceNumber (this w)) stack err
               (with_env (fun _ => e') w)). reflexivity. }
  run_m.
  destruct (Header.sequenceNumber h <=? remoteSequenceNumber (this w)) eqn:Hle.
  - apply (inv_handleError_remote (remoteSequenceNumber (this w)) stack _
             (with_env (fun _ => e') w)). reflexivity.
  - match goal with
    | |- context [match ?m ?w1 with _ => _ end] =>
        assert (Hd : remote_is (Header.sequenceNumber h) (snd (m w1)))
          by (apply (inv_dispatch_remote _ stack h p); reflexivity);
        destruct (m w1) as [[[] | err] w2]
    end.
    + exact Hd.
    + apply (inv_handleError_remote _ stack err w2). exact Hd.
Qed.

Lemma processMessage_rejects stack b w keys h p e' :
  sessionKeys (this w) = Some keys ->
  parseMessage b (encryptionKey keys) (hmacKey keys) (env w) = (Normal (h, p), e') ->
  Header.sequenceNumber h <= remoteSequenceNumber (this w) ->
  _processMessage stack b w =
  _handleError stack (Error "Invalid sequence number") (with_env (fun _ => e') w).
Proof.
  intros Hk Hp Hle. unfold _processMessage. run_m. rewrite Hk, Hp. run_m.
  apply Z.leb_le in Hle. rewrite Hle. reflexivity.
Qed.

Lemma connect_remote stack a p k w :
  has_keyPair w ->
  remoteSequenceNumber (this (snd (connect stack a p k w))) = remoteSequenceNumber (this w).
Proof.
  intros Hk. unfold connect.
  set (rest := (assign (put_state PROTOCOL_STATES.HANDSHAKE_INIT) ;;; try_catch _ _)%se).
  assert (Hrest : forall r, inv (remote_is r) rest).
  { intros r. unfold rest, _startHandshake. inv_auto. }
  unfold bind at 1.
  destruct k as [kp |].
  - apply (Hrest _ (with_this (put_keyPair (Some kp)) w)). reflexivity.
  - unfold bind at 1, read, gets. cbn [fst snd].
    destruct (keyPair (this w)) as [kp0 |] eqn:E; [| contradiction].
    apply (Hrest _ w). reflexivity.
Qed.

Lemma timer_fires_remote stack id w :
  remoteSequenceNumber (this (snd (timer_fires stack id w))) =
  match inbound_frame (TimerFires id) w with
  | Some b => match accepted w b with
              | Some s => s
              | None => remoteSequenceNumber (this w)
              end
  | None => remoteSequenceNumber (this w)
  end.
Proof.
  unfold timer_fires, inbound_frame. unfold bind at 1, gets. cbn [fst snd].
  destruct (timers w !! id) as [[cb d] |]; [| reflexivity].
  unfold bind at 1, clearTimeout, modify. cbn [fst snd callback].
  set (w1 := with_timers (delete id) w).
  destruct cb as [p | p | | d'].
  - assert (H : inv (remote_is (remoteSequenceNumber (this w1)))
                  (n <- read sequenceNumber ;;
                   reqs <- read pendingRequests ;;
                   assign (put_pendingRequests (delete (Number_pred n) reqs)) ;;;
                   reject p (Error "Message acknowledgment timeout"))) by inv_auto.
    exact (H w1 eq_refl).
  - assert (H : inv (remote_is (remoteSequenceNumber (this w1)))
                  (reject p (Error "Receive timeout"))) by inv_auto.
    exact (H w1 eq_refl).
  - exact (inv_handleError_remote _ stack _ w1 eq_refl).
  - unfold _simulateResponse. rewrite processMessage_remote. reflexivity.
Qed.

(** One event, short of [initialize]: the key pair stays, and
    [remoteSequenceNumber] moves only to an accepted number. *)
Lemma step_remote stack op w :
  op <> CallInitialize -> has_keyPair w ->
  has_keyPair (step stack op w) /\
  remoteSequenceNumber (this (step stack op w)) =
  match inbound_frame op w with
  | Some b => match accepted w b with
              | Some s => s
              | None => remoteSequenceNumber (this w)
              end
  | None => remoteSequenceNumber (this w)
  end.
Proof.
  intros Hop Hk. destruct op as [| a p k | m | | | b | id]; cbn [step inbound_frame].
  - contradiction.
  - split; [apply inv_connect_keyPair; exact Hk |].
    apply connect_remote. exact Hk.
  - split; [apply inv_send_keyPair; exact Hk |].
    exact (inv_send_remote _ m w eq_refl).
  - split; [apply inv_receive_keyPair; exact Hk |].
    exact (inv_receive_remote _ w eq_refl).
  - split; [apply inv_close_keyPair; exact Hk |].
    exact (inv_close_remote _ stack w eq_refl).
  - split; [apply inv_processMessage_keyPair; exact Hk |].
    apply processMessage_remote.
  - split; [apply inv_timer_fires_keyPair; exact Hk |].
    apply timer_fires_remote.
Qed.

Lemma accepted_numbers_sorted stack ops w :
  has_keyPair w -> ~ In CallInitialize ops ->
  Sorted.StronglySorted Z.lt (accepted_numbers stack ops w) /\
  Forall (fun s => remoteSequenceNumber (this w) < s) (accepted_numbers stack ops w).
Proof.
  revert w. induction ops as [| op rest IH]; intros w Hk Hni.
  - split; constructor.
  - assert (Hop : op <> CallInitialize) by (intros ->; apply Hni; left; reflexivity).
    assert (Hrest : ~ In CallInitialize rest) by (intros H; apply Hni; right; exact H).
    destruct (step_remote stack op w Hop Hk) as [Hk' Hr].
    destruct (IH (step stack op w) Hk' Hrest) as [Hsorted Hall].
    cbn [accepted_numbers].
    destruct (inbound_frame op w) as [b |].
    + destruct (accepted w b) as [s |] eqn:E.
      * apply accepted_gt in E. rewrite Hr in Hall. cbn [app].
        split.
        -- constructor; [exact Hsorted | exact Hall].
        -- constructor; [exact E |].
           eapply Forall_impl; [exact Hall |]. cbn. intros x Hx. lia.
      * rewrite Hr in Hall. cbn [app]. split; assumption.
    + rewrite Hr in Hall. cbn [app]. split; assumption.
Qed.

(** C2, as amended: the inbound sequence invariant. A frame that parses and
    whose sequence number is at most [remoteSequenceNumber] is rejected with
    'Invalid sequence number': [_processMessage] does what [_handleError] does
    with that error and nothing else, so no handler of the frame's type runs,
    and [remoteSequenceNumber] keeps its value. A frame with a larger number
    sets [remoteSequenceNumber] to it. Consequently, as long as initialize()
    is not run on the object again, neither called directly nor by connect()
    on an object without a key pair, the accepted sequence numbers are
    strictly increasing (gaps allowed): so it is over every run of events
    without initialize() on an object that has its key pair. *)
Theorem inbound_sequence_numbers_strictly_increase
    (stack : nat) (w : World) (ops : list Op) :
  has_keyPair w ->
  ~ In CallInitialize ops ->
  (forall w0 b keys h p e',
      sessionKeys (this w0) = Some keys ->
      parseMessage b (encryptionKey keys) (hmacKey keys) (env w0) = (Normal (h, p), e') ->
      (Header.sequenceNumber h <= remoteSequenceNumber (this w0) ->
       _processMessage stack b w0 =
         _handleError stack (Error "Invalid sequence number")
                      (with_env (fun _ => e') w0) /\
       accepted w0 b = None /\
       remoteSequenceNumber (this (snd (_processMessage stack b w0))) =
         remoteSequenceNumber (this w0)) /\
      (remoteSequenceNumber (this w0) < Header.sequenceNumber h ->
       accepted w0 b = Some (Header.sequenceNumber h) /\
       remoteSequenceNumber (this (snd (_processMessage stack b w0))) =
         Header.sequenceNumber h)) /\
  Sorted.StronglySorted Z.lt (accepted_numbers stack ops w) /\
  Forall (fun s => remoteSequenceNumber (this w) < s) (accepted_numbers stack ops w).
Proof.
  intros Hk Hni. split; [| apply accepted_numbers_sorted; assumption].
  intros w0 b keys h p e' Hkeys Hparse.
  assert (Hacc : accepted w0 b =
                 if Header.sequenceNumber h <=? remoteSequenceNumber (this w0)
                 then None else Some (Header.sequenceNumber h)).
  { unfold accepted. rewrite Hkeys, Hparse. reflexivity. }
  split; intros Hcmp.
  - assert (Hle : (Header.sequenceNumber h <=? remoteSequenceNumber (this w0)) = true)
      by (apply Z.leb_le; exact Hcmp).
    rewrite Hle in Hacc.
    split; [eapply processMessage_rejects; eassumption |].
    split; [exact Hacc |].
    rewrite processMessage_remote, Hacc. reflexivity.
  - assert (Hgt : (Header.sequenceNumber h <=? remoteSequenceNumber (this w0)) = false)
      by (apply Z.leb_gt; exact Hcmp).
    rewrite Hgt in Hacc.
    split; [exact Hacc |].
    rewrite processMessage_remote, Hacc. reflexivity.
Qed.
End SequenceNumbers.

(** ** Closing and reopening *)

Section Closing.
Context {R : NodeRuntime}.

Lemma state_eqb_eq a b : PROTOCOL_STATES.eqb a b = true <-> a = b.
Proof. destruct a, b; cbn; split; intros; congruence. Qed.



(** [_handleError] returns, and leaves the state CLOSED. *)
Lemma handleError_closes stack e w :
  fst (_handleError stack e w) = Normal tt /\
  state (this (snd (_handleError stack e w))) = PROTOCOL_STATES.CLOSED.
Proof.
  unfold _handleError. run_m.
  destruct (onError (this w)); run_m;
    (destruct (PROTOCOL_STATES.eqb (state (this w)) PROTOCOL_STATES.CLOSED) eqn:E;
     [apply state_eqb_eq in E; split; [reflexivity | exact E]
     | rewrite _closeConnection_spec; split; reflexivity]).
Qed.






Lemma disconnects_app l1 l2 :
  disconnects (l1 ++ l2) = (disconnects l1 + disconnects l2)%nat.
Proof.
  induction l1 as [| ev l1 IH]; [reflexivity |].
  destruct ev; cbn; rewrite IH; reflexivity.
Qed.

Lemma disconnects_nested stack : disconnects (nested_close_events stack true) = stack.
Proof.
  induction stack as [| stack IH]; [reflexivity |].
  cbn. rewrite disconnects_app, IH. cbn. lia.
Qed.

Lemma disconnects_close_events stack connected :
  disconnects (close_events stack connected true) =
  if connected then S stack else 1%nat.
Proof.
  unfold close_events. rewrite disconnects_app.
  destruct connected; [rewrite disconnects_nested |]; cbn; lia.
Qed.

(** [close()] while [sessionKeys] is null: the sequence number is taken, the
    read of [this.sessionKeys.encryptionKey] throws, the [catch] block runs
    [_closeConnection]. *)
Lemma close_without_sessionKeys stack w :
  sessionKeys (this w) = None ->
  state (this w) <> PROTOCOL_STATES.CLOSED ->
  close stack w =
  (Normal tt,
   closed_world stack
     (with_this (put_sequenceNumber (Number_succ (sequenceNumber (this w)))) w)).
Proof.
  intros Hk Hs. unfold close. run_m.
  destruct (PROTOCOL_STATES.eqb (state (this w)) PROTOCOL_STATES.CLOSED) eqn:E;
    [apply state_eqb_eq in E; contradiction |].
  rewrite Hk. rewrite _closeConnection_spec. reflexivity.
Qed.

(** C10 (as amended): close() before the handshake completed. With
    [sessionKeys] null and the state not CLOSED, close() returns without
    raising; no CLOSE frame is built (no library call is made, nothing is
    sent); the state becomes CLOSED and the connection is dropped; the
    connection's idle timer, the one [timeoutId] names, is cancelled and every
    other armed timer stays armed; and a registered disconnect handler is
    called at least once. *)
Theorem close_before_handshake_completes (stack : nat) (w : World) :
  sessionKeys (this w) = None ->
  state (this w) <> PROTOCOL_STATES.CLOSED ->
  let w' := snd (close stack w) in
  fst (close stack w) = Normal tt /\
  env w' = env w /\
  state (this w') = PROTOCOL_STATES.CLOSED /\
  connection (this w') = None /\
  timeoutId (this w') = None /\
  timers w' = match timeoutId (this w) with
              | Some id => delete id (timers w)
              | None => timers w
              end /\
  (forall id, timeoutId (this w) = Some id -> timers w' !! id = None) /\
  (onDisconnect (this w) = true ->
   (disconnects (events w) < disconnects (events w'))%nat).
Proof.
  intros Hk Hs w'. unfold w'. rewrite close_without_sessionKeys by assumption.
  unfold closed_world. run_m.
  repeat (split; [reflexivity |]).
  split.
  - intros id Hid. rewrite Hid. apply lookup_delete_eq.
  - intros Hd. rewrite Hd, disconnects_app, disconnects_close_events.
    destruct (connection (this w)); lia.
Qed.

(** C8: receive() as the code has it. In every state, CONNECTED or not,
    receive() returns a fresh pending promise, arms a timer for it and queues
    it at the back of [messageQueue]; it never fails with 'Invalid protocol
    state' and it leaves the state as it was. *)
Theorem receive_registers_in_every_state (w : World) :
  exists w',
    receive w = (Normal (next_promise w), w') /\
    state (this w') = state (this w) /\
    messageQueue (this w') =
      messageQueue (this w) ++ [mkWaiter (next_promise w) (next_timer w)] /\
    promises w' = <[next_promise w := Pending]> (promises w) /\
    timers w' =
      <[next_timer w := mkTimer (ReceiveTimeoutCallback (next_promise w))
                          (Options.timeout (options (this w)))]> (timers w).
Proof.
  eexists. unfold receive. run_m. repeat split; reflexivity.
Qed.
End Closing.

(** ** The protocol on concrete inputs *)

Lemma parseMessage_verifies_before_decrypting_witness :
  (74 <= length (repeat x00 74))%nat /\
  exists r later,
    parseMessage (repeat x00 74) ReferenceRuntime.key_a ReferenceRuntime.key_b
      ReferenceRuntime.env0 =
    (r, logged ReferenceRuntime.env0
          (CallHmac ReferenceRuntime.key_b (take 42 (repeat x00 74)) :: later)) /\
    r = Throw (Error "HMAC verification failed") /\ later = [].
Proof.
  split; [cbn; lia |].
  destruct (parseMessage_verifies_before_decrypting (L := reference_laws)
              (repeat x00 74) ReferenceRuntime.key_a ReferenceRuntime.key_b
              ReferenceRuntime.env0)
    as (r & later & Hrun & _ & Hfail); [cbn; lia |].
  exists r, later. split; [exact Hrun |].
  apply Hfail. vm_compute. discriminate.
Defined.

Lemma deriveKeys_is_hkdf_split_and_deterministic_witness :
  fst (deriveKeys ReferenceRuntime.key_a None None ReferenceRuntime.env0) =
  fst (deriveKeys ReferenceRuntime.key_a None None
         (logged ReferenceRuntime.env0 [CallRandomBytes 12])).
Proof.
  destruct (deriveKeys_is_hkdf_split_and_deterministic (L := reference_laws)
              ReferenceRuntime.key_a None None
              (logged ReferenceRuntime.env0 [CallRandomBytes 12])
              ReferenceRuntime.env0) as (_ & Hsame & _).
  exact Hsame.
Defined.




(** C10, the claim as stated, fails on its timers: after connect(),
    receive() and close() with [sessionKeys] still null, the timer of the
    receive() handle is still armed, and fires later. *)
Lemma close_leaves_receive_timer_armed :
  let w := run 3 [CallConnect "host" 4433 None; CallReceive] (ReferenceRuntime.fresh true) in
  let w' := snd (close 3 w) in
  sessionKeys (this w) = None /\
  state (this w) = PROTOCOL_STATES.CONNECTED /\
  fst (close 3 w) = Normal tt /\
  state (this w') = PROTOCOL_STATES.CLOSED /\
  timers w' !! 2%nat = Some (mkTimer (ReceiveTimeoutCallback 0) 30000) /\
  promises w' !! 0%nat = Some Pending /\
  promises (snd (timer_fires 3 2 w')) !! 0%nat = Some (Rejected (Error "Receive timeout")).
Proof. vm_compute; repeat split. Qed.

Lemma close_before_handshake_completes_witness :
  let w := run 3 [CallConnect "host" 4433 None; CallReceive] (ReferenceRuntime.fresh true) in
  state (this (snd (close 3 w))) = PROTOCOL_STATES.CLOSED /\
  timers (snd (close 3 w)) !! 1%nat = None.
Proof.
  intros w.
  pose proof (close_before_handshake_completes 3 w) as H.
  assert (Hk : sessionKeys (this w) = None) by (vm_compute; reflexivity).
  assert (Hs : state (this w) <> PROTOCOL_STATES.CLOSED) by (vm_compute; discriminate).
  destruct (H Hk Hs) as (_ & _ & Hc & _ & _ & _ & Ht & _).
  split; [exact Hc |]. apply Ht. vm_compute. reflexivity.
Defined.

Section AckTimer.
Context {R : NodeRuntime}.

(** When the timer of a send fires: the send's promise is rejected, and the
    key deleted from [pendingRequests] is [this.sequenceNumber - 1] as it is at
    that moment. *)
Lemma ack_timer_deletes_current_key (stack : nat) (w : World) (t p : nat) (d : Z) :
  timers w !! t = Some (mkTimer (AckTimeoutCallback p) d) ->
  promises w !! p = Some Pending ->
  promises (snd (timer_fires stack t w)) !! p =
    Some (Rejected (Error "Message acknowledgment timeout")) /\
  (forall q, q <> p ->
     promises (snd (timer_fires stack t w)) !! q = promises w !! q) /\
  pendingRequests (this (snd (timer_fires stack t w))) =
    delete (Number_pred (sequenceNumber (this w))) (pendingRequests (this w)).
Proof.
  intros Ht Hp. unfold timer_fires. run_m. rewrite Ht. cbn [callback]. run_m.
  rewrite Hp. run_m.
  split; [apply lookup_insert_eq |].
  split; [| reflexivity].
  intros q Hq. apply lookup_insert_ne. congruence.
Qed.
End AckTimer.

(** C4: the send timeout on the code. Two sends, no ACK; the first send's
    timer fires. Its promise is rejected with 'Message acknowledgment
    timeout', but the entry removed from [pendingRequests] is the one of the
    second send (key 2, the latest sequence number), and the first send's own
    entry (key 1) stays. *)
Theorem ack_timeout_deletes_the_latest_entry :
  let w0 := ReferenceRuntime.with_session (ReferenceRuntime.connected 3) in
  let a := send (JString "a") w0 in
  let b := send (JString "b") (snd a) in
  let w := snd (timer_fires 3 3 (snd b)) in
  fst a = Normal 0%nat /\ fst b = Normal 1%nat /\
  pendingRequests (this (snd b)) !! 1 = Some (mkWaiter 0 3) /\
  pendingRequests (this (snd b)) !! 2 = Some (mkWaiter 1 5) /\
  promises w !! 0%nat = Some (Rejected (Error "Message acknowledgment timeout")) /\
  pendingRequests (this w) !! 1 = Some (mkWaiter 0 3) /\
  pendingRequests (this w) !! 2 = None /\
  promises w !! 1%nat = Some Pending.
Proof.
  cbv zeta.
  split; [vm_compute; reflexivity |].
  split; [vm_compute; reflexivity |].
  set (wb := snd (send (JString "b") _)).
  assert (H1 : pendingRequests (this wb) !! 1 = Some (mkWaiter 0 3))
    by (vm_compute; reflexivity).
  assert (H2 : pendingRequests (this wb) !! 2 = Some (mkWaiter 1 5))
    by (vm_compute; reflexivity).
  assert (Hseq : Number_pred (sequenceNumber (this wb)) = 2)
    by (vm_compute; reflexivity).
  assert (Ht : timers wb !! 3%nat = Some (mkTimer (AckTimeoutCallback 0) 30000))
    by (vm_compute; reflexivity).
  assert (Hp0 : promises wb !! 0%nat = Some Pending) by (vm_compute; reflexivity).
  assert (Hp1 : promises wb !! 1%nat = Some Pending) by (vm_compute; reflexivity).
  clearbody wb.
  destruct (ack_timer_deletes_current_key 3 wb 3 0 30000 Ht Hp0)
    as (Hrej & Hother & Hdel).
  rewrite Hseq in Hdel.
  split; [exact H1 |]. split; [exact H2 |]. split; [exact Hrej |].
  rewrite Hdel.
  split; [rewrite lookup_delete_ne by discriminate; exact H1 |].
  split; [apply lookup_delete_eq |].
  rewrite Hother by discriminate. exact Hp1.
Qed.

Section CloseOnAConnection.
Context {R : NodeRuntime}.

(** close() on an object that holds the connection [connect()] made: the
    disconnect handler runs once for each nested [_closeConnection]. *)
Lemma close_connected_notifies (stack : nat) (w : World) (c : Connection) :
  sessionKeys (this w) = None ->
  state (this w) <> PROTOCOL_STATES.CLOSED ->
  connection (this w) = Some c ->
  onDisconnect (this w) = true ->
  state (this (snd (close stack w))) = PROTOCOL_STATES.CLOSED /\
  connection (this (snd (close stack w))) = None /\
  disconnects (events (snd (close stack w))) = (disconnects (events w) + S stack)%nat.
Proof.
  intros Hk Hs Hc Hd.
  rewrite close_without_sessionKeys by assumption.
  unfold closed_world. run_m. rewrite Hc, Hd.
  repeat split.
  rewrite disconnects_app, disconnects_close_events. reflexivity.
Qed.
End CloseOnAConnection.

(** C6: close() on the code. A fresh object with its handlers set, connect(),
    then close(): the state ends CLOSED and the connection is dropped, but the
    disconnect notification fires once per nested [_closeConnection] frame,
    [stack + 1] times, not exactly once. *)
Theorem close_after_connect_notifies_once_per_frame (stack : nat) :
  let w := snd (close stack (ReferenceRuntime.connected stack)) in
  state (this w) = PROTOCOL_STATES.CLOSED /\
  connection (this w) = None /\
  disconnects (events w) = S stack.
Proof.
  intros w. unfold w.
  assert (He : disconnects (events (ReferenceRuntime.connected stack)) = 0%nat)
    by (vm_compute; reflexivity).
  rewrite <- (Nat.add_0_l (S stack)), <- He.
  apply (close_connected_notifies stack (ReferenceRuntime.connected stack)
           (mkConnection "host" 4433)).
  - vm_compute; reflexivity.
  - vm_compute; discriminate.
  - vm_compute; reflexivity.
  - vm_compute; reflexivity.
Qed.

(** A second way to more than one notification: after close(), an inbound
    CLOSE frame runs [_closeConnection] again ([_handleClose] has no guard on
    the state, [_handleError] has one). *)
Lemma inbound_close_after_close_notifies_again :
  let w0 := ReferenceRuntime.with_session (ReferenceRuntime.fresh true) in
  let w1 := snd (close 3 w0) in
  let w2 := snd (_processMessage 3
                   (ReferenceRuntime.frame MESSAGE_TYPES.CLOSE 1
                      (JObject [("reason", JString "Client disconnect")])) w1) in
  state (this w1) = PROTOCOL_STATES.CLOSED /\
  disconnects (events w1) = 1%nat /\
  disconnects (events w2) = 2%nat.
Proof. vm_compute. repeat split. Qed.

(** C2, the claim as stated, fails: initialize() sets [remoteSequenceNumber]
    back to 0 and leaves the session keys in place, so a frame that has been
    accepted is accepted a second time. *)
Lemma initialize_lets_an_accepted_frame_in_again :
  let w := ReferenceRuntime.with_session (ReferenceRuntime.connected 3) in
  let f := ReferenceRuntime.frame MESSAGE_TYPES.DATA 5 ReferenceRuntime.test_payload in
  let ops := [Inbound f; CallInitialize; Inbound f] in
  accepted_numbers 3 ops w = [5; 5] /\
  ~ Sorted.StronglySorted Z.lt (accepted_numbers 3 ops w) /\
  remoteSequenceNumber (this (run 3 [Inbound f] w)) = 5 /\
  remoteSequenceNumber (this (run 3 [Inbound f; CallInitialize] w)) = 0 /\
  sessionKeys (this (run 3 [Inbound f; CallInitialize] w)) = sessionKeys (this w) /\
  remoteSequenceNumber (this (run 3 ops w)) = 5.
Proof.
  cbv zeta.
  match goal with
  | |- ?l = _ /\ _ => assert (H : l = [5; 5]) by (vm_compute; reflexivity)
  end.
  split; [exact H |].
  split.
  { rewrite H. clear H. intros Hs. inversion Hs as [| x l _ Hall]; subst.
    inversion Hall as [| y l' Hlt _]; subst. clear - Hlt. lia. }
  clear H.
  split; [vm_compute; reflexivity |].
  split; [vm_compute; reflexivity |].
  split; [vm_compute; reflexivity |].
  vm_compute; reflexivity.
Qed.

(** connect() on an object without a key pair runs initialize(), with the
    same effect. *)
Lemma connect_without_key_pair_lets_an_accepted_frame_in_again :
  let w := ReferenceRuntime.with_session (ReferenceRuntime.fresh true) in
  let f := ReferenceRuntime.frame MESSAGE_TYPES.DATA 5 ReferenceRuntime.test_payload in
  keyPair (this w) = None /\
  accepted_numbers 3 [Inbound f; CallConnect "host" 4433 None; Inbound f] w = [5; 5].
Proof. split; vm_compute; reflexivity. Qed.

Lemma inbound_sequence_numbers_strictly_increase_witness :
  let w := ReferenceRuntime.with_session (ReferenceRuntime.connected 3) in
  let ops := [Inbound (ReferenceRuntime.frame MESSAGE_TYPES.ACK 5 ReferenceRuntime.test_payload);
              Inbound (ReferenceRuntime.frame MESSAGE_TYPES.ACK 3 ReferenceRuntime.test_payload);
              CallReceive;
              Inbound (ReferenceRuntime.frame MESSAGE_TYPES.ACK 9 ReferenceRuntime.test_payload)] in
  accepted_numbers 3 ops w = [5; 9] /\
  Sorted.StronglySorted Z.lt (accepted_numbers 3 ops w).
Proof.
  intros w ops. split; [vm_compute; reflexivity |].
  refine (proj1 (proj2 (inbound_sequence_numbers_strictly_increase 3 w ops _ _))).
  - vm_compute; discriminate.
  - unfold ops. cbn [In]. intros [H | [H | [H | [H | []]]]]; discriminate H.
Defined.

(** * Further properties

    What the rest of [crypto.js] and [protocol.js] does: the codec's helper
    functions and their failures, and the methods of the connection object one
    by one and in sequence. *)

#[global] Hint Unfold no_sessionKeys sequence_from idle_timer_named : invariants.

(** ** More on the codec *)

(** The value of [n] bytes is below [256 ^ n]. *)
Lemma be_value_bound (b : bytes) : 0 <= be_value b < 256 ^ Z.of_nat (length b).
Proof.
  induction b as [| x b IH] using rev_ind.
  - unfold be_value. simpl. lia.
  - rewrite be_value_app, length_app. simpl length.
    replace (Z.of_nat (length b + 1)) with (Z.of_nat (length b) + 1) by lia.
    rewrite Z.pow_add_r by lia. change (256 ^ Z.of_nat 1) with 256.
    change (256 ^ 1) with 256.
    assert (Hx : 0 <= be_value [x] < 256).
    { unfold be_value. simpl. pose proof (Byte.to_N_bounded x). lia. }
    nia.
Qed.

(** A field that lies within the first [n] bytes can be read from them. *)
Lemma field_within_prefix (b : bytes) (i k n : nat) :
  (i + k <= n)%nat -> take k (drop i (take n b)) = take k (drop i b).
Proof.
  intros H. rewrite skipn_firstn_comm, firstn_firstn.
  replace (Nat.min k (n - i)) with k by lia. reflexivity.
Qed.

Lemma in_range_true (lo hi x : Z) : lo <= x < hi -> (lo <=? x) && (x <? hi) = true.
Proof. intros H. apply andb_true_iff. split; [apply Z.leb_le | apply Z.ltb_lt]; lia. Qed.

Lemma in_range_false (lo hi x : Z) : ~ lo <= x < hi -> (lo <=? x) && (x <? hi) = false.
Proof.
  intros H. apply andb_false_iff.
  destruct (Z_le_gt_dec lo x); [right; apply Z.ltb_ge | left; apply Z.leb_gt]; lia.
Qed.

(** A field out of its range makes [createMessageHeader] throw. *)
Lemma createMessageHeader_out_of_range (T S L : Z) :
  ~ (0 <= T < 256 /\ 0 <= S < 2 ^ 64 /\ 0 <= L < 2 ^ 32) ->
  createMessageHeader T S L = Throw (RangeError "ERR_OUT_OF_RANGE value").
Proof.
  intros H. unfold createMessageHeader.
  unfold writeUInt8, writeBigUInt64BE, writeUInt32BE, write_uint_be.
  change (256 ^ Z.of_nat 1) with 256.
  change (256 ^ Z.of_nat 8) with (2 ^ 64).
  change (256 ^ Z.of_nat 4) with (2 ^ 32).
  destruct (Z_le_gt_dec 0 T) as [HT0 |]; [destruct (Z_lt_ge_dec T 256) as [HT1 |] |].
  2,3: rewrite (in_range_false 0 256 T) by lia; reflexivity.
  rewrite (in_range_true 0 256 T) by lia.
  destruct (Z_le_gt_dec 0 S) as [HS0 |]; [destruct (Z_lt_ge_dec S (2 ^ 64)) as [HS1 |] |].
  2,3: rewrite (in_range_false 0 (2 ^ 64) S) by lia; reflexivity.
  rewrite (in_range_true 0 (2 ^ 64) S) by lia.
  rewrite (in_range_false 0 (2 ^ 32) L) by lia.
  reflexivity.
Qed.

Section CodecExtras.
Context {R : NodeRuntime} {L : NodeRuntimeLaws R}.

(** The outcome of [parseMessage] does not depend on the environment. *)
Lemma parseMessage_outcome (b ek mk : bytes) (e e' : Env) :
  fst (parseMessage b ek mk e) = fst (parseMessage b ek mk e').
Proof.
  destruct (Nat.lt_ge_cases (length b) 74) as [Hs | Hl].
  - rewrite !parseMessage_short by exact Hs. reflexivity.
  - rewrite !parseMessage_long by exact Hl. cbv zeta.
    destruct (timingSafeEqual _ _) as [[|] | err]; try reflexivity.
    destruct (parseMessageHeader _) as [h | err]; [| reflexivity].
    destruct (aes_256_gcm_decrypt _ _ _ _) as [pt |]; [| reflexivity].
    destruct (JSON_parse _); reflexivity.
Qed.

(** X1: encrypt then decrypt. With a 32-byte key, and an IV of 12 bytes when
    one is passed, [encrypt] returns; the IV it reports is the one passed (no
    entropy is used then), or 12 fresh bytes; the tag has 16 bytes; and
    [decrypt] of the hex ciphertext under the same key, the reported IV and
    tag returns the plaintext. *)
Theorem encrypt_decrypt_round_trip
    (plaintext : string) (key : bytes) (iv_arg : option bytes) (e : Env) :
  length key = 32%nat ->
  (forall i, iv_arg = Some i -> length i = 12%nat) ->
  exists d e1,
    encrypt plaintext key iv_arg e = (Normal d, e1) /\
    length (iv d) = 12%nat /\ length (tag d) = 16%nat /\
    (forall i, iv_arg = Some i -> iv d = i /\ cursor e1 = cursor e) /\
    (iv_arg = None ->
     iv d = map (entropy e) (seq (cursor e) 12) /\ cursor e1 = (cursor e + 12)%nat) /\
    forall e2, fst (decrypt (encrypted d) key (iv d) (tag d) e2) = Normal plaintext.
Proof.
  intros Hkey Hiv.
  assert (Hdec : forall i ct tg e2,
             aes_256_gcm_decrypt key i tg ct = Some (list_byte_of_string plaintext) ->
             fst (decrypt (hex_encode ct) key i tg e2) = Normal plaintext).
  { intros i ct tg e2 H. unfold decrypt, bind, log_call, modify, ret. cbn [fst snd].
    rewrite hex_decode_encode, H. cbn [fst].
    rewrite string_of_list_byte_of_string. reflexivity. }
  unfold encrypt. destruct iv_arg as [i |].
  - specialize (Hiv i eq_refl).
    destruct (aes_256_gcm_inverse key i (list_byte_of_string plaintext) Hkey Hiv)
      as (ct & tg & Henc & Htag & Hd).
    unfold bind, ret, log_call, modify. cbn [fst snd]. rewrite Henc.
    eexists _, _. split; [reflexivity |]. cbn [iv tag encrypted cursor].
    split; [exact Hiv |]. split; [exact Htag |].
    split; [intros i' [= <-]; split; reflexivity |].
    split; [discriminate |].
    intros e2. apply Hdec. exact Hd.
  - unfold bind, randomBytes, ret, log_call, modify. cbn [fst snd entropy cursor crypto_calls].
    set (i := map (entropy e) (seq (cursor e) PROTOCOL_CONSTANTS.IV_LENGTH)).
    assert (Hi : length i = 12%nat) by (unfold i; rewrite length_map, length_seq; reflexivity).
    destruct (aes_256_gcm_inverse key i (list_byte_of_string plaintext) Hkey Hi)
      as (ct & tg & Henc & Htag & Hd).
    rewrite Henc.
    eexists _, _. split; [reflexivity |]. cbn [iv tag encrypted cursor].
    split; [exact Hi |]. split; [exact Htag |].
    split; [discriminate |].
    split; [intros _; split; reflexivity |].
    intros e2. apply Hdec. exact Hd.
Qed.

(** X2: what [verifyHMAC] accepts. It computes the HMAC of the data under the
    key and compares: the answer is true exactly when the expected value is
    that HMAC, false for any other 32-byte value, and a value of another
    length makes it throw (the RangeError of [crypto.timingSafeEqual]) instead
    of answering false. In particular the value [generateHMAC] returns, which
    has 32 bytes, verifies. *)
Theorem verifyHMAC_accepts_exactly_the_hmac (data key expected : bytes) (e : Env) :
  fst (verifyHMAC data key expected e) =
    (if (length expected =? 32)%nat
     then Normal (bool_decide (expected = hmac_sha256 key data))
     else Throw (RangeError "Input buffers must have the same byte length")) /\
  exists h, fst (generateHMAC data key e) = Normal h /\
            length h = 32%nat /\
            forall e', fst (verifyHMAC data key h e') = Normal true.
Proof.
  assert (Hv : forall x e0, fst (verifyHMAC data key x e0) =
                            timingSafeEqual (hmac_sha256 key data) x).
  { intros x e0. unfold verifyHMAC, generateHMAC, bind, log_call, modify, ret, lift_result.
    reflexivity. }
  split.
  - rewrite Hv. unfold timingSafeEqual. rewrite hmac_sha256_length.
    rewrite (Nat.eqb_sym 32). destruct (length expected =? 32)%nat; [| reflexivity].
    f_equal. apply bool_decide_ext. split; congruence.
  - exists (hmac_sha256 key data). split; [reflexivity |].
    split; [apply hmac_sha256_length |].
    intros e'. rewrite Hv. apply timingSafeEqual_same.
Qed.

(** X3: [parseMessage] checks the HMAC and the GCM tag and nothing else about
    the header. A frame whose 14 header bytes hold any version [v], any type
    [T] and any declared payload length [Len], followed by a 12-byte IV, a
    ciphertext and 16-byte tag that decrypt under the key to JSON text, and
    the HMAC of all of that, parses: the header fields come back as they are
    (the sequence number through [Number]), the payload is the parsed text.
    Neither the version nor the type nor the declared length is checked
    against anything. *)
Theorem parseMessage_accepts_any_header_fields
    (v T S Len : Z) (iv0 ct tg pt : bytes) (P : JSValue) (ek mk : bytes) (e : Env) :
  0 <= v < 256 -> 0 <= T < 256 -> 0 <= S < 2 ^ 64 -> 0 <= Len < 2 ^ 32 ->
  length iv0 = 12%nat -> length tg = 16%nat ->
  aes_256_gcm_decrypt ek iv0 tg ct = Some pt ->
  JSON_parse (string_of_list_byte pt) = Some P ->
  let header := be_bytes 1 v ++ be_bytes 1 T ++ be_bytes 8 S ++ be_bytes 4 Len in
  let body := header ++ iv0 ++ ct ++ tg in
  fst (parseMessage (body ++ hmac_sha256 mk body) ek mk e) =
  Normal (Header.mk v T (Number_of_BigInt S) Len, P).
Proof.
  intros Hv HT HS HL Hiv Htg Hdec Hparse header body.
  assert (Hh : length header = 14%nat) by (unfold header; lengths).
  assert (Hm : length (hmac_sha256 mk body) = 32%nat) by apply hmac_sha256_length.
  assert (Hframe : body ++ hmac_sha256 mk body =
                   header ++ (iv0 ++ ct ++ tg) ++ hmac_sha256 mk body).
  { unfold body. rewrite <- !app_assoc. reflexivity. }
  rewrite Hframe.
  rewrite parseMessage_long by (rewrite !length_app; lia).
  rewrite split_message_concat by assumption.
  cbn [part_header part_iv part_encryptedPayload part_tag part_hmac part_hmacData].
  fold body. rewrite timingSafeEqual_same.
  unfold header at 1. rewrite <- (app_nil_r (be_bytes 4 _)).
  rewrite parseMessageHeader_layout by assumption.
  rewrite Hdec, Hparse. reflexivity.
Qed.
End CodecExtras.

(** X4: the header round trip. For a type below 256, a sequence number below
    2^64 and a payload length below 2^32, [createMessageHeader] returns 14
    bytes, and [parseMessageHeader] reads from them version 1, the type, the
    payload length, and the sequence number as [Number] holds it: itself up
    to 2^53. *)
Theorem createMessageHeader_parseMessageHeader_round_trip (T S Len : Z) :
  0 <= T < 256 -> 0 <= S < 2 ^ 64 -> 0 <= Len < 2 ^ 32 ->
  exists header,
    createMessageHeader T S Len = Normal header /\
    length header = 14%nat /\
    parseMessageHeader header = Normal (Header.mk 1 T (Number_of_BigInt S) Len) /\
    (S <= 2 ^ 53 -> parseMessageHeader header = Normal (Header.mk 1 T S Len)).
Proof.
  intros HT HS HL. eexists. split; [apply createMessageHeader_layout; assumption |].
  split; [lengths |].
  assert (Hp : parseMessageHeader
                 (be_bytes 1 PROTOCOL_CONSTANTS.VERSION ++ be_bytes 1 T ++
                  be_bytes 8 S ++ be_bytes 4 Len) =
               Normal (Header.mk 1 T (Number_of_BigInt S) Len)).
  { rewrite <- (app_nil_r (be_bytes 4 _)).
    apply parseMessageHeader_layout; try assumption. cbv; split; congruence. }
  split; [exact Hp |].
  intros H53. rewrite Hp, Number_of_BigInt_exact by lia. reflexivity.
Qed.

(** X5: when [createMessageHeader] throws. It returns a header exactly when
    the message type is in [0, 256), the sequence number in [0, 2^64) and the
    payload length in [0, 2^32); every other input raises the RangeError of
    the buffer write that refuses it. *)
Theorem createMessageHeader_returns_iff_in_range (T S Len : Z) :
  ((exists header, createMessageHeader T S Len = Normal header) <->
   (0 <= T < 256 /\ 0 <= S < 2 ^ 64 /\ 0 <= Len < 2 ^ 32)) /\
  ((forall header, createMessageHeader T S Len <> Normal header) ->
   createMessageHeader T S Len = Throw (RangeError "ERR_OUT_OF_RANGE value")).
Proof.
  assert (Hdec : (0 <= T < 256 /\ 0 <= S < 2 ^ 64 /\ 0 <= Len < 2 ^ 32) \/
                 ~ (0 <= T < 256 /\ 0 <= S < 2 ^ 64 /\ 0 <= Len < 2 ^ 32)) by lia.
  split; [split |].
  - intros [header Hh]. destruct Hdec as [Hin | Hout]; [exact Hin |].
    rewrite createMessageHeader_out_of_range in Hh by exact Hout. discriminate.
  - intros (HT & HS & HL). eexists. apply createMessageHeader_layout; assumption.
  - intros Hno. destruct Hdec as [(HT & HS & HL) | Hout].
    + exfalso. eapply Hno. apply createMessageHeader_layout; assumption.
    + apply createMessageHeader_out_of_range. exact Hout.
Qed.

(** X6: [parseMessageHeader] looks at the length and at nothing else. Fewer
    than 14 bytes raise 'Invalid header length'; any 14 bytes or more parse,
    whatever the version and type bytes are, and only the first 14 bytes
    count. The fields read are within the ranges of their widths. *)
Theorem parseMessageHeader_checks_only_the_length (b : bytes) :
  ((length b < 14)%nat -> parseMessageHeader b = Throw (Error "Invalid header length")) /\
  ((14 <= length b)%nat ->
   exists h,
     parseMessageHeader b = Normal h /\
     parseMessageHeader (take 14 b) = Normal h /\
     0 <= Header.version h < 256 /\
     0 <= Header.messageType h < 256 /\
     0 <= Header.payloadLength h < 2 ^ 32).
Proof.
  split; intros Hlen; unfold parseMessageHeader.
  - replace (length b <? 14)%nat with true by (symmetry; apply Nat.ltb_lt; lia).
    reflexivity.
  - replace (length b <? 14)%nat with false by (symmetry; apply Nat.ltb_ge; lia).
    replace (length (take 14 b) <? 14)%nat with false
      by (symmetry; apply Nat.ltb_ge; rewrite length_take; lia).
    eexists. split; [reflexivity |].
    unfold readUInt8, readBigUInt64BE, readUInt32BE, read_uint_be.
    cbn [Header.version Header.messageType Header.payloadLength].
    split.
    { rewrite !(field_within_prefix b) by lia. reflexivity. }
    assert (H1 : forall i, (i < length b)%nat ->
                   256 ^ Z.of_nat (length (take 1 (drop i b))) = 256).
    { intros i Hi. rewrite length_take, length_drop.
      replace (1 `min` (length b - i))%nat with 1%nat by lia. reflexivity. }
    repeat split; try apply be_value_bound.
    + pose proof (be_value_bound (take 1 (drop 0 b))) as Hb.
      rewrite H1 in Hb by lia. lia.
    + pose proof (be_value_bound (take 1 (drop 1 b))) as Hb.
      rewrite H1 in Hb by lia. lia.
    + pose proof (be_value_bound (take 4 (drop 10 b))) as Hb.
      rewrite length_take, length_drop in Hb.
      replace (4 `min` (length b - 10))%nat with 4%nat in Hb by lia.
      change (256 ^ Z.of_nat 4) with (2 ^ 32) in Hb. lia.
Qed.

Section CodecFailures.
Context {R : NodeRuntime}.

(** X7: [createMessage] fails before it touches the crypto library. A
    payload that [JSON.stringify] turns into [undefined] raises a TypeError,
    and a type, sequence number or payload length that does not fit its header
    field raises a RangeError; in both cases no random bytes have been drawn
    and no cipher or HMAC call has been made: the environment is as it
    was. *)
Theorem createMessage_fails_before_encrypting
    (T S : Z) (P : JSValue) (ek hk : bytes) (e : Env) :
  (JSON_stringify P = None ->
   createMessage T S P ek hk e =
   (Throw (TypeError "ERR_INVALID_ARG_TYPE Buffer.from(undefined)"), e)) /\
  (forall json,
     JSON_stringify P = Some json ->
     ~ (0 <= T < 256 /\ 0 <= S < 2 ^ 64 /\
        Z.of_nat (length (list_byte_of_string json)) < 2 ^ 32) ->
     createMessage T S P ek hk e = (Throw (RangeError "ERR_OUT_OF_RANGE value"), e)).
Proof.
  split.
  - intros H. unfold createMessage. rewrite H. reflexivity.
  - intros json H Hout. unfold createMessage. rewrite H.
    rewrite createMessageHeader_out_of_range by lia.
    reflexivity.
Qed.
End CodecFailures.

(** ** More on the connection object *)

Section MoreMethodFacts.
Context {R : NodeRuntime}.

Lemma _handleError_spec (stack : nat) (error : JSError) (w : World) :
  _handleError stack error w =
  (Normal tt,
   if PROTOCOL_STATES.eqb (state (this w)) PROTOCOL_STATES.CLOSED
   then reported error w
   else closed_world stack (reported error w)).
Proof.
  unfold _handleError, reported. run_m.
  destruct (onError (this w)); run_m;
    (destruct (PROTOCOL_STATES.eqb (state (this w)) PROTOCOL_STATES.CLOSED);
     [| rewrite _closeConnection_spec]; rewrite <- ?app_assoc; reflexivity).
Qed.

(** A buffer that is not accepted: [_processMessage] does what [_handleError]
    does with some error, on an object it has not touched. *)
Lemma processMessage_rejected (stack : nat) (b : bytes) (w : World) :
  accepted w b = None ->
  exists error w0,
    this w0 = this w /\ timers w0 = timers w /\ events w0 = events w /\
    promises w0 = promises w /\
    _processMessage stack b w = _handleError stack error w0.
Proof.
  unfold accepted, _processMessage. run_m.
  destruct (sessionKeys (this w)) as [keys |].
  2:{ intros _. eexists _, w. repeat split. }
  destruct (parseMessage b (encryptionKey keys) (hmacKey keys) (env w))
    as [[[h p] | err] e'].
  2:{ intros _. run_m. eexists _, (with_env (fun _ => e') w). repeat split. }
  run_m.
  destruct (Header.sequenceNumber h <=? remoteSequenceNumber (this w)); [| discriminate].
  intros _. eexists _, (with_env (fun _ => e') w). repeat split.
Qed.

Lemma processMessage_returns (stack : nat) (b : bytes) (w : World) :
  fst (_processMessage stack b w) = Normal tt.
Proof.
  unfold _processMessage, try_catch.
  match goal with
  | |- context [match ?m w with _ => _ end] => destruct (m w) as [[[] | err] w']
  end.
  - reflexivity.
  - rewrite _handleError_spec. reflexivity.
Qed.
End MoreMethodFacts.

Lemma mock_response_not_accepted {R : NodeRuntime} (w : World) :
  accepted w (list_byte_of_string "Mock response data") = None.
Proof.
  unfold accepted. destruct (sessionKeys (this w)) as [keys |]; [| reflexivity].
  rewrite parseMessage_short by (cbn; lia). reflexivity.
Qed.

(** The timer of the mock transport: when it fires, the mock response is
    handed to [_processMessage], which refuses it. *)
Lemma simulate_response_fires {R : NodeRuntime}
    (stack : nat) (id : nat) (w : World) (requestData : bytes) (d : Z) :
  timers w !! id = Some (mkTimer (SimulateResponseCallback requestData) d) ->
  exists error w0,
    this w0 = this w /\ timers w0 = delete id (timers w) /\ events w0 = events w /\
    promises w0 = promises w /\
    timer_fires stack id w = _handleError stack error w0.
Proof.
  intros Ht.
  assert (Hfire : timer_fires stack id w =
                  _processMessage stack (list_byte_of_string "Mock response data")
                    (with_timers (delete id) w)).
  { unfold timer_fires. unfold bind at 1. unfold gets. cbn [fst snd].
    rewrite Ht. cbn [callback]. unfold bind, clearTimeout, modify. cbn [fst snd].
    reflexivity. }
  destruct (processMessage_rejected stack (list_byte_of_string "Mock response data")
              (with_timers (delete id) w) (mock_response_not_accepted _))
    as (error & w0 & Hthis & Htm & Hev & Hpr & Heq).
  exists error, w0. rewrite Hfire, Heq. repeat split; assumption.
Qed.

Section InboundExtras.
Context {R : NodeRuntime}.

(** X8: [_processMessage] never raises. Whatever the buffer and whatever
    the object's state, it returns. And a buffer that is not accepted (no
    session keys, a parse failure, a sequence number that is not above
    [remoteSequenceNumber]) closes the connection: the error is logged and
    handed to the error handler if one is installed, the state ends CLOSED,
    and [remoteSequenceNumber] and the session keys stay as they were. *)
Theorem processMessage_never_raises_and_rejection_closes
    (stack : nat) (b : bytes) (w : World) :
  fst (_processMessage stack b w) = Normal tt /\
  (accepted w b = None ->
   let w' := snd (_processMessage stack b w) in
   state (this w') = PROTOCOL_STATES.CLOSED /\
   remoteSequenceNumber (this w') = remoteSequenceNumber (this w) /\
   sessionKeys (this w') = sessionKeys (this w) /\
   exists error rest,
     events w' = events w ++ ConsoleError error :: rest /\
     (onError (this w) = true -> exists rest', rest = ErrorEvent error :: rest')).
Proof.
  split; [apply processMessage_returns |].
  intros Hacc w'. unfold w'.
  destruct (processMessage_rejected stack b w Hacc)
    as (error & w0 & Hthis & _ & Hev & _ & Heq).
  rewrite Heq, _handleError_spec. cbn [snd].
  destruct (PROTOCOL_STATES.eqb (state (this w0)) PROTOCOL_STATES.CLOSED) eqn:E.
  - apply state_eqb_eq in E. unfold reported. run_m. rewrite Hthis in *.
    repeat (split; [first [exact E | reflexivity] |]).
    exists error. eexists. rewrite Hev. split; [reflexivity |].
    intros ->. eexists. reflexivity.
  - unfold closed_world, reported. run_m. rewrite Hthis in *.
    repeat (split; [reflexivity |]).
    exists error. eexists. rewrite Hev, <- app_assoc. cbn [app].
    split; [reflexivity |].
    intros ->. eexists. reflexivity.
Qed.

(** X9: an accepted frame of a type the switch does not know. A frame that
    parses under the session keys, with a sequence number above
    [remoteSequenceNumber] and a type other than HANDSHAKE_RESPONSE, DATA, ACK
    and CLOSE (HANDSHAKE_INIT, the type [connect()] itself sends, is one), is
    handled as the error 'Unknown message type': by then
    [remoteSequenceNumber] has moved to the frame's number, and the connection
    ends CLOSED. *)
Theorem inbound_frame_of_unknown_type_closes
    (stack : nat) (b : bytes) (w : World) (keys : SessionKeys)
    (h : Header.t) (p : JSValue) (e' : Env) :
  sessionKeys (this w) = Some keys ->
  parseMessage b (encryptionKey keys) (hmacKey keys) (env w) = (Normal (h, p), e') ->
  remoteSequenceNumber (this w) < Header.sequenceNumber h ->
  ~ In (Header.messageType h)
       [MESSAGE_TYPES.HANDSHAKE_RESPONSE; MESSAGE_TYPES.DATA;
        MESSAGE_TYPES.ACK; MESSAGE_TYPES.CLOSE] ->
  let w' := snd (_processMessage stack b w) in
  _processMessage stack b w =
    _handleError stack (Error "Unknown message type")
      (with_this (put_remoteSequenceNumber (Header.sequenceNumber h))
         (with_env (fun _ => e') w)) /\
  state (this w') = PROTOCOL_STATES.CLOSED /\
  remoteSequenceNumber (this w') = Header.sequenceNumber h.
Proof.
  intros Hk Hp Hseq Hty w'.
  assert (Heq : _processMessage stack b w =
    _handleError stack (Error "Unknown message type")
      (with_this (put_remoteSequenceNumber (Header.sequenceNumber h))
         (with_env (fun _ => e') w))).
  { unfold _processMessage. run_m. rewrite Hk, Hp. run_m.
    replace (Header.sequenceNumber h <=? remoteSequenceNumber (this w)) with false
      by (symmetry; apply Z.leb_gt; exact Hseq).
    run_m.
    cbn [In] in Hty.
    repeat match goal with
           | |- context [Header.messageType h =? ?c] =>
               replace (Header.messageType h =? c) with false
                 by (symmetry; apply Z.eqb_neq; intros E; apply Hty; rewrite E; tauto)
           end.
    rewrite <- Hk. reflexivity. }
  split; [exact Heq |].
  unfold w'. rewrite Heq, _handleError_spec. cbn [snd].
  match goal with
  | |- context [PROTOCOL_STATES.eqb ?s ?c] => destruct (PROTOCOL_STATES.eqb s c) eqn:E
  end.
  - apply state_eqb_eq in E. split; [exact E | reflexivity].
  - split; reflexivity.
Qed.

(** X10: the mock transport's answer. Whenever a timer armed by [_sendData]
    fires, [_simulateResponse] hands the 18 bytes 'Mock response data' to
    [_processMessage], which cannot accept them: the firing returns, logs an
    error and leaves the state CLOSED; [remoteSequenceNumber] and the session
    keys are unchanged and the timer is gone. *)
Theorem mock_response_closes_the_connection
    (stack : nat) (id : nat) (w : World) (requestData : bytes) (d : Z) :
  timers w !! id = Some (mkTimer (SimulateResponseCallback requestData) d) ->
  let w' := snd (timer_fires stack id w) in
  fst (timer_fires stack id w) = Normal tt /\
  state (this w') = PROTOCOL_STATES.CLOSED /\
  remoteSequenceNumber (this w') = remoteSequenceNumber (this w) /\
  sessionKeys (this w') = sessionKeys (this w) /\
  timers w' !! id = None /\
  exists error rest, events w' = events w ++ ConsoleError error :: rest.
Proof.
  intros Ht w'. unfold w'. clear w'.
  destruct (simulate_response_fires stack id w requestData d Ht)
    as (error & w0 & Hthis & Htm & Hev & _ & Heq).
  rewrite Heq, _handleError_spec. cbn [fst snd].
  split; [reflexivity |].
  assert (Hdel : timers w0 !! id = None) by (rewrite Htm; apply lookup_delete_eq).
  destruct (PROTOCOL_STATES.eqb (state (this w0)) PROTOCOL_STATES.CLOSED) eqn:E.
  - apply state_eqb_eq in E. unfold reported. run_m. rewrite Hthis in *.
    repeat (split; [first [exact E | exact Hdel | reflexivity] |]).
    exists error. eexists. rewrite Hev. reflexivity.
  - unfold closed_world, reported. run_m. rewrite Hthis in *.
    repeat (split; [first [reflexivity | idtac] |]).
    + destruct (timeoutId (this w)) as [t |]; [| exact Hdel].
      destruct (decide (t = id)) as [-> | Hne];
        [apply lookup_delete_eq | rewrite lookup_delete_ne by exact Hne; exact Hdel].
    + exists error. eexists. rewrite Hev, <- app_assoc. cbn [app]. reflexivity.
Qed.
End InboundExtras.

Section SessionKeys.
Context {R : NodeRuntime}.

Lemma inv_closeConnection_noKeys stack : inv no_sessionKeys (_closeConnection stack).
Proof. intros w H. rewrite _closeConnection_spec. exact H. Qed.

Lemma inv_handleError_noKeys stack e : inv no_sessionKeys (_handleError stack e).
Proof.
  intros w H. rewrite _handleError_spec.
  destruct (PROTOCOL_STATES.eqb _ _); exact H.
Qed.

Lemma throws_read_sessionKeys_noKeys : throws no_sessionKeys read_sessionKeys.
Proof.
  intros w H. unfold no_sessionKeys in *. unfold read_sessionKeys. run_m. rewrite H.
  split; [exact H | eexists; reflexivity].
Qed.
#[local] Hint Resolve inv_closeConnection_noKeys inv_handleError_noKeys
  throws_read_sessionKeys_noKeys : inv_db.

Lemma inv_step_noKeys stack op : inv no_sessionKeys (fun w => (Normal tt, step stack op w)).
Proof.
  assert (H : forall A (m : M A), inv no_sessionKeys m ->
                inv no_sessionKeys (fun w => (Normal tt, snd (m w))))
    by (intros A m Hm w Hw; apply Hm; exact Hw).
  destruct op; cbn [step]; apply H.
  - unfold initialize. inv_auto.
  - unfold connect, initialize, _startHandshake. inv_auto.
  - unfold send, send_request, send_register. inv_auto.
  - unfold receive. inv_auto.
  - unfold close. inv_auto.
  - unfold _processMessage. inv_auto.
  - unfold timer_fires, _simulateResponse, _processMessage. inv_auto.
Qed.

Lemma run_noKeys stack ops w : no_sessionKeys w -> no_sessionKeys (run stack ops w).
Proof.
  revert w. induction ops as [| op rest IH]; intros w Hw; [exact Hw |].
  cbn. apply IH. exact (inv_step_noKeys stack op w Hw).
Qed.

Lemma accepted_noKeys w b : no_sessionKeys w -> accepted w b = None.
Proof. intros H. unfold accepted. rewrite H. reflexivity. Qed.

Lemma accepted_numbers_noKeys stack ops w :
  no_sessionKeys w -> accepted_numbers stack ops w = [].
Proof.
  revert w. induction ops as [| op rest IH]; intros w Hw; [reflexivity |].
  cbn [accepted_numbers].
  rewrite IH by exact (inv_step_noKeys stack op w Hw).
  destruct (inbound_frame op w) as [b |]; [| reflexivity].
  rewrite accepted_noKeys by exact Hw. reflexivity.
Qed.

(** X11: the object never establishes session keys by itself. The one
    assignment to [sessionKeys] is in [_handleHandshakeResponse], and
    [_processMessage] gets there only after reading
    [this.sessionKeys.encryptionKey]. So on an object whose [sessionKeys] is
    null, after any sequence of initialize, connect, send, receive, close,
    inbound buffers and timers, [sessionKeys] is still null; no inbound buffer
    has been accepted; any further inbound buffer closes the connection; and
    any further send() fails. *)
Theorem session_keys_are_never_established (stack : nat) (ops : list Op) (w : World) :
  sessionKeys (this w) = None ->
  let w' := run stack ops w in
  sessionKeys (this w') = None /\
  accepted_numbers stack ops w = [] /\
  (forall b, state (this (snd (_processMessage stack b w'))) = PROTOCOL_STATES.CLOSED) /\
  (forall m, exists error, fst (send m w') = Throw error).
Proof.
  intros Hw w'.
  assert (Hw' : no_sessionKeys w') by (apply run_noKeys; exact Hw).
  split; [exact Hw' |].
  split; [apply accepted_numbers_noKeys; exact Hw |].
  split.
  - intros b.
    destruct (processMessage_rejected stack b w' (accepted_noKeys w' b Hw'))
      as (error & w0 & Hthis & _ & _ & _ & Heq).
    rewrite Heq. apply handleError_closes.
  - intros m. unfold send, send_request, send_register. run_m.
    destruct (negb (PROTOCOL_STATES.eqb (state (this w')) PROTOCOL_STATES.CONNECTED));
      [eexists; reflexivity |].
    run_m. rewrite Hw'. eexists; reflexivity.
Qed.
End SessionKeys.

(** Below 2^53, [this.sequenceNumber - 1] after [this.sequenceNumber++] is
    the number the increment returned. *)
Lemma Number_succ_exact (x : Z) : 0 <= x < 2 ^ 53 -> Number_succ x = x + 1.
Proof. intros H. unfold Number_succ. apply Number_of_BigInt_exact. lia. Qed.

Lemma Number_pred_succ (x : Z) : 0 <= x < 2 ^ 53 -> Number_pred (Number_succ x) = x.
Proof.
  intros H. rewrite Number_succ_exact by exact H. unfold Number_pred.
  replace (x + 1 - 1) with x by lia. apply Number_of_BigInt_exact. lia.
Qed.

Section Sending.
Context {R : NodeRuntime}.

(** X12: a send() that fails leaves nothing behind. If send() throws, no
    promise has been created, no timer armed, nothing handed to the transport,
    and [pendingRequests], [messageQueue] and the state are unchanged. Outside
    CONNECTED the error is 'Invalid protocol state' and the object is
    untouched; in CONNECTED the sequence number has been consumed all the same,
    and with [sessionKeys] null no library call has been made. *)
Theorem send_that_fails_registers_nothing (message : JSValue) (w : World) (error : JSError) :
  fst (send message w) = Throw error ->
  let w' := snd (send message w) in
  timers w' = timers w /\ promises w' = promises w /\ events w' = events w /\
  pendingRequests (this w') = pendingRequests (this w) /\
  messageQueue (this w') = messageQueue (this w) /\
  state (this w') = state (this w) /\
  (state (this w) <> PROTOCOL_STATES.CONNECTED ->
   error = Error PROTOCOL_ERRORS.INVALID_STATE /\ w' = w) /\
  (state (this w) = PROTOCOL_STATES.CONNECTED ->
   sequenceNumber (this w') = Number_succ (sequenceNumber (this w)) /\
   (sessionKeys (this w) = None -> env w' = env w)).
Proof.
  unfold send, send_request, send_register. run_m.
  destruct (PROTOCOL_STATES.eqb (state (this w)) PROTOCOL_STATES.CONNECTED) eqn:E;
    cbn [negb]; run_m.
  2:{ intros [= <-]. repeat (split; [reflexivity |]).
      split; [intros _; split; reflexivity |].
      intros Hs. rewrite Hs in E. discriminate. }
  apply state_eqb_eq in E.
  destruct (sessionKeys (this w)) as [keys |]; run_m.
  2:{ intros _. repeat (split; [reflexivity |]).
      split; [intros Hs; contradiction |].
      intros _. split; reflexivity. }
  destruct (createMessage _ _ _ _ _ _) as [[frame | err] e']; run_m.
  2:{ intros _. repeat (split; [reflexivity |]).
      split; [intros Hs; contradiction |].
      intros _. split; [reflexivity | discriminate]. }
  destruct (connection (this w)) as [c |]; run_m; [discriminate |].
  intros _. repeat (split; [reflexivity |]).
  split; [intros Hs; contradiction |].
  intros _. split; [reflexivity | discriminate].
Qed.

(** The part of [send] before its [await], when it returns. *)
Lemma send_request_spec (message : JSValue) (w : World) :
  fst (send_request message w) = Normal tt ->
  let w1 := snd (send_request message w) in
  let n := sequenceNumber (this w) in
  exists keys frame e',
    state (this w) = PROTOCOL_STATES.CONNECTED /\
    sessionKeys (this w) = Some keys /\
    createMessage MESSAGE_TYPES.DATA n (data_payload message (clock w))
      (encryptionKey keys) (hmacKey keys) (env w) = (Normal frame, e') /\
    w1 = mkWorld (put_sequenceNumber (Number_succ n) (this w)) e' (clock w)
           (<[next_timer w := mkTimer (SimulateResponseCallback frame) 100]> (timers w))
           (S (next_timer w)) (promises w) (next_promise w)
           (events w ++ [SendingData frame]).
Proof.
  destruct (send_request message w) as [r w1] eqn:Heq. cbn [fst snd]. revert Heq.
  unfold send_request, data_payload. run_m.
  destruct (PROTOCOL_STATES.eqb (state (this w)) PROTOCOL_STATES.CONNECTED) eqn:E;
    cbn [negb]; run_m; [| intros [= <- <-]; discriminate].
  apply state_eqb_eq in E.
  destruct (sessionKeys (this w)) as [keys |]; run_m; [| intros [= <- <-]; discriminate].
  destruct (createMessage _ _ _ _ _ _) as [[frame | err] e'] eqn:Hc; run_m;
    [| intros [= <- <-]; discriminate].
  destruct (connection (this w)) as [c |]; run_m; [| intros [= <- <-]; discriminate].
  intros [= <- <-] _. exists keys, frame, e'.
  split; [exact E |]. split; [reflexivity |]. split; [exact Hc |]. reflexivity.
Qed.

(** The part of [send] after its [await]. *)
Lemma send_register_spec (w : World) :
  send_register w =
  (Normal (next_promise w),
   mkWorld
     (put_pendingRequests
        (<[Number_pred (sequenceNumber (this w)) :=
             mkWaiter (next_promise w) (next_timer w)]> (pendingRequests (this w)))
        (this w))
     (env w) (clock w)
     (<[next_timer w := mkTimer (AckTimeoutCallback (next_promise w))
                          (Options.timeout (options (this w)))]> (timers w))
     (S (next_timer w))
     (<[next_promise w := Pending]> (promises w))
     (S (next_promise w))
     (events w)).
Proof. unfold send_register. run_m. reflexivity. Qed.

Lemma send_request_fields (message : JSValue) (w : World) :
  fst (send_request message w) = Normal tt ->
  let w1 := snd (send_request message w) in
  sequenceNumber (this w1) = Number_succ (sequenceNumber (this w)) /\
  options (this w1) = options (this w) /\
  pendingRequests (this w1) = pendingRequests (this w) /\
  next_timer w1 = S (next_timer w) /\
  next_promise w1 = next_promise w.
Proof.
  intros H w1.
  destruct (send_request_spec message w H) as (keys & frame & e' & _ & _ & _ & Hw1).
  fold w1 in Hw1. rewrite Hw1. repeat split.
Qed.

(** Two continuations in a row: both write the same key. *)
Lemma send_register_twice (w : World) :
  let r1 := send_register w in
  let r2 := send_register (snd r1) in
  let d := Options.timeout (options (this w)) in
  fst r1 = Normal (next_promise w) /\
  fst r2 = Normal (S (next_promise w)) /\
  timers (snd r2) =
    <[S (next_timer w) := mkTimer (AckTimeoutCallback (S (next_promise w))) d]>
      (<[next_timer w := mkTimer (AckTimeoutCallback (next_promise w)) d]> (timers w)) /\
  pendingRequests (this (snd r2)) =
    <[Number_pred (sequenceNumber (this w)) :=
        mkWaiter (S (next_promise w)) (S (next_timer w))]> (pendingRequests (this w)).
Proof.
  cbv zeta. rewrite !send_register_spec. run_m.
  repeat (split; [reflexivity |]). apply insert_insert_eq.
Qed.

(** X13: what a send() registers, and under which key. send() runs in two
    parts, before and after its [await]. The first, when it returns, was made
    in CONNECTED with session keys set: it has handed the DATA frame that
    [createMessage] builds for { type: 'data', payload, timestamp } under the
    sequence number the object had to the transport, and has incremented the
    number; it has created no promise and left [pendingRequests] alone. The
    second always returns: it creates the promise, arms one acknowledgement
    timer with the configured timeout, and puts the entry under
    [sequenceNumber - 1] with the field as it is then. When the send is
    resumed before anything else runs on the object, that key is, below 2^53,
    the sequence number of its own frame. When a second send() starts before
    the first is resumed, both are registered under the second frame's number:
    [pendingRequests] gains that one entry, for the second send's promise, and
    nothing under the first frame's number, while the acknowledgement timers
    of both are armed. *)
Theorem send_registers_under_the_latest_sequence_number
    (a b : JSValue) (w : World) :
  let n := sequenceNumber (this w) in
  let d := Options.timeout (options (this w)) in
  let p := next_promise w in
  let t := next_timer w in
  (fst (send_request a w) = Normal tt ->
   let w1 := snd (send_request a w) in
   exists keys frame,
     state (this w) = PROTOCOL_STATES.CONNECTED /\
     sessionKeys (this w) = Some keys /\
     fst (createMessage MESSAGE_TYPES.DATA n (data_payload a (clock w))
            (encryptionKey keys) (hmacKey keys) (env w)) = Normal frame /\
     sequenceNumber (this w1) = Number_succ n /\
     events w1 = events w ++ [SendingData frame] /\
     timers w1 = <[t := mkTimer (SimulateResponseCallback frame) 100]> (timers w) /\
     promises w1 = promises w /\
     pendingRequests (this w1) = pendingRequests (this w)) /\
  (let w2 := snd (send_register w) in
   fst (send_register w) = Normal p /\
   promises w2 = <[p := Pending]> (promises w) /\
   timers w2 = <[t := mkTimer (AckTimeoutCallback p) d]> (timers w) /\
   pendingRequests (this w2) =
     <[Number_pred n := mkWaiter p t]> (pendingRequests (this w)) /\
   sequenceNumber (this w2) = n /\
   events w2 = events w) /\
  (forall q, fst (send a w) = Normal q ->
   let w' := snd (send a w) in
   fst (send_request a w) = Normal tt /\
   q = p /\
   timers w' !! S t = Some (mkTimer (AckTimeoutCallback p) d) /\
   pendingRequests (this w') =
     <[Number_pred (Number_succ n) := mkWaiter p (S t)]> (pendingRequests (this w)) /\
   (0 <= n < 2 ^ 53 -> Number_pred (Number_succ n) = n)) /\
  (fst (send_request a w) = Normal tt ->
   fst (send_request b (snd (send_request a w))) = Normal tt ->
   0 <= n -> n + 1 < 2 ^ 53 ->
   let r1 := send_register (snd (send_request b (snd (send_request a w)))) in
   let r2 := send_register (snd r1) in
   fst r1 = Normal p /\ fst r2 = Normal (S p) /\
   timers (snd r2) !! S (S t) = Some (mkTimer (AckTimeoutCallback p) d) /\
   timers (snd r2) !! S (S (S t)) = Some (mkTimer (AckTimeoutCallback (S p)) d) /\
   pendingRequests (this (snd r2)) =
     <[n + 1 := mkWaiter (S p) (S (S (S t)))]> (pendingRequests (this w)) /\
   pendingRequests (this (snd r2)) !! n = pendingRequests (this w) !! n).
Proof.
  intros n d p t.
  split; [| split; [| split]].
  - intros Ha w1.
    destruct (send_request_spec a w Ha) as (keys & frame & e' & Hs & Hk & Hc & Hw1).
    fold w1 in Hw1. exists keys, frame. unfold n, t. rewrite Hc, Hw1.
    repeat (split; [first [exact Hs | exact Hk | reflexivity] |]). reflexivity.
  - rewrite send_register_spec. repeat split.
  - intros q. pose proof (send_request_spec a w) as Hspec.
    destruct (send a w) as [r w'] eqn:Heq. cbn [fst snd]. revert Heq.
    unfold send, bind.
    destruct (send_request a w) as [[[] | err] w1]; cbn [fst snd] in *;
      [| intros [= <- <-]; discriminate].
    destruct (Hspec eq_refl) as (keys & frame & e' & Hs & Hk & Hc & ->).
    rewrite send_register_spec. intros [= <- <-] [= <-].
    split; [reflexivity |]. split; [reflexivity |].
    run_m.
    split; [apply lookup_insert_eq |].
    split; [reflexivity |].
    apply Number_pred_succ.
  - intros Ha Hb Hn0 Hn1.
    destruct (send_request_fields a w Ha) as (Hsa & Hoa & Hra & Hta & Hpa).
    destruct (send_request_fields b _ Hb) as (Hsb & Hob & Hrb & Htb & Hpb).
    set (wb := snd (send_request b (snd (send_request a w)))) in *.
    destruct (send_register_twice wb) as (H1 & H2 & Htm & Hreq).
    rewrite Hsb, Hsa in Hreq. rewrite Hrb, Hra in Hreq.
    rewrite Hob, Hoa in Htm. rewrite Hpb, Hpa in H1, H2, Htm, Hreq.
    rewrite Htb, Hta in Htm, Hreq.
    fold n p t d in H1, H2, Htm, Hreq.
    assert (Hn : Number_pred (Number_succ (Number_succ n)) = n + 1).
    { rewrite (Number_succ_exact n) by lia. apply Number_pred_succ. lia. }
    rewrite Hn in Hreq.
    cbv zeta. rewrite Htm, Hreq.
    split; [exact H1 |]. split; [exact H2 |].
    split; [rewrite lookup_insert_ne by lia; apply lookup_insert_eq |].
    split; [apply lookup_insert_eq |].
    split; [reflexivity |].
    apply lookup_insert_ne. lia.
Qed.
End Sending.

Section ClosingExtras.
Context {R : NodeRuntime}.

(** X14: close() never raises and always ends CLOSED. On a CLOSED object it
    changes nothing. From any other state, whether or not a CLOSE frame could
    be built and sent, the connection is dropped, the idle timer [timeoutId]
    names is cancelled, one sequence number is consumed, and an installed
    disconnect handler is called. *)
Theorem close_never_raises_and_ends_closed (stack : nat) (w : World) :
  let w' := snd (close stack w) in
  fst (close stack w) = Normal tt /\
  state (this w') = PROTOCOL_STATES.CLOSED /\
  (state (this w) = PROTOCOL_STATES.CLOSED -> w' = w) /\
  (state (this w) <> PROTOCOL_STATES.CLOSED ->
   connection (this w') = None /\ timeoutId (this w') = None /\
   (forall id, timeoutId (this w) = Some id -> timers w' !! id = None) /\
   sequenceNumber (this w') = Number_succ (sequenceNumber (this w)) /\
   (onDisconnect (this w) = true ->
    (disconnects (events w) < disconnects (events w'))%nat)).
Proof.
  unfold close. run_m.
  destruct (PROTOCOL_STATES.eqb (state (this w)) PROTOCOL_STATES.CLOSED) eqn:E.
  { apply state_eqb_eq in E. cbn [fst snd].
    repeat split; [exact E | contradiction ..]. }
  assert (Hne : state (this w) <> PROTOCOL_STATES.CLOSED)
    by (intros H; rewrite H in E; discriminate).
  assert (Hdisc : forall (l l0 : list Event) (cn : bool),
             (disconnects l <= disconnects (l ++ l0))%nat ->
             (disconnects l < disconnects ((l ++ l0) ++ close_events stack cn true))%nat).
  { intros l l0 cn H. rewrite disconnects_app, disconnects_close_events.
    destruct cn; lia. }
  destruct (sessionKeys (this w)) as [keys |]; run_m.
  - destruct (createMessage _ _ _ _ _ _) as [[frame | err] e']; run_m.
    + destruct (connection (this w)) as [c |] eqn:Hc; run_m;
        rewrite _closeConnection_spec; unfold closed_world; run_m;
        (split; [reflexivity |]); (split; [reflexivity |]);
        (split; [contradiction |]); intros _;
        (split; [reflexivity |]); (split; [reflexivity |]).
      * split; [intros id ->; apply lookup_delete_eq |].
        split; [reflexivity |].
        intros ->. apply Hdisc. rewrite disconnects_app. lia.
      * split; [intros id ->; apply lookup_delete_eq |].
        split; [reflexivity |].
        intros ->. rewrite <- (app_nil_r (events w)) at 2. apply Hdisc.
        rewrite app_nil_r. lia.
    + rewrite _closeConnection_spec; unfold closed_world; run_m.
      (split; [reflexivity |]); (split; [reflexivity |]);
        (split; [contradiction |]); intros _;
        (split; [reflexivity |]); (split; [reflexivity |]).
      split; [intros id ->; apply lookup_delete_eq |].
      split; [reflexivity |].
      intros ->. rewrite <- (app_nil_r (events w)) at 2. apply Hdisc.
      rewrite app_nil_r. lia.
  - rewrite _closeConnection_spec; unfold closed_world; run_m.
    (split; [reflexivity |]); (split; [reflexivity |]);
      (split; [contradiction |]); intros _;
      (split; [reflexivity |]); (split; [reflexivity |]).
    split; [intros id ->; apply lookup_delete_eq |].
    split; [reflexivity |].
    intros ->. rewrite <- (app_nil_r (events w)) at 2. apply Hdisc.
    rewrite app_nil_r. lia.
Qed.

(** X15: close() on an open connection sends the CLOSE frame first. With
    session keys and a connection, when [createMessage] builds the frame for
    { reason: 'Client disconnect' } under the current sequence number, that
    frame is handed to the transport before the teardown runs. The transport
    timer this arms outlives close(): it is still armed afterwards, and when
    it fires the state stays CLOSED and one more error is logged. *)
Theorem close_sends_the_close_frame_first
    (stack : nat) (w : World) (keys : SessionKeys) (c : Connection)
    (frame : bytes) (e' : Env) :
  state (this w) <> PROTOCOL_STATES.CLOSED ->
  sessionKeys (this w) = Some keys ->
  connection (this w) = Some c ->
  createMessage MESSAGE_TYPES.CLOSE (sequenceNumber (this w)) close_payload
    (encryptionKey keys) (hmacKey keys) (env w) = (Normal frame, e') ->
  timeoutId (this w) <> Some (next_timer w) ->
  let w' := snd (close stack w) in
  events w' =
    events w ++ SendingData frame :: close_events stack true (onDisconnect (this w)) /\
  env w' = e' /\
  timers w' !! next_timer w = Some (mkTimer (SimulateResponseCallback frame) 100) /\
  state (this (snd (timer_fires stack (next_timer w) w'))) = PROTOCOL_STATES.CLOSED /\
  exists error rest,
    events (snd (timer_fires stack (next_timer w) w')) =
    events w' ++ ConsoleError error :: rest.
Proof.
  intros Hs Hk Hc Hm Ht w'.
  assert (Hw' : w' =
    closed_world stack
      (mkWorld (put_sequenceNumber (Number_succ (sequenceNumber (this w))) (this w))
         e' (clock w)
         (<[next_timer w := mkTimer (SimulateResponseCallback frame) 100]> (timers w))
         (S (next_timer w)) (promises w) (next_promise w)
         (events w ++ [SendingData frame]))).
  { unfold w', close, close_payload in *. run_m.
    destruct (PROTOCOL_STATES.eqb (state (this w)) PROTOCOL_STATES.CLOSED) eqn:E;
      [apply state_eqb_eq in E; contradiction |].
    rewrite Hk. run_m. rewrite Hm. run_m. rewrite Hc. run_m.
    rewrite _closeConnection_spec. rewrite <- Hk, <- Hc. reflexivity. }
  assert (Harmed : timers w' !! next_timer w =
                   Some (mkTimer (SimulateResponseCallback frame) 100)).
  { rewrite Hw'. unfold closed_world. run_m.
    destruct (timeoutId (this w)) as [t |].
    - rewrite lookup_delete_ne by congruence. apply lookup_insert_eq.
    - apply lookup_insert_eq. }
  split; [| split; [| split; [exact Harmed |]]].
  - rewrite Hw'. unfold closed_world. run_m. rewrite Hc, <- app_assoc. reflexivity.
  - rewrite Hw'. reflexivity.
  - destruct (simulate_response_fires stack (next_timer w) w' frame 100 Harmed)
      as (error & w0 & Hthis & _ & Hev & _ & Heq).
    rewrite Heq. split; [apply handleError_closes |].
    rewrite _handleError_spec. cbn [snd].
    exists error.
    destruct (PROTOCOL_STATES.eqb (state (this w0)) PROTOCOL_STATES.CLOSED).
    + eexists. unfold reported. run_m. rewrite Hev. reflexivity.
    + eexists. unfold closed_world, reported. run_m. rewrite Hev, <- app_assoc.
      reflexivity.
Qed.
End ClosingExtras.

Section Connecting.
Context {R : NodeRuntime}.

(** What a [connect()] that answers true has done. *)
Lemma connect_true_spec (stack : nat) (a : string) (p : Z) (k : option KeyPair) (w : World) :
  fst (connect stack a p k w) = Normal true ->
  timeoutId (this w) <> Some (next_timer w) ->
  let w1 := snd (connect stack a p k w) in
  exists frame,
    timers w1 !! next_timer w = Some (mkTimer (SimulateResponseCallback frame) 100) /\
    timers w1 !! S (next_timer w) =
      Some (mkTimer ProtocolTimeoutCallback (Options.timeout (options (this w)))) /\
    timeoutId (this w1) = Some (S (next_timer w)) /\
    state (this w1) = PROTOCOL_STATES.CONNECTED /\
    sessionKeys (this w1) = sessionKeys (this w) /\
    connection (this w1) = Some (mkConnection a p) /\
    events w1 = events w ++ SendingData frame ::
                  (if onConnect (this w) then [ConnectEvent] else []).
Proof.
  intros Hr Ht w1. subst w1.
  destruct (connect stack a p k w) as [r w1] eqn:Heq. cbn [fst snd] in *. subst r.
  revert Heq.
  unfold connect, initialize, _startHandshake, generateKeyPair.
  run_m. cbv [randomBytes]. run_m.
  assert (Harm : forall (ts : gmap nat Timer) f t0,
            t0 <> Some (next_timer w) ->
            (<[S (next_timer w) := mkTimer ProtocolTimeoutCallback
                 (Options.timeout (options (this w)))]>
               match t0 with
               | Some id =>
                   delete id (<[next_timer w := mkTimer (SimulateResponseCallback f) 100]> ts)
               | None => <[next_timer w := mkTimer (SimulateResponseCallback f) 100]> ts
               end) !! next_timer w =
            Some (mkTimer (SimulateResponseCallback f) 100)).
  { intros ts f t0 H0. rewrite lookup_insert_ne by lia.
    destruct t0 as [id |].
    - rewrite lookup_delete_ne by congruence. apply lookup_insert_eq.
    - apply lookup_insert_eq. }
  destruct k as [kp |]; [| destruct (keyPair (this w)) as [kp0 |] eqn:Hkp]; run_m;
    rewrite ?Hkp; run_m.
  all: destruct (createMessage _ _ _ _ _ _) as [[frame | err] e']; run_m;
    [| rewrite _handleError_spec; discriminate].
  all: destruct (timeoutId (this w)) as [t |] eqn:Hti; run_m;
    destruct (onConnect (this w)); run_m; intros [= <-]; run_m; exists frame;
    (split; [first [exact (Harm _ _ (Some t) Ht)
                   | exact (Harm _ _ None ltac:(discriminate))] |]);
    (split; [apply lookup_insert_eq |]);
    rewrite <- ?app_assoc; repeat split.
Qed.

(** X16: a connect() that answers true is undone by the mock transport.
    After it the state is CONNECTED, the connection holds the address and the
    port, the session keys are what they were (no handshake response has been
    awaited), the idle timer is armed, and so is the transport's timer for the
    handshake frame. When that timer fires the connection closes itself: the
    state is CLOSED, the connection is dropped, the idle timer is cancelled,
    and an installed disconnect handler is called. (The precondition on
    [timeoutId] says that a stale idle timer id is not the id the next timer
    gets.) *)
Theorem connect_is_undone_by_the_mock_response
    (stack : nat) (a : string) (p : Z) (k : option KeyPair) (w : World) :
  fst (connect stack a p k w) = Normal true ->
  timeoutId (this w) <> Some (next_timer w) ->
  let w1 := snd (connect stack a p k w) in
  let w2 := snd (timer_fires stack (next_timer w) w1) in
  state (this w1) = PROTOCOL_STATES.CONNECTED /\
  connection (this w1) = Some (mkConnection a p) /\
  sessionKeys (this w1) = sessionKeys (this w) /\
  timeoutId (this w1) = Some (S (next_timer w)) /\
  (exists frame,
     timers w1 !! next_timer w = Some (mkTimer (SimulateResponseCallback frame) 100)) /\
  state (this w2) = PROTOCOL_STATES.CLOSED /\
  connection (this w2) = None /\
  timeoutId (this w2) = None /\
  timers w2 !! S (next_timer w) = None /\
  (onDisconnect (this w1) = true ->
   (disconnects (events w1) < disconnects (events w2))%nat).
Proof.
  intros Hr Ht w1 w2.
  destruct (connect_true_spec stack a p k w Hr Ht)
    as (frame & Harmed & Hidle & Hti & Hst & Hsk & Hcn & Hev).
  fold w1 in Harmed, Hidle, Hti, Hst, Hsk, Hcn, Hev.
  repeat (split; [first [assumption | exists frame; exact Harmed] |]).
  destruct (simulate_response_fires stack (next_timer w) w1 frame 100 Harmed)
    as (error & w0 & Hthis & Htm & Hev0 & _ & Heq).
  unfold w2. rewrite Heq, _handleError_spec. cbn [snd].
  rewrite Hthis, Hst. cbn [PROTOCOL_STATES.eqb].
  unfold closed_world, reported. run_m. rewrite Hthis, Hti, Hcn, Hev0.
  repeat (split; [first [reflexivity | apply lookup_delete_eq] |]).
  intros ->. rewrite !disconnects_app, disconnects_close_events. lia.
Qed.
End Connecting.

Section Handlers.
Context {R : NodeRuntime}.

(** X17: what an acknowledgement settles. An acknowledgement whose
    [sequenceNumber] is a number with an entry in [pendingRequests] cancels
    that entry's timer, deletes that entry and resolves its promise with the
    acknowledgement if it is still pending; the events, the state and the
    receive queue are unchanged. An acknowledgement whose [sequenceNumber] is
    missing, is not a number or has no entry changes nothing at all. A payload
    that is null or undefined raises the TypeError of the property read. *)
Theorem handleAcknowledgment_settles_the_named_request (messageData : JSValue) (w : World) :
  (forall n request,
     get_prop messageData "sequenceNumber" = Normal (JNumber n) ->
     pendingRequests (this w) !! n = Some request ->
     let w' := snd (_handleAcknowledgment messageData w) in
     fst (_handleAcknowledgment messageData w) = Normal tt /\
     pendingRequests (this w') = delete n (pendingRequests (this w)) /\
     timers w' = delete (timeout request) (timers w) /\
     promises w' = settled (promise request) (Fulfilled messageData) (promises w) /\
     events w' = events w /\ state (this w') = state (this w) /\
     messageQueue (this w') = messageQueue (this w)) /\
  (forall key,
     get_prop messageData "sequenceNumber" = Normal key ->
     (forall n, key = JNumber n -> pendingRequests (this w) !! n = None) ->
     _handleAcknowledgment messageData w = (Normal tt, w)) /\
  (forall error,
     get_prop messageData "sequenceNumber" = Throw error ->
     _handleAcknowledgment messageData w = (Throw error, w)).
Proof.
  split; [| split].
  - intros n request Hkey Hreq w'. unfold w', _handleAcknowledgment, settled. run_m.
    rewrite Hkey. run_m. rewrite Hreq. run_m. repeat split.
  - intros key Hkey Hnone. unfold _handleAcknowledgment. run_m. rewrite Hkey. run_m.
    destruct key as [| | ? | n | ? | ? | ? | ?]; try reflexivity.
    rewrite (Hnone n eq_refl). reflexivity.
  - intros error Hkey. unfold _handleAcknowledgment. run_m. rewrite Hkey. reflexivity.
Qed.

(** X18: a data message resolves the oldest receive(). When the
    acknowledgement can be built and sent: the payload is given to the message
    handler if one is installed, then the ACK frame is handed to the
    transport, under the current sequence number and echoing the message's
    [sequenceNumber] property; and the oldest waiter of receive(), if there is
    one, is taken off the queue, its timer is cancelled and its promise is
    resolved with the payload if it is still pending. A waiter whose
    receive() has timed out already takes the message with it. *)
Theorem handleDataMessage_resolves_the_oldest_receive
    (messageData payload acked : JSValue) (w : World)
    (keys : SessionKeys) (c : Connection) (frame : bytes) (e' : Env) :
  get_prop messageData "payload" = Normal payload ->
  get_prop messageData "sequenceNumber" = Normal acked ->
  sessionKeys (this w) = Some keys ->
  connection (this w) = Some c ->
  createMessage MESSAGE_TYPES.ACK (sequenceNumber (this w))
    (ack_payload acked (clock w)) (encryptionKey keys) (hmacKey keys) (env w)
    = (Normal frame, e') ->
  let w' := snd (_handleDataMessage messageData w) in
  fst (_handleDataMessage messageData w) = Normal tt /\
  events w' = events w ++ (if onMessage (this w) then [MessageEvent payload] else []) ++
                          [SendingData frame] /\
  sequenceNumber (this w') = Number_succ (sequenceNumber (this w)) /\
  match messageQueue (this w) with
  | [] => messageQueue (this w') = [] /\ promises w' = promises w
  | pending :: rest =>
      messageQueue (this w') = rest /\
      promises w' = settled (promise pending) (Fulfilled payload) (promises w) /\
      timers w' !! timeout pending = None
  end.
Proof.
  intros Hp Ha Hk Hc Hm w'. unfold w', _handleDataMessage, ack_payload, settled in *.
  run_m. rewrite Hp, Ha.
  destruct (onMessage (this w)); run_m; rewrite Hk; run_m; rewrite Hm; run_m;
    rewrite Hc; run_m;
    (destruct (messageQueue (this w)) as [| pending rest]; run_m;
     rewrite <- ?app_assoc; repeat split; try apply lookup_delete_eq).
Qed.

(** X19: a data message whose acknowledgement fails. If
    [_handleDataMessage] throws (no session keys, no connection, a frame that
    cannot be built, a null payload), no waiter of receive() has been taken off
    the queue or resolved and no timer has changed; yet an installed message
    handler has already been given the payload. *)
Theorem handleDataMessage_that_fails_resolves_nothing
    (messageData : JSValue) (w : World) (error : JSError) :
  fst (_handleDataMessage messageData w) = Throw error ->
  let w' := snd (_handleDataMessage messageData w) in
  messageQueue (this w') = messageQueue (this w) /\
  promises w' = promises w /\
  timers w' = timers w /\
  (forall payload,
     onMessage (this w) = true ->
     get_prop messageData "payload" = Normal payload ->
     events w' = events w ++ [MessageEvent payload]).
Proof.
  assert (Hnull : forall k e, get_prop messageData k = Throw e ->
                    forall k', get_prop messageData k' = Throw e).
  { intros k e H k'. destruct messageData; try discriminate H; exact H. }
  unfold _handleDataMessage. run_m.
  destruct (get_prop messageData "payload") as [payload | err] eqn:Hp.
  2:{ rewrite (Hnull _ _ Hp "sequenceNumber").
      destruct (onMessage (this w)); run_m; intros _; repeat split;
        intros p Hh Hg; discriminate. }
  destruct (onMessage (this w)); run_m;
    (destruct (get_prop messageData "sequenceNumber") as [acked | err]; run_m;
     [| intros _; repeat split; intros p Hh [= <-]; reflexivity || discriminate]);
    (destruct (sessionKeys (this w)) as [keys |]; run_m;
     [| intros _; repeat split; intros p Hh [= <-]; reflexivity || discriminate]);
    (destruct (createMessage _ _ _ _ _ _) as [[frame | err] e']; run_m;
     [| intros _; repeat split; intros p Hh [= <-]; reflexivity || discriminate]);
    (destruct (connection (this w)) as [c |]; run_m;
     [| intros _; repeat split; intros p Hh [= <-]; reflexivity || discriminate]);
    (destruct (messageQueue (this w)) as [| pending rest]; run_m; discriminate).
Qed.
End Handlers.

Section Timeouts.
Context {R : NodeRuntime}.

(** X20: a receive() that times out stays queued. When the timer of a
    receive() fires, its promise is rejected with 'Receive timeout' if it is
    still pending, and that is all: the protocol object is unchanged, so the
    waiter is still in [messageQueue]. *)
Theorem receive_timeout_leaves_the_waiter_queued
    (stack : nat) (id : nat) (w : World) (p : nat) (d : Z) :
  timers w !! id = Some (mkTimer (ReceiveTimeoutCallback p) d) ->
  let w' := snd (timer_fires stack id w) in
  fst (timer_fires stack id w) = Normal tt /\
  this w' = this w /\
  timers w' = delete id (timers w) /\
  promises w' = settled p (Rejected (Error "Receive timeout")) (promises w) /\
  events w' = events w.
Proof.
  intros Ht w'. unfold w', timer_fires, settled. run_m. rewrite Ht. cbn [callback]. run_m.
  destruct w as [[]]. repeat split.
Qed.
End Timeouts.

Section Initializing.
Context {R : NodeRuntime}.

(** X21: initialize() forgets the sequence numbers and nothing else. It
    returns the new key pair it stores, sets both sequence numbers to 0 and the
    state to HANDSHAKE_INIT, and keeps the session keys, the connection, the
    pending requests, the receive queue and the timers. With the session keys
    kept and [remoteSequenceNumber] back at 0, every frame that parses under
    them with a positive sequence number is accepted, also one accepted
    before. *)
Theorem initialize_forgets_the_sequence_numbers (w : World) :
  let w' := snd (initialize w) in
  (exists kp, fst (initialize w) = Normal kp /\ keyPair (this w') = Some kp) /\
  sequenceNumber (this w') = 0 /\
  remoteSequenceNumber (this w') = 0 /\
  state (this w') = PROTOCOL_STATES.HANDSHAKE_INIT /\
  sessionKeys (this w') = sessionKeys (this w) /\
  connection (this w') = connection (this w) /\
  pendingRequests (this w') = pendingRequests (this w) /\
  messageQueue (this w') = messageQueue (this w) /\
  timeoutId (this w') = timeoutId (this w) /\
  timers w' = timers w /\
  (forall b keys h p,
     sessionKeys (this w) = Some keys ->
     fst (parseMessage b (encryptionKey keys) (hmacKey keys) (env w)) = Normal (h, p) ->
     0 < Header.sequenceNumber h ->
     accepted w' b = Some (Header.sequenceNumber h)).
Proof.
  intros w'. subst w'.
  destruct (initialize w) as [r w1] eqn:Heq. cbn [fst snd]. revert Heq.
  unfold initialize, generateKeyPair. run_m. cbv [randomBytes]. run_m.
  intros [= <- <-]. run_m.
  split; [eexists; split; reflexivity |].
  repeat (split; [reflexivity |]).
  intros b keys h p Hk Hp Hs. unfold accepted. run_m. rewrite Hk.
  rewrite (parseMessage_outcome b _ _ _ (env w)), Hp.
  replace (Header.sequenceNumber h <=? 0) with false by (symmetry; apply Z.leb_gt; lia).
  reflexivity.
Qed.
End Initializing.

Section Handshake.
Context {R : NodeRuntime} {L : NodeRuntimeLaws R}.

(** X22: a handshake response without a key object fails. If the
    [publicKey] property of the response is anything but a key object (a
    string, an object, nothing at all), [_handleHandshakeResponse] throws:
    [remotePublicKey] has been overwritten with the value read, but the session
    keys and the state are as before, no key agreement and no key derivation
    has been carried out, nothing has been sent and no timer has changed. *)
Theorem handshake_response_without_key_object_fails
    (messageData : JSValue) (w : World) :
  (forall pk, get_prop messageData "publicKey" <> Normal (JKeyObject pk)) ->
  let w' := snd (_handleHandshakeResponse messageData w) in
  (exists error, fst (_handleHandshakeResponse messageData w) = Throw error) /\
  sessionKeys (this w') = sessionKeys (this w) /\
  state (this w') = state (this w) /\
  env w' = env w /\ events w' = events w /\ timers w' = timers w /\
  (forall v, get_prop messageData "publicKey" = Normal v -> remotePublicKey (this w') = v).
Proof.
  intros Hpk w'. unfold w', _handleHandshakeResponse. run_m.
  destruct (get_prop messageData "publicKey") as [v | err]; run_m.
  2:{ split; [eexists; reflexivity |]. repeat split. intros v [=]. }
  destruct (keyPair (this w)) as [kp |]; run_m.
  2:{ split; [eexists; reflexivity |]. repeat split. intros v' [= <-]. reflexivity. }
  destruct v as [| | ? | ? | ? | pk | ? | ?];
    try (cbn [deriveSharedSecret]; run_m; split; [eexists; reflexivity |];
         repeat split; intros v' [= <-]; reflexivity).
  exfalso. exact (Hpk pk eq_refl).
Qed.

(** X23: a handshake response with a key object installs the derived keys.
    The session keys become HKDF-SHA256 of the X25519 secret of the own private
    key and the response's public key, with the protocol's salt and info,
    split into two keys of 32 bytes; the acknowledgement is built under those
    keys with the current sequence number and handed to the transport; the
    state becomes CONNECTED and the idle timer is armed anew. *)
Theorem handshake_response_installs_the_derived_keys
    (messageData : JSValue) (w : World) (pk : bytes) (kp : KeyPair)
    (c : Connection) (frame : bytes) (e' : Env) :
  get_prop messageData "publicKey" = Normal (JKeyObject pk) ->
  keyPair (this w) = Some kp ->
  connection (this w) = Some c ->
  let secret := x25519 (privateKey kp) pk in
  let okm := hkdf_sha256 secret PROTOCOL_CONSTANTS.SALT PROTOCOL_CONSTANTS.INFO 64 in
  createMessage MESSAGE_TYPES.ACK (sequenceNumber (this w))
    (handshake_ack_payload (clock w)) (take 32 okm) (drop 32 okm)
    (logged (env w)
       [CallDiffieHellman (privateKey kp) pk;
        CallHkdf secret PROTOCOL_CONSTANTS.SALT PROTOCOL_CONSTANTS.INFO 64])
    = (Normal frame, e') ->
  let w' := snd (_handleHandshakeResponse messageData w) in
  fst (_handleHandshakeResponse messageData w) = Normal tt /\
  sessionKeys (this w') = Some (mkSessionKeys (take 32 okm) (drop 32 okm)) /\
  length (take 32 okm) = 32%nat /\ length (drop 32 okm) = 32%nat /\
  remotePublicKey (this w') = JKeyObject pk /\
  state (this w') = PROTOCOL_STATES.CONNECTED /\
  sequenceNumber (this w') = Number_succ (sequenceNumber (this w)) /\
  events w' = events w ++ [SendingData frame] /\
  timeoutId (this w') = Some (S (next_timer w)) /\
  timers w' !! S (next_timer w) =
    Some (mkTimer ProtocolTimeoutCallback (Options.timeout (options (this w)))).
Proof.
  intros Hpk Hkp Hc secret okm Hm w'.
  assert (Hokm : length okm = 64%nat) by apply hkdf_sha256_length.
  assert (Hkeys : forall e0,
             deriveKeys secret None None e0 =
             (Normal (mkSessionKeys (take 32 okm) (drop 32 okm)),
              logged e0 [CallHkdf secret PROTOCOL_CONSTANTS.SALT PROTOCOL_CONSTANTS.INFO 64])).
  { intros e0. unfold deriveKeys, bind, log_call, modify, ret, logged. cbn [fst snd default].
    fold okm. f_equal. f_equal. f_equal.
    - apply (slice_prefix okm 32). lia.
    - apply (slice_from okm 32). lia. }
  subst w'. unfold handshake_ack_payload, logged in Hm.
  cbn [entropy cursor crypto_calls] in Hm.
  destruct (_handleHandshakeResponse messageData w) as [r w1] eqn:Heq.
  cbn [fst snd]. revert Heq.
  unfold _handleHandshakeResponse. run_m.
  rewrite Hpk. run_m. rewrite Hkp. run_m.
  cbn [deriveSharedSecret]. unfold log_call at 1. run_m.
  fold secret. rewrite Hkeys. unfold logged. run_m.
  cbn [entropy cursor crypto_calls encryptionKey hmacKey].
  rewrite <- app_assoc. cbn [app]. rewrite Hm. run_m. rewrite Hc. run_m.
  destruct (timeoutId (this w)); run_m; intros [= <- <-]; run_m;
    (split; [reflexivity |]); (split; [reflexivity |]);
    (split; [rewrite length_take; lia |]); (split; [rewrite length_drop; lia |]);
    repeat split; apply lookup_insert_eq.
Qed.
End Handshake.

Lemma Number_succ_bounds (lo x : Z) :
  0 <= lo -> lo <= x <= 2 ^ 53 -> lo <= Number_succ x <= 2 ^ 53.
Proof.
  intros H0 H. destruct (Z.eq_dec x (2 ^ 53)) as [Heq | Hne].
  - assert (Hsat : Number_succ (2 ^ 53) = 2 ^ 53) by (vm_compute; reflexivity).
    rewrite Heq, Hsat. lia.
  - rewrite Number_succ_exact by lia. lia.
Qed.

Section OutboundSequence.
Context {R : NodeRuntime}.

Lemma inv_post_increment_sequence lo :
  0 <= lo -> inv (sequence_from lo) post_increment_sequenceNumber.
Proof.
  intros H0 w H. unfold sequence_from in *. unfold post_increment_sequenceNumber. run_m.
  apply Number_succ_bounds; assumption.
Qed.

Lemma inv_closeConnection_sequence lo stack : inv (sequence_from lo) (_closeConnection stack).
Proof. intros w H. rewrite _closeConnection_spec. exact H. Qed.

Lemma inv_handleError_sequence lo stack e : inv (sequence_from lo) (_handleError stack e).
Proof.
  intros w H. rewrite _handleError_spec. destruct (PROTOCOL_STATES.eqb _ _); exact H.
Qed.

Lemma inv_step_sequence lo stack op w :
  0 <= lo -> op <> CallInitialize -> has_keyPair w ->
  sequence_from lo w -> sequence_from lo (step stack op w).
Proof.
  intros H0 Hop Hk.
  pose proof (inv_post_increment_sequence lo H0) as Hinc.
  pose proof (inv_closeConnection_sequence lo stack) as Hcl.
  pose proof (fun e => inv_handleError_sequence lo stack e) as Herr.
  destruct op as [| a p k | m | | | b | id]; cbn [step].
  - contradiction.
  - unfold connect.
    set (rest := (assign (put_state PROTOCOL_STATES.HANDSHAKE_INIT) ;;; try_catch _ _)%se).
    assert (Hrest : inv (sequence_from lo) rest).
    { unfold rest, _startHandshake. inv_auto. }
    unfold bind at 1.
    destruct k as [kp |].
    + intros H. apply (Hrest (with_this (put_keyPair (Some kp)) w)). exact H.
    + unfold bind at 1, read, gets. cbn [fst snd].
      destruct (keyPair (this w)) as [kp0 |] eqn:E; [| contradiction].
      apply Hrest.
  - apply (fun H => H w). change (inv (sequence_from lo) (send m)).
    unfold send, send_request, send_register. inv_auto.
  - apply (fun H => H w). change (inv (sequence_from lo) receive).
    unfold receive. inv_auto.
  - apply (fun H => H w). change (inv (sequence_from lo) (close stack)).
    unfold close. inv_auto.
  - apply (fun H => H w). change (inv (sequence_from lo) (_processMessage stack b)).
    unfold _processMessage, _handleHandshakeResponse, _handleDataMessage. inv_auto.
  - apply (fun H => H w). change (inv (sequence_from lo) (timer_fires stack id)).
    unfold timer_fires, _simulateResponse, _processMessage,
      _handleHandshakeResponse, _handleDataMessage. inv_auto.
Qed.

Lemma run_sequence lo stack ops w :
  0 <= lo -> has_keyPair w -> ~ In CallInitialize ops ->
  sequence_from lo w -> sequence_from lo (run stack ops w).
Proof.
  intros H0. revert w. induction ops as [| op rest IH]; intros w Hk Hni Hw; [exact Hw |].
  assert (Hop : op <> CallInitialize) by (intros ->; apply Hni; left; reflexivity).
  cbn. apply IH.
  - apply (step_remote stack op w Hop Hk).
  - intros H. apply Hni. right. exact H.
  - apply inv_step_sequence; assumption.
Qed.

(** X24: the outbound sequence number never goes back. On an object that
    has its key pair, over any run without initialize(), a [sequenceNumber]
    that starts within 0 .. 2^53 never decreases and never exceeds 2^53 (where
    [sequenceNumber++] stops counting). *)
Theorem outbound_sequence_number_never_decreases
    (stack : nat) (ops : list Op) (w : World) :
  has_keyPair w ->
  ~ In CallInitialize ops ->
  0 <= sequenceNumber (this w) <= 2 ^ 53 ->
  sequenceNumber (this w) <= sequenceNumber (this (run stack ops w)) <= 2 ^ 53.
Proof.
  intros Hk Hni Hw.
  apply (run_sequence (sequenceNumber (this w)) stack ops w); try assumption; [lia |].
  unfold sequence_from. lia.
Qed.
End OutboundSequence.

Section IdleTimer.
Context {R : NodeRuntime}.

Lemma inv_setTimeout_idle (cb : TimerCallback) (d : Z) :
  cb <> ProtocolTimeoutCallback -> inv idle_timer_named (setTimeout cb d).
Proof.
  intros Hcb w H id d' Hl. unfold setTimeout in *. run_m.
  destruct (decide (id = next_timer w)) as [-> | Hne].
  - rewrite lookup_insert_eq in Hl. congruence.
  - rewrite lookup_insert_ne in Hl by congruence. exact (H id d' Hl).
Qed.

Lemma inv_clearTimeout_idle (id : nat) : inv idle_timer_named (clearTimeout id).
Proof.
  intros w H i d Hl. unfold clearTimeout in *. run_m.
  destruct (decide (i = id)) as [-> | Hne].
  - rewrite lookup_delete_eq in Hl. discriminate.
  - rewrite lookup_delete_ne in Hl by congruence. exact (H i d Hl).
Qed.

Lemma clearTimeout_no_idle (w : World) :
  idle_timer_named w ->
  forall id d, timers (snd (_clearTimeout w)) !! id <> Some (mkTimer ProtocolTimeoutCallback d).
Proof.
  intros H id d. unfold _clearTimeout. run_m.
  destruct (timeoutId (this w)) as [t |] eqn:Et; run_m; intros Hl.
  - destruct (decide (id = t)) as [-> | Hne].
    + rewrite lookup_delete_eq in Hl. discriminate.
    + rewrite lookup_delete_ne in Hl by congruence.
      specialize (H id d Hl). congruence.
  - specialize (H id d Hl). congruence.
Qed.

Lemma inv__clearTimeout_idle : inv idle_timer_named _clearTimeout.
Proof.
  intros w H id d Hl. exfalso. exact (clearTimeout_no_idle w H id d Hl).
Qed.

Lemma inv_startTimeout_idle : inv idle_timer_named _startTimeout.
Proof.
  intros w H id d Hl.
  pose proof (clearTimeout_no_idle w H) as Hno.
  revert Hl Hno. unfold _startTimeout, _clearTimeout. run_m.
  destruct (timeoutId (this w)) as [t |]; run_m; intros Hl Hno;
    (destruct (decide (id = next_timer w)) as [-> | Hne]; [reflexivity |]);
    rewrite lookup_insert_ne in Hl by congruence;
    exfalso; exact (Hno id d Hl).
Qed.

Lemma inv_closeConnection_idle stack : inv idle_timer_named (_closeConnection stack).
Proof.
  intros w H id d. rewrite _closeConnection_spec. unfold closed_world. run_m.
  intros Hl. exfalso.
  apply (clearTimeout_no_idle w H id d). unfold _clearTimeout. run_m.
  destruct (timeoutId (this w)); exact Hl.
Qed.

Lemma inv_handleError_idle stack e : inv idle_timer_named (_handleError stack e).
Proof.
  intros w H. rewrite _handleError_spec.
  destruct (PROTOCOL_STATES.eqb _ _).
  - exact H.
  - pose proof (inv_closeConnection_idle stack (reported e w)) as Hc.
    rewrite _closeConnection_spec in Hc. apply Hc. exact H.
Qed.

Lemma inv_sendProtocolMessage_idle m : inv idle_timer_named (_sendProtocolMessage m).
Proof.
  pose proof inv_setTimeout_idle as Hs.
  unfold _sendProtocolMessage, _sendData.
  repeat inv_step; try solve [prim_inv].
Qed.

Lemma inv_step_idle stack op : inv idle_timer_named (fun w => (Normal tt, step stack op w)).
Proof.
  assert (H : forall A (m : M A), inv idle_timer_named m ->
                inv idle_timer_named (fun w => (Normal tt, snd (m w))))
    by (intros A m Hm w Hw; apply Hm; exact Hw).
  pose proof inv_setTimeout_idle as Hs.
  pose proof inv_clearTimeout_idle as Hc.
  pose proof inv__clearTimeout_idle as Hc'.
  pose proof inv_startTimeout_idle as Hst.
  pose proof inv_closeConnection_idle as Hcl.
  pose proof inv_handleError_idle as Herr.
  pose proof inv_sendProtocolMessage_idle as Hsend.
  destruct op; cbn [step]; apply H.
  - unfold initialize. inv_auto.
  - unfold connect, initialize, _startHandshake. inv_auto.
  - unfold send, send_request, send_register. inv_auto.
  - unfold receive. inv_auto.
  - unfold close. inv_auto.
  - unfold _processMessage, _handleHandshakeResponse, _handleDataMessage,
      _handleAcknowledgment. inv_auto.
  - unfold timer_fires, _simulateResponse, _processMessage, _handleHandshakeResponse,
      _handleDataMessage, _handleAcknowledgment. inv_auto.
Qed.

Lemma run_idle stack ops w : idle_timer_named w -> idle_timer_named (run stack ops w).
Proof.
  revert w. induction ops as [| op rest IH]; intros w Hw; [exact Hw |].
  cbn. apply IH. exact (inv_step_idle stack op w Hw).
Qed.

(** X25: at most one idle timer is armed. If every armed idle timer is the
    one [timeoutId] names (as on a new object, which has none), the same holds
    after any sequence of operations, inbound buffers and timers; so two armed
    idle timers are one and the same. *)
Theorem at_most_one_idle_timer_is_armed (stack : nat) (ops : list Op) (w : World) :
  (forall id d,
     timers w !! id = Some (mkTimer ProtocolTimeoutCallback d) ->
     timeoutId (this w) = Some id) ->
  let w' := run stack ops w in
  (forall id d,
     timers w' !! id = Some (mkTimer ProtocolTimeoutCallback d) ->
     timeoutId (this w') = Some id) /\
  (forall id1 id2 d1 d2,
     timers w' !! id1 = Some (mkTimer ProtocolTimeoutCallback d1) ->
     timers w' !! id2 = Some (mkTimer ProtocolTimeoutCallback d2) ->
     id1 = id2).
Proof.
  intros Hw w'.
  assert (H : idle_timer_named w') by (apply run_idle; exact Hw).
  split; [exact H |].
  intros id1 id2 d1 d2 H1 H2.
  apply H in H1. apply H in H2. congruence.
Qed.

(** X26: [_handleError] reports, then closes once. It returns; the error is
    logged and handed to the error handler if one is installed; the state ends
    CLOSED. On an object that is CLOSED already nothing else happens: the
    object and the timers are untouched and no disconnect notification is
    added. Otherwise the connection is dropped, the idle timer is cancelled and
    an installed disconnect handler is called. *)
Theorem handleError_reports_then_closes (stack : nat) (error : JSError) (w : World) :
  let w' := snd (_handleError stack error w) in
  fst (_handleError stack error w) = Normal tt /\
  state (this w') = PROTOCOL_STATES.CLOSED /\
  exists rest,
    events w' = events w ++ ConsoleError error ::
                  (if onError (this w) then [ErrorEvent error] else []) ++ rest /\
    (state (this w) = PROTOCOL_STATES.CLOSED ->
     rest = [] /\ this w' = this w /\ timers w' = timers w) /\
    (state (this w) <> PROTOCOL_STATES.CLOSED ->
     connection (this w') = None /\ timeoutId (this w') = None /\
     (onDisconnect (this w) = true -> In DisconnectEvent rest)).
Proof.
  intros w'. unfold w'. rewrite _handleError_spec. cbn [fst snd].
  split; [reflexivity |].
  destruct (PROTOCOL_STATES.eqb (state (this w)) PROTOCOL_STATES.CLOSED) eqn:E.
  - apply state_eqb_eq in E. unfold reported. run_m. split; [exact E |].
    exists []. rewrite app_nil_r. split; [reflexivity |].
    split; [intros _; repeat split; destruct w as [[]]; reflexivity | contradiction].
  - assert (Hne : state (this w) <> PROTOCOL_STATES.CLOSED)
      by (intros H; rewrite H in E; discriminate).
    unfold closed_world, reported. run_m. split; [reflexivity |].
    eexists. rewrite <- app_assoc. cbn [app]. split; [reflexivity |].
    split; [contradiction |]. intros _. repeat split.
    intros ->. unfold close_events. apply in_or_app. right. left. reflexivity.
Qed.

(** X27: an acknowledged send cannot time out. Once an acknowledgement has
    resolved a pending request, the request's promise is fulfilled with the
    acknowledgement and its timer is no longer armed: the firing of that timer
    changes nothing. *)
Theorem acknowledged_send_cannot_time_out
    (stack : nat) (messageData : JSValue) (w : World) (n : Z) (request : Waiter) :
  get_prop messageData "sequenceNumber" = Normal (JNumber n) ->
  pendingRequests (this w) !! n = Some request ->
  promises w !! promise request = Some Pending ->
  let w1 := snd (_handleAcknowledgment messageData w) in
  let w2 := snd (timer_fires stack (timeout request) w1) in
  promises w1 !! promise request = Some (Fulfilled messageData) /\
  timers w1 !! timeout request = None /\
  w2 = w1.
Proof.
  intros Hkey Hreq Hp w1 w2.
  assert (Hw1 : timers w1 !! timeout request = None /\
                promises w1 !! promise request = Some (Fulfilled messageData)).
  { unfold w1, _handleAcknowledgment. run_m. rewrite Hkey. run_m. rewrite Hreq. run_m.
    rewrite Hp. split; [apply lookup_delete_eq | apply lookup_insert_eq]. }
  destruct Hw1 as [Ht Hf].
  split; [exact Hf |]. split; [exact Ht |].
  unfold w2, timer_fires. run_m. rewrite Ht. reflexivity.
Qed.
End IdleTimer.

Section Deadline.
Context {R : NodeRuntime}.

Lemma send_keeps_idle_deadline id d m w :
  idle_deadline id d w -> idle_deadline id d (snd (send m w)).
Proof.
  intros (Hid & Ht & Hlt). unfold idle_deadline.
  destruct (send m w) as [r w1] eqn:Heq. cbn [snd]. revert Heq.
  unfold send, send_request, send_register. run_m.
  destruct (negb (PROTOCOL_STATES.eqb (state (this w)) PROTOCOL_STATES.CONNECTED));
    run_m; [intros [= <- <-]; repeat split; assumption |].
  destruct (sessionKeys (this w)) as [keys |]; run_m;
    [| intros [= <- <-]; run_m; repeat split; assumption].
  destruct (createMessage _ _ _ _ _ _) as [[frame | err] e']; run_m;
    [| intros [= <- <-]; run_m; repeat split; assumption].
  destruct (connection (this w)) as [c |]; run_m;
    intros [= <- <-]; run_m; repeat split; try assumption; try lia.
  rewrite !lookup_insert_ne by lia. exact Ht.
Qed.

Lemma receive_keeps_idle_deadline id d w :
  idle_deadline id d w -> idle_deadline id d (snd (receive w)).
Proof.
  intros (Hid & Ht & Hlt). unfold idle_deadline, receive. run_m.
  repeat split; try assumption; try lia.
  rewrite lookup_insert_ne by lia. exact Ht.
Qed.

Lemma run_keeps_idle_deadline stack id d ops w :
  Forall (fun op => sends_or_receives op = true) ops ->
  idle_deadline id d w -> idle_deadline id d (run stack ops w).
Proof.
  revert w. induction ops as [| op rest IH]; intros w Hops Hw; [exact Hw |].
  inversion Hops as [| ? ? Hop Hrest]; subst. cbn. apply IH; [exact Hrest |].
  destruct op; try discriminate Hop; cbn [step].
  - apply send_keeps_idle_deadline. exact Hw.
  - apply receive_keeps_idle_deadline. exact Hw.
Qed.

(** X28: sending and receiving do not postpone the idle timer. The timer
    [_startTimeout] arms is touched by no send() and no receive(): after any
    number of them, failed or not, the same timer is still armed and still the
    one [timeoutId] names; and when it fires, the error 'Protocol timeout' is
    logged and the state ends CLOSED. The timeout runs from connect(), whatever
    is sent in between. *)
Theorem sending_and_receiving_do_not_postpone_the_idle_timer
    (stack : nat) (id : nat) (d : Z) (ops : list Op) (w : World) :
  timeoutId (this w) = Some id ->
  timers w !! id = Some (mkTimer ProtocolTimeoutCallback d) ->
  (id < next_timer w)%nat ->
  Forall (fun op => sends_or_receives op = true) ops ->
  let w1 := run stack ops w in
  let w2 := snd (timer_fires stack id w1) in
  timeoutId (this w1) = Some id /\
  timers w1 !! id = Some (mkTimer ProtocolTimeoutCallback d) /\
  state (this w2) = PROTOCOL_STATES.CLOSED /\
  exists rest,
    events w2 = events w1 ++ ConsoleError (Error PROTOCOL_ERRORS.TIMEOUT) :: rest.
Proof.
  intros Hid Ht Hlt Hops w1 w2.
  destruct (run_keeps_idle_deadline stack id d ops w Hops (conj Hid (conj Ht Hlt)))
    as (Hid1 & Ht1 & _).
  fold w1 in Hid1, Ht1.
  split; [exact Hid1 |]. split; [exact Ht1 |].
  assert (Hfire : timer_fires stack id w1 =
                  _handleError stack (Error PROTOCOL_ERRORS.TIMEOUT)
                    (with_timers (delete id) w1)).
  { unfold timer_fires. unfold bind at 1. unfold gets. cbn [fst snd].
    rewrite Ht1. cbn [callback]. unfold bind, clearTimeout, modify. cbn [fst snd].
    reflexivity. }
  unfold w2. rewrite Hfire. split; [apply handleError_closes |].
  rewrite _handleError_spec. cbn [snd].
  destruct (PROTOCOL_STATES.eqb _ _).
  - eexists. unfold reported. run_m. reflexivity.
  - eexists. unfold closed_world, reported. run_m. rewrite <- app_assoc. reflexivity.
Qed.
End Deadline.

(** ** The further properties on concrete inputs *)

Lemma encrypt_decrypt_round_trip_witness :
  exists d e1,
    encrypt "Hello, secure world!" ReferenceRuntime.key_a None ReferenceRuntime.env0
    = (Normal d, e1) /\
    forall e2,
      fst (decrypt (encrypted d) ReferenceRuntime.key_a (iv d) (tag d) e2) =
      Normal "Hello, secure world!".
Proof.
  destruct (encrypt_decrypt_round_trip (L := reference_laws)
              "Hello, secure world!" ReferenceRuntime.key_a None ReferenceRuntime.env0)
    as (d & e1 & H & _ & _ & _ & _ & Hd); [reflexivity | discriminate |].
  exists d, e1. split; assumption.
Defined.

Lemma createMessageHeader_parseMessageHeader_round_trip_witness :
  exists header,
    createMessageHeader MESSAGE_TYPES.DATA 1 41 = Normal header /\
    parseMessageHeader header = Normal (Header.mk 1 MESSAGE_TYPES.DATA 1 41).
Proof.
  destruct (createMessageHeader_parseMessageHeader_round_trip MESSAGE_TYPES.DATA 1 41)
    as (h & Hc & _ & _ & Hp); [cbv; split; congruence | lia | lia |].
  exists h. split; [exact Hc | apply Hp; lia].
Defined.

Lemma createMessageHeader_returns_iff_in_range_witness :
  createMessageHeader MESSAGE_TYPES.DATA (2 ^ 64) 0 =
  Throw (RangeError "ERR_OUT_OF_RANGE value").
Proof.
  destruct (createMessageHeader_returns_iff_in_range MESSAGE_TYPES.DATA (2 ^ 64) 0)
    as [[Hin _] Hout].
  apply Hout. intros header H.
  destruct (Hin (ex_intro _ header H)) as (_ & HS & _). lia.
Defined.

Lemma parseMessageHeader_checks_only_the_length_witness :
  parseMessageHeader (list_byte_of_string "too short") =
    Throw (Error "Invalid header length") /\
  exists h,
    parseMessageHeader (list_byte_of_string "Mock response data") = Normal h /\
    parseMessageHeader (take 14 (list_byte_of_string "Mock response data")) = Normal h.
Proof.
  split.
  - apply (proj1 (parseMessageHeader_checks_only_the_length _)). vm_compute. lia.
  - destruct (proj2 (parseMessageHeader_checks_only_the_length
                       (list_byte_of_string "Mock response data")))
      as (h & H1 & H2 & _); [vm_compute; lia |].
    exists h. split; assumption.
Defined.

Lemma createMessage_fails_before_encrypting_witness :
  createMessage MESSAGE_TYPES.DATA 1 JUndefined
    ReferenceRuntime.key_a ReferenceRuntime.key_b ReferenceRuntime.env0 =
  (Throw (TypeError "ERR_INVALID_ARG_TYPE Buffer.from(undefined)"), ReferenceRuntime.env0) /\
  createMessage MESSAGE_TYPES.DATA (-1) ReferenceRuntime.test_payload
    ReferenceRuntime.key_a ReferenceRuntime.key_b ReferenceRuntime.env0 =
  (Throw (RangeError "ERR_OUT_OF_RANGE value"), ReferenceRuntime.env0).
Proof.
  split.
  - apply (proj1 (createMessage_fails_before_encrypting _ _ _ _ _ _)). reflexivity.
  - apply (proj2 (createMessage_fails_before_encrypting _ _ _ _ _ _)
             (default EmptyString (ReferenceRuntime.text ReferenceRuntime.test_payload))).
    + reflexivity.
    + lia.
Defined.

Lemma parseMessage_accepts_any_header_fields_witness :
  let pt := list_byte_of_string "null" in
  let iv0 := repeat x00 12 in
  let ct := rev pt in
  let tg := ReferenceRuntime.seal_tag ReferenceRuntime.key_a iv0 ct in
  let body := be_bytes 1 9 ++ be_bytes 1 77 ++ be_bytes 8 5 ++ be_bytes 4 0 ++
              iv0 ++ ct ++ tg in
  fst (parseMessage (body ++ hmac_sha256 ReferenceRuntime.key_b body)
         ReferenceRuntime.key_a ReferenceRuntime.key_b ReferenceRuntime.env0) =
  Normal (Header.mk 9 77 5 0, JNull).
Proof.
  intros pt iv0 ct tg body.
  exact (parseMessage_accepts_any_header_fields (L := reference_laws)
           9 77 5 0 iv0 ct tg pt JNull
           ReferenceRuntime.key_a ReferenceRuntime.key_b ReferenceRuntime.env0
           ltac:(lia) ltac:(lia) ltac:(lia) ltac:(lia)
           eq_refl eq_refl eq_refl eq_refl).
Defined.

Lemma processMessage_never_raises_and_rejection_closes_witness :
  state (this (snd (_processMessage 3 (list_byte_of_string "Mock response data")
                      (ReferenceRuntime.connected 3)))) = PROTOCOL_STATES.CLOSED.
Proof.
  apply (proj2 (processMessage_never_raises_and_rejection_closes 3
                  (list_byte_of_string "Mock response data") (ReferenceRuntime.connected 3))).
  vm_compute. reflexivity.
Defined.

Lemma inbound_frame_of_unknown_type_closes_witness :
  let w := ReferenceRuntime.with_session (ReferenceRuntime.connected 3) in
  let b := ReferenceRuntime.frame MESSAGE_TYPES.HANDSHAKE_INIT 1 ReferenceRuntime.test_payload in
  state (this (snd (_processMessage 3 b w))) = PROTOCOL_STATES.CLOSED /\
  remoteSequenceNumber (this (snd (_processMessage 3 b w))) = 1.
Proof.
  intros w b.
  refine (proj2 (inbound_frame_of_unknown_type_closes 3 b w
                   (mkSessionKeys ReferenceRuntime.key_a ReferenceRuntime.key_b)
                   (Header.mk 1 MESSAGE_TYPES.HANDSHAKE_INIT 1 41)
                   ReferenceRuntime.test_payload
                   (snd (parseMessage b ReferenceRuntime.key_a ReferenceRuntime.key_b (env w)))
                   _ _ _ _)).
  - vm_compute. reflexivity.
  - apply injective_projections; [vm_compute; reflexivity | reflexivity].
  - vm_compute. reflexivity.
  - vm_compute. intros [H | [H | [H | [H | []]]]]; discriminate H.
Defined.

Lemma mock_response_closes_the_connection_witness :
  state (this (snd (timer_fires 3 0 (ReferenceRuntime.connected 3)))) =
  PROTOCOL_STATES.CLOSED.
Proof.
  assert (H : exists rd, timers (ReferenceRuntime.connected 3) !! 0%nat =
                         Some (mkTimer (SimulateResponseCallback rd) 100))
    by (vm_compute; eexists; reflexivity).
  destruct H as [rd H].
  exact (proj1 (proj2 (mock_response_closes_the_connection 3 0
                         (ReferenceRuntime.connected 3) rd 100 H))).
Defined.

Lemma connect_is_undone_by_the_mock_response_witness :
  let w1 := snd (connect 3 "host" 4433 None (ReferenceRuntime.fresh true)) in
  state (this w1) = PROTOCOL_STATES.CONNECTED /\
  state (this (snd (timer_fires 3 0 w1))) = PROTOCOL_STATES.CLOSED.
Proof.
  intros w1.
  destruct (connect_is_undone_by_the_mock_response 3 "host" 4433 None
              (ReferenceRuntime.fresh true))
    as (H1 & _ & _ & _ & _ & H2 & _).
  - vm_compute. reflexivity.
  - vm_compute. discriminate.
  - split; [exact H1 | exact H2].
Defined.

Lemma session_keys_are_never_established_witness :
  let ops := [CallConnect "host" 4433 None; CallSend (JString "ping");
              Inbound (ReferenceRuntime.frame MESSAGE_TYPES.HANDSHAKE_RESPONSE 1
                         (JObject [("publicKey", JKeyObject ReferenceRuntime.key_b)]));
              TimerFires 0; CallInitialize; CallConnect "host" 4433 None] in
  sessionKeys (this (run 3 ops (ReferenceRuntime.fresh true))) = None.
Proof.
  intros ops.
  apply (session_keys_are_never_established 3 ops (ReferenceRuntime.fresh true)).
  reflexivity.
Defined.

Lemma send_that_fails_registers_nothing_witness :
  let w := ReferenceRuntime.connected 3 in
  sequenceNumber (this w) = 1 /\
  sequenceNumber (this (snd (send (JString "ping") w))) = 2 /\
  pendingRequests (this (snd (send (JString "ping") w))) = pendingRequests (this w).
Proof.
  intros w.
  destruct (send_that_fails_registers_nothing (JString "ping") w
              (TypeError "Cannot read properties of null (reading 'encryptionKey')"))
    as (_ & _ & _ & Hp & _ & _ & _ & Hc); [vm_compute; reflexivity |].
  split; [vm_compute; reflexivity |].
  split; [| exact Hp].
  rewrite (proj1 (Hc ltac:(vm_compute; reflexivity))). vm_compute. reflexivity.
Defined.

Lemma send_registers_under_the_latest_sequence_number_witness :
  let w := ReferenceRuntime.with_session (ReferenceRuntime.connected 3) in
  let w2 := snd (send_request (JString "b") (snd (send_request (JString "a") w))) in
  let r1 := send_register w2 in
  let r2 := send_register (snd r1) in
  sequenceNumber (this w) = 1 /\
  fst r1 = Normal 0%nat /\ fst r2 = Normal 1%nat /\
  pendingRequests (this (snd r2)) !! 1 = None /\
  pendingRequests (this (snd r2)) !! 2 = Some (mkWaiter 1 5) /\
  timers (snd r2) !! 4%nat = Some (mkTimer (AckTimeoutCallback 0) 30000).
Proof.
  cbv zeta.
  pose proof (send_registers_under_the_latest_sequence_number
                (JString "a") (JString "b")
                (ReferenceRuntime.with_session (ReferenceRuntime.connected 3))) as H.
  cbv zeta in H. destruct H as (_ & _ & _ & H).
  assert (Ha : fst (send_request (JString "a")
                      (ReferenceRuntime.with_session (ReferenceRuntime.connected 3))) =
               Normal tt) by (vm_compute; reflexivity).
  assert (Hb : fst (send_request (JString "b")
                      (snd (send_request (JString "a")
                         (ReferenceRuntime.with_session (ReferenceRuntime.connected 3))))) =
               Normal tt) by (vm_compute; reflexivity).
  assert (Hseq : sequenceNumber (this (ReferenceRuntime.with_session
                                         (ReferenceRuntime.connected 3))) = 1)
    by (vm_compute; reflexivity).
  assert (Hp : next_promise (ReferenceRuntime.with_session (ReferenceRuntime.connected 3)) = 0%nat)
    by (vm_compute; reflexivity).
  assert (Ht : next_timer (ReferenceRuntime.with_session (ReferenceRuntime.connected 3)) = 2%nat)
    by (vm_compute; reflexivity).
  assert (Hd : Options.timeout (options (this (ReferenceRuntime.with_session
                                         (ReferenceRuntime.connected 3)))) = 30000)
    by (vm_compute; reflexivity).
  assert (Hr : pendingRequests (this (ReferenceRuntime.with_session
                                         (ReferenceRuntime.connected 3))) = ∅)
    by (vm_compute; reflexivity).
  rewrite Hseq, Hp, Ht, Hd, Hr in H.
  destruct (H Ha Hb ltac:(lia) ltac:(lia)) as (H1 & H2 & H3 & _ & H5 & H6).
  split; [exact Hseq |]. split; [exact H1 |]. split; [exact H2 |].
  split; [rewrite H6; reflexivity |].
  split; [rewrite H5; reflexivity |].
  exact H3.
Defined.

Lemma close_never_raises_and_ends_closed_witness :
  fst (close 3 (ReferenceRuntime.fresh true)) = Normal tt /\
  state (this (snd (close 3 (ReferenceRuntime.fresh true)))) = PROTOCOL_STATES.CLOSED.
Proof.
  destruct (close_never_raises_and_ends_closed 3 (ReferenceRuntime.fresh true))
    as (H1 & H2 & _).
  split; assumption.
Defined.

Lemma close_sends_the_close_frame_first_witness :
  let w := ReferenceRuntime.with_session (ReferenceRuntime.connected 3) in
  exists frame rest, events (snd (close 3 w)) = events w ++ SendingData frame :: rest.
Proof.
  intros w.
  destruct (close_sends_the_close_frame_first 3 w
              (mkSessionKeys ReferenceRuntime.key_a ReferenceRuntime.key_b)
              (mkConnection "host" 4433)
              (match fst (createMessage MESSAGE_TYPES.CLOSE 1 close_payload
                            ReferenceRuntime.key_a ReferenceRuntime.key_b (env w)) with
               | Normal f => f
               | Throw _ => []
               end)
              (snd (createMessage MESSAGE_TYPES.CLOSE 1 close_payload
                      ReferenceRuntime.key_a ReferenceRuntime.key_b (env w))))
    as (Hev & _).
  - vm_compute. discriminate.
  - vm_compute. reflexivity.
  - vm_compute. reflexivity.
  - apply injective_projections; [vm_compute; reflexivity | reflexivity].
  - vm_compute. discriminate.
  - eexists _, _. exact Hev.
Defined.

Lemma handleAcknowledgment_settles_the_named_request_witness :
  let w := snd (send (JString "ping")
                  (ReferenceRuntime.with_session (ReferenceRuntime.connected 3))) in
  let ack := JObject [("type", JString "ack"); ("sequenceNumber", JNumber 1)] in
  pendingRequests (this (snd (_handleAcknowledgment ack w))) =
    delete 1 (pendingRequests (this w)) /\
  promises (snd (_handleAcknowledgment ack w)) =
    settled 0 (Fulfilled ack) (promises w) /\
  _handleAcknowledgment (JObject [("type", JString "ack")]) w = (Normal tt, w).
Proof.
  intros w ack.
  destruct (handleAcknowledgment_settles_the_named_request ack w) as (Hhit & _ & _).
  destruct (handleAcknowledgment_settles_the_named_request
              (JObject [("type", JString "ack")]) w) as (_ & Hmiss & _).
  destruct (Hhit 1 (mkWaiter 0 3)) as (_ & Hp & _ & Hs & _);
    [reflexivity | vm_compute; reflexivity |].
  split; [exact Hp |]. split; [exact Hs |].
  apply (Hmiss JUndefined); [reflexivity | discriminate].
Defined.

Lemma handleDataMessage_resolves_the_oldest_receive_witness :
  let w := snd (receive (ReferenceRuntime.with_session (ReferenceRuntime.connected 3))) in
  let w' := snd (_handleDataMessage (data_payload (JString "hello") 5) w) in
  messageQueue (this w) = [mkWaiter 0 2] /\
  messageQueue (this w') = [] /\
  promises w' = settled 0 (Fulfilled (JString "hello")) (promises w).
Proof.
  intros w w'.
  assert (Hq : messageQueue (this w) = [mkWaiter 0 2]) by (vm_compute; reflexivity).
  pose proof (handleDataMessage_resolves_the_oldest_receive
                (data_payload (JString "hello") 5) (JString "hello") JUndefined w
                (mkSessionKeys ReferenceRuntime.key_a ReferenceRuntime.key_b)
                (mkConnection "host" 4433)
                (match fst (createMessage MESSAGE_TYPES.ACK 1
                              (ack_payload JUndefined (clock w))
                              ReferenceRuntime.key_a ReferenceRuntime.key_b (env w)) with
                 | Normal f => f
                 | Throw _ => []
                 end)
                (snd (createMessage MESSAGE_TYPES.ACK 1
                        (ack_payload JUndefined (clock w))
                        ReferenceRuntime.key_a ReferenceRuntime.key_b (env w)))
                eq_refl eq_refl) as H.
  destruct H as (_ & _ & _ & H).
  - vm_compute. reflexivity.
  - vm_compute. reflexivity.
  - apply injective_projections; [vm_compute; reflexivity | reflexivity].
  - rewrite Hq in H. destruct H as (H1 & H2 & _).
    split; [exact Hq |]. split; [exact H1 | exact H2].
Defined.

Lemma handleDataMessage_that_fails_resolves_nothing_witness :
  let w := snd (receive (ReferenceRuntime.connected 3)) in
  let w' := snd (_handleDataMessage (data_payload (JString "hello") 5) w) in
  messageQueue (this w') = messageQueue (this w) /\
  events w' = events w ++ [MessageEvent (JString "hello")].
Proof.
  intros w w'.
  destruct (handleDataMessage_that_fails_resolves_nothing
              (data_payload (JString "hello") 5) w
              (TypeError "Cannot read properties of null (reading 'encryptionKey')"))
    as (Hq & _ & _ & Hev); [vm_compute; reflexivity |].
  split; [exact Hq |].
  apply Hev; [vm_compute; reflexivity | reflexivity].
Defined.

Lemma receive_timeout_leaves_the_waiter_queued_witness :
  let w := snd (receive (ReferenceRuntime.fresh true)) in
  let w' := snd (timer_fires 3 0 w) in
  messageQueue (this w') = [mkWaiter 0 0] /\
  promises w' !! 0%nat = Some (Rejected (Error "Receive timeout")).
Proof.
  intros w w'.
  destruct (receive_timeout_leaves_the_waiter_queued 3 0 w 0 30000)
    as (_ & Hthis & _ & Hp & _); [vm_compute; reflexivity |].
  fold w' in Hthis, Hp. rewrite Hthis, Hp.
  split; vm_compute; reflexivity.
Defined.

Lemma initialize_forgets_the_sequence_numbers_witness :
  let b := ReferenceRuntime.frame MESSAGE_TYPES.ACK 5 ReferenceRuntime.test_payload in
  let w := snd (_processMessage 3 b
                  (ReferenceRuntime.with_session (ReferenceRuntime.connected 3))) in
  accepted w b = None /\
  accepted (snd (initialize w)) b = Some 5.
Proof.
  intros b w. split; [vm_compute; reflexivity |].
  destruct (initialize_forgets_the_sequence_numbers w) as (_ & _ & _ & _ & _ & _ & _ & _ & _ & _ & H).
  apply (H b (mkSessionKeys ReferenceRuntime.key_a ReferenceRuntime.key_b)
           (Header.mk 1 MESSAGE_TYPES.ACK 5 41) ReferenceRuntime.test_payload).
  - vm_compute. reflexivity.
  - vm_compute. reflexivity.
  - vm_compute. reflexivity.
Defined.

Lemma handshake_response_without_key_object_fails_witness :
  let w := ReferenceRuntime.with_session (ReferenceRuntime.connected 3) in
  let response := JObject [("type", JString "handshake_response");
                           ("publicKey", JString "c2VydmVyLWtleQ==")] in
  sessionKeys (this (snd (_handleHandshakeResponse response w))) = sessionKeys (this w) /\
  remotePublicKey (this (snd (_handleHandshakeResponse response w))) =
    JString "c2VydmVyLWtleQ==".
Proof.
  intros w response.
  destruct (handshake_response_without_key_object_fails response w)
    as (_ & Hk & _ & _ & _ & _ & Hr).
  - intros pk H. vm_compute in H. discriminate H.
  - split; [exact Hk |]. apply Hr. reflexivity.
Defined.

Lemma handshake_response_installs_the_derived_keys_witness :
  let w := ReferenceRuntime.connected 3 in
  let response := JObject [("publicKey", JKeyObject ReferenceRuntime.key_b)] in
  sessionKeys (this w) = None /\
  state (this (snd (_handleHandshakeResponse response w))) = PROTOCOL_STATES.CONNECTED /\
  exists keys,
    sessionKeys (this (snd (_handleHandshakeResponse response w))) = Some keys /\
    length (encryptionKey keys) = 32%nat /\ length (hmacKey keys) = 32%nat.
Proof.
  intros w response.
  split; [vm_compute; reflexivity |].
  set (kp := default (mkKeyPair [] []) (keyPair (this w))).
  set (okm := hkdf_sha256 (x25519 (privateKey kp) ReferenceRuntime.key_b)
                PROTOCOL_CONSTANTS.SALT PROTOCOL_CONSTANTS.INFO 64).
  set (e1 := logged (env w)
               [CallDiffieHellman (privateKey kp) ReferenceRuntime.key_b;
                CallHkdf (x25519 (privateKey kp) ReferenceRuntime.key_b)
                  PROTOCOL_CONSTANTS.SALT PROTOCOL_CONSTANTS.INFO 64]).
  set (r := createMessage MESSAGE_TYPES.ACK (sequenceNumber (this w))
              (handshake_ack_payload (clock w)) (take 32 okm) (drop 32 okm) e1).
  destruct (handshake_response_installs_the_derived_keys (L := reference_laws)
              response w ReferenceRuntime.key_b kp (mkConnection "host" 4433)
              (match fst r with Normal f => f | Throw _ => [] end) (snd r))
    as (_ & Hk & H1 & H2 & _ & Hs & _).
  - reflexivity.
  - vm_compute. reflexivity.
  - vm_compute. reflexivity.
  - apply injective_projections; [vm_compute; reflexivity | reflexivity].
  - split; [exact Hs |]. eexists. split; [exact Hk |]. split; [exact H1 | exact H2].
Defined.

Lemma outbound_sequence_number_never_decreases_witness :
  let w := ReferenceRuntime.connected 3 in
  let ops := [CallSend (JString "ping"); CallReceive; TimerFires 0;
              CallConnect "host" 4433 None; CallClose] in
  sequenceNumber (this w) <= sequenceNumber (this (run 3 ops w)) <= 2 ^ 53.
Proof.
  intros w ops.
  apply (outbound_sequence_number_never_decreases 3 ops w).
  - vm_compute. discriminate.
  - unfold ops. cbn [In]. intros [H | [H | [H | [H | [H | []]]]]]; discriminate H.
  - vm_compute. split; discriminate.
Defined.

Lemma at_most_one_idle_timer_is_armed_witness :
  let ops := [CallConnect "host" 4433 None; CallConnect "host" 4433 None;
              CallReceive; CallConnect "other" 4434 None] in
  let w' := run 3 ops (ReferenceRuntime.fresh true) in
  timeoutId (this w') = Some 6%nat /\
  forall id d,
    timers w' !! id = Some (mkTimer ProtocolTimeoutCallback d) -> id = 6%nat.
Proof.
  intros ops w'.
  assert (Ht : timeoutId (this w') = Some 6%nat) by (vm_compute; reflexivity).
  split; [exact Ht |].
  intros id d H.
  destruct (at_most_one_idle_timer_is_armed 3 ops (ReferenceRuntime.fresh true))
    as [Hnamed _].
  - intros i d' Hl. vm_compute in Hl. discriminate Hl.
  - apply Hnamed in H. fold w' in H. congruence.
Defined.

Lemma handleError_reports_then_closes_witness :
  let w := ReferenceRuntime.connected 3 in
  state (this (snd (_handleError 3 (Error PROTOCOL_ERRORS.TIMEOUT) w))) =
    PROTOCOL_STATES.CLOSED /\
  connection (this (snd (_handleError 3 (Error PROTOCOL_ERRORS.TIMEOUT) w))) = None.
Proof.
  intros w.
  destruct (handleError_reports_then_closes 3 (Error PROTOCOL_ERRORS.TIMEOUT) w)
    as (_ & Hs & rest & _ & _ & Hopen).
  split; [exact Hs |].
  apply Hopen. vm_compute. discriminate.
Defined.

Lemma acknowledged_send_cannot_time_out_witness :
  let w := snd (send (JString "ping")
                  (ReferenceRuntime.with_session (ReferenceRuntime.connected 3))) in
  let ack := JObject [("type", JString "ack"); ("sequenceNumber", JNumber 1)] in
  let w1 := snd (_handleAcknowledgment ack w) in
  promises w1 !! 0%nat = Some (Fulfilled ack) /\
  snd (timer_fires 3 3 w1) = w1.
Proof.
  intros w ack w1.
  destruct (acknowledged_send_cannot_time_out 3 ack w 1 (mkWaiter 0 3))
    as (Hf & _ & Hsame).
  - reflexivity.
  - vm_compute. reflexivity.
  - vm_compute. reflexivity.
  - split; [exact Hf | exact Hsame].
Defined.

Lemma verifyHMAC_accepts_exactly_the_hmac_witness :
  fst (verifyHMAC (list_byte_of_string "Test message for HMAC") ReferenceRuntime.key_a
         (repeat x00 32) ReferenceRuntime.env0) = Normal false /\
  fst (verifyHMAC (list_byte_of_string "Test message for HMAC") ReferenceRuntime.key_a
         (repeat x00 31) ReferenceRuntime.env0) =
    Throw (RangeError "Input buffers must have the same byte length").
Proof.
  split;
    rewrite (proj1 (verifyHMAC_accepts_exactly_the_hmac (L := reference_laws) _ _ _ _));
    vm_compute; reflexivity.
Defined.

Lemma sending_and_receiving_do_not_postpone_the_idle_timer_witness :
  let w := ReferenceRuntime.with_session (ReferenceRuntime.connected 3) in
  let ops := [CallSend (JString "a"); CallReceive; CallSend (JString "b")] in
  timeoutId (this (run 3 ops w)) = Some 1%nat /\
  state (this (run 3 ops w)) = PROTOCOL_STATES.CONNECTED /\
  state (this (snd (timer_fires 3 1 (run 3 ops w)))) = PROTOCOL_STATES.CLOSED.
Proof.
  intros w ops.
  destruct (sending_and_receiving_do_not_postpone_the_idle_timer 3 1 30000 ops w)
    as (H1 & _ & H2 & _).
  - vm_compute. reflexivity.
  - vm_compute. reflexivity.
  - vm_compute. lia.
  - repeat constructor.
  - split; [exact H1 |]. split; [vm_compute; reflexivity | exact H2].
Defined.
